(** * PolicyStack CLI: the three-way merge core and the apply stage

    A shallow embedding of [policystack/core/merger.py] and, from
    [policystack/commands/upgrade.py], of
    [TemplateUpgrader.apply_merged_files] and of the two wrappers
    [merge_values_files] and [merge_helm_template], with the properties of
    the merge core and of the apply stage stated and proved over it.

    Modelling scope.
    - A YAML document is a [value]: null, booleans, integers, floats,
      strings, sequences and mappings with string keys.  Mappings are
      association lists in insertion order; a well-formed mapping has no
      repeated key ([wf]).  Timestamps, binary scalars and non-string
      mapping keys are outside the model.
    - Only [==] is ever applied to floats, so a float is [nan], an infinity
      or the rational number it denotes.
    - Python compares sequence items and dictionary keys by identity before
      [==]; the three documents are loaded separately and share no objects,
      so [py_eq] is value equality throughout ([nan] is unequal to itself).
    - Comment annotations are not represented: [_preserve_comments] only
      copies annotations and leaves keys and values as they are.
    - The mergers append to [self.conflicts] and may raise: they are
      written in a state and exception monad.  The recursion of
      [_deep_merge] descends into the local document and is bounded by
      fuel; [merge] supplies the height of the local document plus one,
      which is enough ([FuelFacts.merge_returns_or_raises]).
    - The order in which a Python [set] is iterated is a parameter of
      [YAMLMerger].
    - A text (a Python [str]) is the [string] of its UTF-8 bytes.  Braces
      are single bytes that occur in no other character, so the regular
      expression of [extract_blocks], the joining and the comparison of
      texts work byte by byte; [str.strip] removes the white space of
      Unicode, recognised in its UTF-8 form.  A file holds bytes; what
      the text layer of Python makes of them (decoding in the encoding of
      the locale, universal newlines, [UnicodeDecodeError]) is a parameter
      of [merge_helm_template], and is part of the YAML loaders where a
      file is handed to one.
    - The apply stage runs over a directory tree, with the collaborators
      that are not in the two files (the YAML dumpers and loader, the
      conflict-marker generator) as parameters. *)

From Stdlib Require Import ZArith QArith Bool List String Ascii Lia DecimalString.
From Stdlib Require Import Permutation.
Import ListNotations.
Close Scope Q_scope.
Open Scope string_scope.
Open Scope list_scope.

Set Implicit Arguments.
Set Warnings "-register-all".


(* ================================================================== *)
(** * Python values *)

Module Py.

(** ** Association lists: the insertion-ordered [dict] *)

Section Assoc.
Context {K V : Type}.
Variable keq : K -> K -> bool.

Fixpoint assoc_get (k : K) (d : list (K * V)) : option V :=
  match d with
  | [] => None
  | (k', v) :: d' => if keq k k' then Some v else assoc_get k d'
  end.

Definition assoc_mem (k : K) (d : list (K * V)) : bool :=
  match assoc_get k d with Some _ => true | None => false end.

(** [d[k] = v]: an existing key keeps its position, a new key goes last. *)
Fixpoint assoc_set (k : K) (v : V) (d : list (K * V)) : list (K * V) :=
  match d with
  | [] => [(k, v)]
  | (k', v') :: d' =>
      if keq k k' then (k', v) :: d' else (k', v') :: assoc_set k v d'
  end.

Definition keys (d : list (K * V)) : list K := map fst d.
End Assoc.

Fixpoint mem_str (k : string) (l : list string) : bool :=
  match l with
  | [] => false
  | k' :: l' => if String.eqb k k' then true else mem_str k l'
  end.

(** ** The value tree *)

Inductive pyfloat : Type :=
| FNan
| FInf (negative : bool)
| FFin (q : Q).

Inductive value : Type :=
| VNone
| VBool (b : bool)
| VInt (n : Z)
| VFloat (f : pyfloat)
| VStr (s : string)
| VList (items : list value)
| VDict (entries : list (string * value)).

Definition dict := list (string * value).

Definition dict_get : string -> dict -> option value := assoc_get String.eqb.
Definition dict_mem : string -> dict -> bool := assoc_mem String.eqb.
Definition dict_set : string -> value -> dict -> dict := assoc_set String.eqb.

Definition is_dict (v : value) : bool :=
  match v with VDict _ => true | _ => false end.
Definition is_list (v : value) : bool :=
  match v with VList _ => true | _ => false end.

(** ** Python [==] *)

Inductive num : Type :=
| NNan
| NInf (negative : bool)
| NFin (q : Q).

Definition num_of_float (f : pyfloat) : num :=
  match f with
  | FNan => NNan
  | FInf s => NInf s
  | FFin q => NFin q
  end.

(** [bool] is a subclass of [int]; [int] and [float] compare by exact value. *)
Definition num_of (v : value) : option num :=
  match v with
  | VBool b => Some (NFin (inject_Z (if b then 1 else 0)))
  | VInt n => Some (NFin (inject_Z n))
  | VFloat f => Some (num_of_float f)
  | _ => None
  end.

Definition num_eqb (a b : num) : bool :=
  match a, b with
  | NFin p, NFin q => Qeq_bool p q
  | NInf s, NInf t => Bool.eqb s t
  | _, _ => false
  end.

Definition num_eq (a b : value) : bool :=
  match num_of a, num_of b with
  | Some x, Some y => num_eqb x y
  | _, _ => false
  end.

Fixpoint py_eq (a b : value) : bool :=
  match a with
  | VNone => match b with VNone => true | _ => false end
  | VBool _ | VInt _ | VFloat _ => num_eq a b
  | VStr s => match b with VStr t => String.eqb s t | _ => false end
  | VList xs =>
      match b with
      | VList ys =>
          (fix items_eq (xs ys : list value) : bool :=
             match xs, ys with
             | [], [] => true
             | x :: xs', y :: ys' => py_eq x y && items_eq xs' ys'
             | _, _ => false
             end) xs ys
      | _ => false
      end
  | VDict d =>
      match b with
      | VDict d' =>
          Nat.eqb (List.length d) (List.length d') &&
          (fix entries_eq (d : dict) : bool :=
             match d with
             | [] => true
             | (k, v) :: r =>
                 match dict_get k d' with
                 | Some v' => py_eq v v'
                 | None => false
                 end && entries_eq r
             end) d
      | _ => false
      end
  end.

Definition py_ne (a b : value) : bool := negb (py_eq a b).

(** The two inner loops of [py_eq], named. *)
Fixpoint items_eq (xs ys : list value) : bool :=
  match xs, ys with
  | [], [] => true
  | x :: xs', y :: ys' => py_eq x y && items_eq xs' ys'
  | _, _ => false
  end.

Fixpoint entries_eq (d' d : dict) : bool :=
  match d with
  | [] => true
  | (k, v) :: r =>
      match dict_get k d' with
      | Some v' => py_eq v v'
      | None => false
      end && entries_eq d' r
  end.

(** ** Truth value: [bool(v)] *)

Definition truthy (v : value) : bool :=
  match v with
  | VNone => false
  | VBool b => b
  | VInt n => negb (Z.eqb n 0)
  | VFloat FNan => true
  | VFloat (FInf _) => true
  | VFloat (FFin q) => negb (Qeq_bool q 0)
  | VStr s => negb (String.eqb s "")
  | VList xs => match xs with [] => false | _ => true end
  | VDict d => match d with [] => false | _ => true end
  end.

(** [a or b] *)
Definition py_or (a b : value) : value := if truthy a then a else b.

(** ** Well-formed documents: no mapping repeats a key *)

Fixpoint nodup_str (l : list string) : bool :=
  match l with
  | [] => true
  | k :: l' => negb (mem_str k l') && nodup_str l'
  end.

Fixpoint wf (v : value) : bool :=
  match v with
  | VList xs => forallb wf xs
  | VDict d =>
      nodup_str (keys d) &&
      (fix wf_entries (d : dict) : bool :=
         match d with
         | [] => true
         | (_, v) :: r => wf v && wf_entries r
         end) d
  | _ => true
  end.

Fixpoint height (v : value) : nat :=
  match v with
  | VList xs => S (fold_right (fun x n => Nat.max (height x) n) 0 xs)
  | VDict d =>
      S ((fix go (d : dict) : nat :=
            match d with
            | [] => 0
            | (_, v) :: r => Nat.max (height v) (go r)
            end) d)
  | _ => 0
  end.

End Py.
Import Py.

(* ================================================================== *)
(** * merger.py: [MergeConflict] *)

Module MergeConflict.

Record t : Type := mk {
  path : string;
  base_value : value;
  local_value : value;
  remote_value : value;
  resolution : option string;
  auto_resolvable : bool
}.

Definition set_resolution (self : t) (r : option string) : t :=
  mk (path self) (base_value self) (local_value self) (remote_value self)
     r (auto_resolvable self).

Definition set_auto_resolvable (self : t) (a : bool) : t :=
  mk (path self) (base_value self) (local_value self) (remote_value self)
     (resolution self) a.

(** The method assigns [self.resolution] and returns the flag. *)
Definition _check_auto_resolvable (self : t) : t * bool :=
  if py_eq (base_value self) (remote_value self) then
    (set_resolution self (Some "keep_local"), true)
  else if py_eq (base_value self) (local_value self) then
    (set_resolution self (Some "take_remote"), true)
  else (self, false).

Definition __init__ (path : string) (base_value local_value remote_value : value)
  : t :=
  let self := mk path base_value local_value remote_value None false in
  let (self, a) := _check_auto_resolvable self in
  set_auto_resolvable self a.

(** [not c.resolution] *)
Definition unresolved (c : t) : bool :=
  match resolution c with
  | None => true
  | Some s => String.eqb s ""
  end.

End MergeConflict.

(* ================================================================== *)
(** * Exceptions and the merger's state *)

(** The classes of exception the modelled code can raise. *)
Inductive exn : Type :=
| AttributeError
| TypeError
| KeyError
| NameError (name : string)
| OSError (errno : string) (filename : string)
| ExternalError (what : string)
| UnicodeDecodeError.

Inductive result (A : Type) : Type :=
| Ok (a : A)
| Raise (e : exn)
| OutOfFuel.
Arguments Ok {A} a.
Arguments Raise {A} e.
Arguments OutOfFuel {A}.

(** ** Operations of dynamically typed objects *)

Module Dyn.

Definition entries (v : value) : dict :=
  match v with VDict d => d | _ => [] end.

Definition items (v : value) : list value :=
  match v with VList xs => xs | _ => [] end.

(** [obj.get(key)]: only mappings have the method. *)
Definition get (obj : value) (key : string) : result value :=
  match obj with
  | VDict d => Ok (match dict_get key d with Some v => v | None => VNone end)
  | _ => Raise AttributeError
  end.

Definition is_substring (k s : string) : bool :=
  match String.index 0 k s with Some _ => true | None => false end.

(** [key in obj] for a string [key]. *)
Definition contains (key : string) (obj : value) : result bool :=
  match obj with
  | VDict d => Ok (dict_mem key d)
  | VStr s => Ok (is_substring key s)
  | VList xs => Ok (existsb (fun x => py_eq x (VStr key)) xs)
  | _ => Raise TypeError
  end.

(** [obj[key]] for a string [key]. *)
Definition getitem (obj : value) (key : string) : result value :=
  match obj with
  | VDict d =>
      match dict_get key d with Some v => Ok v | None => Raise KeyError end
  | _ => Raise TypeError
  end.

Fixpoint chars (s : string) : list value :=
  match s with
  | EmptyString => []
  | String c s' => VStr (String c EmptyString) :: chars s'
  end.

(** [for item in obj] *)
Definition iter (obj : value) : result (list value) :=
  match obj with
  | VList xs => Ok xs
  | VStr s => Ok (chars s)
  | VDict d => Ok (map VStr (keys d))
  | _ => Raise TypeError
  end.

Definition hashable (v : value) : bool :=
  match v with VList _ | VDict _ => false | _ => true end.

(** [item.get('name')] on a mapping [item] *)
Definition item_name (item : value) : value :=
  match dict_get "name" (entries item) with Some n => n | None => VNone end.

(** A dictionary keyed by names, and a set of names. *)
Definition names := list (value * value).
Definition names_get : value -> names -> option value := assoc_get py_eq.
Definition names_set : value -> value -> names -> names := assoc_set py_eq.
Definition names_mem : value -> names -> bool := assoc_mem py_eq.

Definition seen_mem (name : value) (seen : list value) : bool :=
  existsb (py_eq name) seen.
Definition seen_add (name : value) (seen : list value) : list value :=
  if seen_mem name seen then seen else seen ++ [name].

(** [{item.get('name'): item for item in items if isinstance(item, dict)}] *)
Fixpoint by_name (items : list value) (acc : names) : result names :=
  match items with
  | [] => Ok acc
  | item :: rest =>
      if is_dict item then
        let name := item_name item in
        if hashable name then by_name rest (names_set name item acc)
        else Raise TypeError
      else by_name rest acc
  end.

Definition str_of_Z (n : Z) : string := NilZero.string_of_int (Z.to_int n).
Definition str_of_nat (n : nat) : string := NilZero.string_of_uint (Nat.to_uint n).

End Dyn.

(** ** The merger monad: [self.conflicts] threaded, exceptions propagated *)

Module MergeM.

Definition M (A : Type) : Type :=
  list MergeConflict.t -> result (A * list MergeConflict.t).

Definition ret {A} (a : A) : M A := fun cs => Ok (a, cs).

Definition bind {A B} (m : M A) (f : A -> M B) : M B :=
  fun cs =>
    match m cs with
    | Ok (a, cs') => f a cs'
    | Raise e => Raise e
    | OutOfFuel => OutOfFuel
    end.

Definition lift {A} (r : result A) : M A :=
  fun cs =>
    match r with
    | Ok a => Ok (a, cs)
    | Raise e => Raise e
    | OutOfFuel => OutOfFuel
    end.

Definition out_of_fuel {A} : M A := fun _ => OutOfFuel.

(** [self.conflicts.append(conflict)] *)
Definition append_conflict (c : MergeConflict.t) : M unit :=
  fun cs => Ok (tt, cs ++ [c]).

End MergeM.

Declare Scope merge_scope.
Delimit Scope merge_scope with merge.
Notation "x <- m ;; k" := (MergeM.bind m (fun x => k))
  (at level 61, m at next level, right associativity) : merge_scope.
Notation "m ;;; k" := (MergeM.bind m (fun _ => k))
  (at level 61, right associativity) : merge_scope.

(* ================================================================== *)
(** * merger.py: [PreservingYAMLMerger] *)

Module PreservingYAMLMerger.
Import MergeM.
Local Open Scope merge_scope.

Section Merger.

(** [str(v)] for the values the model does not print itself (floats and
    containers): a builtin of the language. *)
Variable py_repr : value -> string.

(** Whether the local document was loaded by ruamel, so that its mappings
    are [CommentedMap]s. *)
Variable local_is_CommentedMap : bool.

Definition py_str (v : value) : string :=
  match v with
  | VNone => "None"
  | VBool true => "True"
  | VBool false => "False"
  | VInt n => Dyn.str_of_Z n
  | VStr s => s
  | _ => py_repr v
  end.

Section Recursive.
(** The recursive call [self._deep_merge]. *)
Variable rec : value -> value -> value -> string -> M value.

Section Dicts.
Variables (base : value) (local remote : dict) (path : string).

Definition key_path (key : string) : string :=
  if String.eqb path "" then key else (path ++ "." ++ key)%string.

(** [for key in all_keys: ...] *)
Fixpoint merge_keys (all_keys : list string) (merged : dict) : M dict :=
  match all_keys with
  | [] => ret merged
  | key :: rest =>
      match dict_get key local, dict_get key remote with
      | Some lv, Some rv =>
          base_value <-
            (if truthy base then lift (Dyn.get base key) else ret VNone) ;;
          v <- rec base_value lv rv (key_path key) ;;
          merge_keys rest (dict_set key v merged)
      | Some lv, None =>
          let merged := dict_set key lv merged in
          in_base <- lift (Dyn.contains key base) ;;
          (if in_base : bool then
             bv <- lift (Dyn.getitem base key) ;;
             append_conflict
               (MergeConflict.__init__ (key_path key) bv lv VNone)
           else ret tt) ;;;
          merge_keys rest merged
      | None, Some rv => merge_keys rest (dict_set key rv merged)
      | None, None => lift (Raise KeyError)
      end
  end.

Definition placeholders : dict :=
  if local_is_CommentedMap
  then fold_left (fun m key => dict_set key VNone m) (keys local) []
  else [].

Definition all_keys : list string :=
  fold_left (fun acc key => if mem_str key acc then acc else acc ++ [key])
            (keys remote) (keys local).

Definition _merge_dicts : M value :=
  merged <- merge_keys all_keys placeholders ;;
  ret (VDict merged).
End Dicts.

Definition _is_named_list (lst : list value) : bool :=
  match lst with
  | [] => false
  | _ =>
      forallb is_dict lst &&
      forallb (fun item => dict_mem "name" (Dyn.entries item)) lst
  end.

Section NamedLists.
Variables (base_by_name remote_by_name : Dyn.names) (path : string).

(** [for item in local: ...], with [merged] and [seen_names]. *)
Fixpoint merge_local_items (local : list value)
         (merged seen_names : list value)
  : M (list value * list value) :=
  match local with
  | [] => ret (merged, seen_names)
  | item :: rest =>
      if is_dict item then
        let name := Dyn.item_name item in
        if truthy name then
          let seen_names := Dyn.seen_add name seen_names in
          match Dyn.names_get name remote_by_name with
          | Some remote_item =>
              let base_item :=
                match Dyn.names_get name base_by_name with
                | Some b => b
                | None => VDict []
                end in
              merged_item <-
                rec base_item item remote_item
                    (path ++ "[name=" ++ py_str name ++ "]")%string ;;
              merge_local_items rest (merged ++ [merged_item]) seen_names
          | None => merge_local_items rest (merged ++ [item]) seen_names
          end
        else merge_local_items rest merged seen_names
      else merge_local_items rest merged seen_names
  end.

Definition remote_only (seen_names : list value) : list value :=
  map snd
      (filter (fun ni => negb (Dyn.seen_mem (fst ni) seen_names))
              remote_by_name).
End NamedLists.

Definition _merge_named_lists (base : value) (local remote : list value)
           (path : string) : M value :=
  base_items <- lift (Dyn.iter (py_or base (VList []))) ;;
  base_by_name <- lift (Dyn.by_name base_items []) ;;
  _local_by_name <- lift (Dyn.by_name local []) ;;
  remote_by_name <- lift (Dyn.by_name remote []) ;;
  ms <- merge_local_items base_by_name remote_by_name path local [] [] ;;
  ret (VList (fst ms ++ remote_only remote_by_name (snd ms))).

Definition _merge_lists (base : value) (local remote : list value)
           (path : string) : M value :=
  if _is_named_list local || _is_named_list remote then
    _merge_named_lists base local remote path
  else if py_ne (VList local) base && py_ne (VList remote) base
          && py_ne (VList local) (VList remote) then
    append_conflict
      (MergeConflict.__init__ path base (VList local) (VList remote)) ;;;
    ret (VList local)
  else if py_ne (VList local) base then ret (VList local)
  else ret (VList remote).

End Recursive.

(** [_deep_merge]; [fuel] bounds the depth of the recursion. *)
Fixpoint _deep_merge (fuel : nat) (base local remote : value)
         (path : string) {struct fuel} : M value :=
  match fuel with
  | O => out_of_fuel
  | S fuel =>
      if py_eq local remote then ret local
      else if is_dict local && is_dict remote then
        _merge_dicts (_deep_merge fuel) (py_or base (VDict []))
                     (Dyn.entries local) (Dyn.entries remote) path
      else if is_list local && is_list remote then
        _merge_lists (_deep_merge fuel) (py_or base (VList []))
                     (Dyn.items local) (Dyn.items remote) path
      else if py_ne local remote then
        if py_eq base local then ret remote
        else if py_eq base remote then ret local
        else
          append_conflict (MergeConflict.__init__ path base local remote) ;;;
          ret local
      else ret local
  end.

(** [merge]: the recursion descends into [local], so its height plus one
    is fuel enough. *)
Definition merge (base local remote : value)
  : result (value * list MergeConflict.t) :=
  _deep_merge (S (height local)) base local remote "" [].

End Merger.
End PreservingYAMLMerger.

(* ================================================================== *)
(** * merger.py: [YAMLMerger] *)

Module YAMLMerger.
Import MergeM.
Local Open Scope merge_scope.

Inductive pytype : Type :=
| TNone | TBool | TInt | TFloat | TStr | TList | TDict.

(** [type(v)] *)
Definition type (v : value) : pytype :=
  match v with
  | VNone => TNone
  | VBool _ => TBool
  | VInt _ => TInt
  | VFloat _ => TFloat
  | VStr _ => TStr
  | VList _ => TList
  | VDict _ => TDict
  end.

Definition pytype_eqb (a b : pytype) : bool :=
  match a, b with
  | TNone, TNone | TBool, TBool | TInt, TInt | TFloat, TFloat
  | TStr, TStr | TList, TList | TDict, TDict => true
  | _, _ => false
  end.

Section Merger.

Variable py_repr : value -> string.

(** The order in which a [set] of keys, and a [set] of names, is iterated:
    it depends on the hashes of the process and is left open here. *)
Variable set_iter_keys : list string -> list string.
Variable set_iter_names : list value -> list value.

Definition py_str : value -> string := PreservingYAMLMerger.py_str py_repr.

Section Recursive.
Variable rec : value -> value -> value -> string -> M value.

Section Dicts.
Variables (base : value) (local remote : dict) (path : string).

Definition key_path (key : string) : string :=
  if String.eqb path "" then key else (path ++ "." ++ key)%string.

Fixpoint merge_keys (all_keys : list string) (merged : dict) : M dict :=
  match all_keys with
  | [] => ret merged
  | key :: rest =>
      match dict_get key local, dict_get key remote with
      | Some lv, Some rv =>
          base_value <- lift (Dyn.get base key) ;;
          v <- rec base_value lv rv (key_path key) ;;
          merge_keys rest (dict_set key v merged)
      | Some lv, None =>
          in_base <- lift (Dyn.contains key base) ;;
          (if in_base : bool then
             bv <- lift (Dyn.getitem base key) ;;
             append_conflict
               (MergeConflict.__init__ (key_path key) bv lv VNone)
           else ret tt) ;;;
          merge_keys rest (dict_set key lv merged)
      | None, Some rv =>
          in_base <- lift (Dyn.contains key base) ;;
          if in_base : bool then
            bv <- lift (Dyn.getitem base key) ;;
            append_conflict
              (MergeConflict.__init__ (key_path key) bv VNone rv) ;;;
            merge_keys rest merged
          else merge_keys rest (dict_set key rv merged)
      | None, None => lift (Raise KeyError)
      end
  end.

(** [set(local.keys()) | set(remote.keys())] *)
Definition all_keys : list string :=
  set_iter_keys
    (fold_left
       (fun acc key => if mem_str key acc then acc else acc ++ [key])
       (keys local ++ keys remote) []).

Definition _merge_dicts : M value :=
  merged <- merge_keys all_keys [] ;;
  ret (VDict merged).
End Dicts.

Definition _is_named_list : list value -> bool :=
  PreservingYAMLMerger._is_named_list.

Section NamedLists.
Variables (base_by_name local_by_name remote_by_name : Dyn.names)
          (path : string).

(** [for name in all_names: ...] *)
Fixpoint merge_names (all_names : list value) (merged : list value)
  : M (list value) :=
  match all_names with
  | [] => ret merged
  | name :: rest =>
      let item_path := (path ++ "[name=" ++ py_str name ++ "]")%string in
      let base_item :=
        match Dyn.names_get name base_by_name with
        | Some b => b
        | None => VDict []
        end in
      let local_item :=
        match Dyn.names_get name local_by_name with
        | Some i => i
        | None => VNone
        end in
      let remote_item :=
        match Dyn.names_get name remote_by_name with
        | Some i => i
        | None => VNone
        end in
      if truthy local_item && truthy remote_item then
        merged_item <- rec base_item local_item remote_item item_path ;;
        merge_names rest (merged ++ [merged_item])
      else if truthy local_item then
        merge_names rest (merged ++ [local_item])
      else merge_names rest (merged ++ [remote_item])
  end.

Definition all_names : list value :=
  set_iter_names
    (fold_left
       (fun acc name =>
          if Dyn.seen_mem name acc then acc else acc ++ [name])
       (keys local_by_name ++ keys remote_by_name) []).
End NamedLists.

Definition _merge_named_lists (base : value) (local remote : list value)
           (path : string) : M value :=
  base_items <- lift (Dyn.iter base) ;;
  base_by_name <- lift (Dyn.by_name base_items []) ;;
  local_by_name <- lift (Dyn.by_name local []) ;;
  remote_by_name <- lift (Dyn.by_name remote []) ;;
  merged <-
    merge_names base_by_name local_by_name remote_by_name path
                (all_names local_by_name remote_by_name) [] ;;
  ret (VList merged).

Definition _merge_lists (base : value) (local remote : list value)
           (path : string) : M value :=
  if _is_named_list local || _is_named_list remote then
    _merge_named_lists base local remote path
  else if py_ne (VList local) base && py_ne (VList remote) base
          && py_ne (VList local) (VList remote) then
    append_conflict
      (MergeConflict.__init__ path base (VList local) (VList remote)) ;;;
    ret (VList local)
  else if py_ne (VList local) base then ret (VList local)
  else ret (VList remote).

End Recursive.

(** The three-way rule of a node, written twice in [_deep_merge]. *)
Definition three_way (base local remote : value) (path : string) : M value :=
  if py_eq base local then ret remote
  else if py_eq base remote then ret local
  else
    append_conflict (MergeConflict.__init__ path base local remote) ;;;
    ret local.

Fixpoint _deep_merge (fuel : nat) (base local remote : value)
         (path : string) {struct fuel} : M value :=
  match fuel with
  | O => out_of_fuel
  | S fuel =>
      if py_eq local remote then ret local
      else if negb (pytype_eqb (type local) (type remote)) then
        three_way base local remote path
      else if is_dict local && is_dict remote then
        _merge_dicts (_deep_merge fuel) (py_or base (VDict []))
                     (Dyn.entries local) (Dyn.entries remote) path
      else if is_list local && is_list remote then
        _merge_lists (_deep_merge fuel) (py_or base (VList []))
                     (Dyn.items local) (Dyn.items remote) path
      else if py_ne local remote then three_way base local remote path
      else ret local
  end.

Definition merge (base local remote : value)
  : result (value * list MergeConflict.t) :=
  _deep_merge (S (height local)) base local remote "" [].

End Merger.
End YAMLMerger.

(* ================================================================== *)
(** * merger.py: [HelmTemplateMerger] *)

Module HelmTemplateMerger.

Inductive kind : Type := static | template.

Definition block : Type := (kind * string)%type.

Definition kind_eqb (a b : kind) : bool :=
  match a, b with
  | static, static | template, template => true
  | _, _ => false
  end.

(** Equality of two [(kind, text)] tuples. *)
Definition block_eqb (a b : block) : bool :=
  kind_eqb (fst a) (fst b) && String.eqb (snd a) (snd b).

Definition lbrace : ascii := "{"%char.
Definition rbrace : ascii := "}"%char.

(** After [{{]: the run [[^}]*] and then [}}].  The run stops at the first
    closing brace, so a match exists exactly when that brace is doubled. *)
Fixpoint match_body (s : string) : option (string * string) :=
  match s with
  | EmptyString => None
  | String c s' =>
      if Ascii.eqb c rbrace then
        match s' with
        | String c' rest =>
            if Ascii.eqb c' rbrace then Some (EmptyString, rest) else None
        | EmptyString => None
        end
      else
        match match_body s' with
        | Some (body, rest) => Some (String c body, rest)
        | None => None
        end
  end.

(** A match of [{{[^}]*}}] at the head of [s]: the match and what follows. *)
Definition match_directive (s : string) : option (string * string) :=
  match s with
  | String c1 (String c2 s') =>
      if Ascii.eqb c1 lbrace && Ascii.eqb c2 lbrace then
        match match_body s' with
        | Some (body, rest) => Some ("{{" ++ body ++ "}}", rest)%string
        | None => None
        end
      else None
  | _ => None
  end.

(** [re.split(pattern, content)] with the one capture group: the text
    before each match, the match, and the text after the last match.  Every
    step consumes a character, so the length of [content] plus one is fuel
    enough. *)
Fixpoint split_parts (fuel : nat) (s : string) (text : string) : list string :=
  match fuel with
  | O => [text]
  | S fuel =>
      match match_directive s with
      | Some (d, rest) => text :: d :: split_parts fuel rest ""
      | None =>
          match s with
          | EmptyString => [text]
          | String c s' => split_parts fuel s' (text ++ String c "")%string
          end
      end
  end.

Definition re_split (content : string) : list string :=
  split_parts (S (String.length content)) content "".

(** The white space that [str.strip()] removes is the set of characters
    for which [str.isspace()] holds: U+0009 to U+000D, U+001C to U+0020,
    U+0085, U+00A0, U+1680, U+2000 to U+200A, U+2028, U+2029, U+202F,
    U+205F and U+3000.  In UTF-8 the first ten are one byte each. *)
Definition is_space (c : ascii) : bool :=
  let n := nat_of_ascii c in
  (Nat.leb 9 n && Nat.leb n 13) || (Nat.leb 28 n && Nat.leb n 32).

(** U+0085 is [C2 85] and U+00A0 is [C2 A0]. *)
Definition is_space2 (c d : ascii) : bool :=
  let m := nat_of_ascii c in
  let n := nat_of_ascii d in
  Nat.eqb m 194 && (Nat.eqb n 133 || Nat.eqb n 160).

(** U+1680 is [E1 9A 80]; U+2000 to U+200A are [E2 80 80] to [E2 80 8A];
    U+2028, U+2029 and U+202F are [E2 80 A8], [E2 80 A9] and [E2 80 AF];
    U+205F is [E2 81 9F]; U+3000 is [E3 80 80]. *)
Definition is_space3 (c d e : ascii) : bool :=
  let l := nat_of_ascii c in
  let m := nat_of_ascii d in
  let n := nat_of_ascii e in
  (Nat.eqb l 225 && Nat.eqb m 154 && Nat.eqb n 128) ||
  (Nat.eqb l 226 && Nat.eqb m 128 &&
   ((Nat.leb 128 n && Nat.leb n 138) ||
    Nat.eqb n 168 || Nat.eqb n 169 || Nat.eqb n 175)) ||
  (Nat.eqb l 226 && Nat.eqb m 129 && Nat.eqb n 159) ||
  (Nat.eqb l 227 && Nat.eqb m 128 && Nat.eqb n 128).

(** [part.strip()] is non-empty when some character is not white space:
    white-space characters are passed over from the head of the text, and
    the first character that is none settles it. *)
Fixpoint strip_nonempty (s : string) : bool :=
  match s with
  | EmptyString => false
  | String c s1 =>
      if is_space c then strip_nonempty s1
      else
        match s1 with
        | EmptyString => true
        | String d s2 =>
            if is_space2 c d then strip_nonempty s2
            else
              match s2 with
              | EmptyString => true
              | String e s3 =>
                  if is_space3 c d e then strip_nonempty s3 else true
              end
        end
  end.

(** [for i, part in enumerate(parts): ...] *)
Fixpoint blocks_of_parts (i : nat) (parts : list string) : list block :=
  match parts with
  | [] => []
  | part :: rest =>
      if Nat.even i then
        if strip_nonempty part
        then (static, part) :: blocks_of_parts (S i) rest
        else blocks_of_parts (S i) rest
      else (template, part) :: blocks_of_parts (S i) rest
  end.

Definition extract_blocks (content : string) : list block :=
  blocks_of_parts 0 (re_split content).

Definition nl : string := String (ascii_of_nat 10) "".

(** The f-string of the conflict marker: in an f-string a doubled brace is
    one literal brace. *)
Definition conflict_marker (local_text remote_text : string) : string :=
  (nl ++ "{- /* MERGE CONFLICT START */ -}" ++ nl ++
   "{- /* LOCAL VERSION: */ -}" ++ nl ++
   local_text ++ nl ++
   "{- /* REMOTE VERSION: */ -}" ++ nl ++
   remote_text ++ nl ++
   "{- /* MERGE CONFLICT END */ -}")%string.

(** [zip(base_blocks, local_blocks, remote_blocks)] *)
Fixpoint zip3 (bs ls rs : list block) : list (block * block * block) :=
  match bs, ls, rs with
  | b :: bs', l :: ls', r :: rs' => (b, l, r) :: zip3 bs' ls' rs'
  | _, _, _ => []
  end.

Section Loop.
Variable base_blocks : list block.

(** [for i, (base_block, local_block, remote_block) in enumerate(zip(...))] *)
Fixpoint merge_blocks (i : nat) (triples : list (block * block * block))
         (merged : list string) (conflicts : list MergeConflict.t)
  : list string * list MergeConflict.t :=
  match triples with
  | [] => (merged, conflicts)
  | (base_block, local_block, remote_block) :: rest =>
      if block_eqb local_block remote_block then
        merge_blocks (S i) rest (merged ++ [snd local_block]) conflicts
      else if block_eqb local_block base_block then
        merge_blocks (S i) rest (merged ++ [snd remote_block]) conflicts
      else if block_eqb remote_block base_block then
        merge_blocks (S i) rest (merged ++ [snd local_block]) conflicts
      else
        let conflict :=
          MergeConflict.__init__
            ("block_" ++ Dyn.str_of_nat i)
            (if Nat.ltb i (List.length base_blocks)
             then VStr (snd base_block) else VNone)
            (VStr (snd local_block))
            (VStr (snd remote_block)) in
        merge_blocks (S i) rest
          (merged ++ [conflict_marker (snd local_block) (snd remote_block)])
          (conflicts ++ [conflict])
  end.
End Loop.

Definition merge_template (base local remote : string)
  : string * list MergeConflict.t :=
  let base_blocks := extract_blocks base in
  let local_blocks := extract_blocks local in
  let remote_blocks := extract_blocks remote in
  if Nat.eqb (List.length local_blocks) (List.length remote_blocks) then
    let '(merged, conflicts) :=
      merge_blocks base_blocks 0
                   (zip3 base_blocks local_blocks remote_blocks) [] [] in
    (String.concat "" merged, conflicts)
  else
    (local,
     [MergeConflict.__init__ "entire_file" (VStr base) (VStr local)
                             (VStr remote)]).

End HelmTemplateMerger.

(* ================================================================== *)
(** * A directory tree *)

Module FS.

Inductive node : Type :=
| File (content : string)
| Dir (entries : list (string * node)).

Definition dir : Type := list (string * node).
Definition path : Type := list string.

Definition child (name : string) (d : dir) : option node :=
  assoc_get String.eqb name d.

Definition set_child (name : string) (n : node) (d : dir) : dir :=
  assoc_set String.eqb name n d.

Definition remove_child (name : string) (d : dir) : dir :=
  filter (fun e => negb (String.eqb name (fst e))) d.

Fixpoint lookup (p : path) (root : node) : option node :=
  match p with
  | [] => Some root
  | x :: p' =>
      match root with
      | Dir es =>
          match child x es with
          | Some c => lookup p' c
          | None => None
          end
      | File _ => None
      end
  end.

(** Replace or create the entry at [p]; its parent must be a directory. *)
Fixpoint put (p : path) (new : node) (root : node) : option node :=
  match p with
  | [] => Some new
  | x :: p' =>
      match root with
      | Dir es =>
          match p' with
          | [] => Some (Dir (set_child x new es))
          | _ :: _ =>
              match child x es with
              | Some c =>
                  match put p' new c with
                  | Some c' => Some (Dir (set_child x c' es))
                  | None => None
                  end
              | None => None
              end
          end
      | File _ => None
      end
  end.

(** Remove the entry at [p]. *)
Fixpoint delete (p : path) (root : node) : option node :=
  match p with
  | [] => None
  | x :: p' =>
      match root with
      | Dir es =>
          match p' with
          | [] => Some (Dir (remove_child x es))
          | _ :: _ =>
              match child x es with
              | Some c =>
                  match delete p' c with
                  | Some c' => Some (Dir (set_child x c' es))
                  | None => None
                  end
              | None => None
              end
          end
      | File _ => None
      end
  end.

Definition path_str (p : path) : string := String.concat "/" p.

End FS.

(* ================================================================== *)
(** * upgrade.py: [TemplateUpgrader.apply_merged_files] *)

Module TemplateUpgrader.
Import FS.

(** The tree is the directory that holds the element, [element_path.parent];
    paths are relative to it.  The downloaded version at
    [remote_version_path] is a temporary directory elsewhere and is only
    read.  An operation fails exactly when the tree does not allow it; faults
    of the environment (permissions, a full disk) are outside the model, and
    so are exceptions that do not derive from [Exception]. *)

Inductive outcome (A : Type) : Type :=
| Done (a : A)
| Raised (e : exn).
Arguments Done {A} a.
Arguments Raised {A} e.

Definition IO (A : Type) : Type := node -> outcome A * node.

Definition ret {A} (a : A) : IO A := fun fs => (Done a, fs).

Definition bind {A B} (m : IO A) (f : A -> IO B) : IO B :=
  fun fs =>
    match m fs with
    | (Done a, fs') => f a fs'
    | (Raised e, fs') => (Raised e, fs')
    end.

Definition raise {A} (e : exn) : IO A := fun fs => (Raised e, fs).

Definition lift {A} (o : outcome A) : IO A := fun fs => (o, fs).

(** [try: body except Exception as e: handler] *)
Definition try_except {A} (body : IO A) (handler : exn -> IO A) : IO A :=
  fun fs =>
    match body fs with
    | (Done a, fs') => (Done a, fs')
    | (Raised e, fs') => handler e fs'
    end.

Declare Scope io_scope.
Delimit Scope io_scope with io.
Notation "x <- m ;; k" := (bind m (fun x => k))
  (at level 61, m at next level, right associativity) : io_scope.
Notation "m ;;; k" := (bind m (fun _ => k))
  (at level 61, right associativity) : io_scope.
Local Open Scope io_scope.

(** ** File operations *)

Definition errno (kind : string) (p : path) : exn := OSError kind (path_str p).

(** [p.exists()] *)
Definition exists_ (p : path) : IO bool :=
  fun fs => (Done (match lookup p fs with Some _ => true | None => false end), fs).

Definition store (p : path) (n : node) : IO unit :=
  fun fs =>
    match put p n fs with
    | Some fs' => (Done tt, fs')
    | None => (Raised (errno "FileNotFoundError" p), fs)
    end.

Definition unlink (p : path) : IO unit :=
  fun fs =>
    match delete p fs with
    | Some fs' => (Done tt, fs')
    | None => (Raised (errno "FileNotFoundError" p), fs)
    end.

(** [open(p, 'w')] followed by a write of [content] *)
Definition write_text (p : path) (content : string) : IO unit :=
  fun fs =>
    match lookup p fs with
    | Some (Dir _) => (Raised (errno "IsADirectoryError" p), fs)
    | _ => store p (File content) fs
    end.

(** [open(p, 'r')] and what is then read from the file, as it is stored.
    The apply stage reads back in this way the text it has just written to
    [values.yaml], and hands the two [Chart.yaml] files to the YAML loader,
    which does the decoding.  A file that the program finds and decodes
    itself is read with [read_decoded] below. *)
Definition read_text (p : path) : IO string :=
  fun fs =>
    match lookup p fs with
    | Some (File c) => (Done c, fs)
    | Some (Dir _) => (Raised (errno "IsADirectoryError" p), fs)
    | None => (Raised (errno "FileNotFoundError" p), fs)
    end.

(** [p.mkdir(exist_ok=True)] *)
Definition mkdir_exist_ok (p : path) : IO unit :=
  fun fs =>
    match lookup p fs with
    | Some (Dir _) => (Done tt, fs)
    | Some (File _) => (Raised (errno "FileExistsError" p), fs)
    | None => store p (Dir []) fs
    end.

(** [shutil.rmtree(p)] *)
Definition rmtree (p : path) : IO unit :=
  fun fs =>
    match lookup p fs with
    | Some (Dir _) => unlink p fs
    | Some (File _) => (Raised (errno "NotADirectoryError" p), fs)
    | None => (Raised (errno "FileNotFoundError" p), fs)
    end.

(** [shutil.copytree(src, dst)], the source given by what is found there *)
Definition copytree_node (src : option node) (src_name : string) (dst : path)
  : IO unit :=
  fun fs =>
    match src with
    | Some (Dir es) =>
        match lookup dst fs with
        | Some _ => (Raised (errno "FileExistsError" dst), fs)
        | None => store dst (Dir es) fs
        end
    | Some (File _) => (Raised (OSError "NotADirectoryError" src_name), fs)
    | None => (Raised (OSError "FileNotFoundError" src_name), fs)
    end.

Definition copytree (src dst : path) : IO unit :=
  fun fs => copytree_node (lookup src fs) (path_str src) dst fs.

(** [shutil.copy2(src, dst)] of a file *)
Definition copy2_node (src : node) (src_name : string) (dst : path) : IO unit :=
  match src with
  | File c => write_text dst c
  | Dir _ => raise (OSError "IsADirectoryError" src_name)
  end.

(** [shutil.move(src, dst)]: a rename when [dst] does not exist, a move into
    [dst] when it is a directory. *)
Definition move (src dst : path) : IO unit :=
  fun fs =>
    match lookup src fs with
    | None => (Raised (errno "FileNotFoundError" src), fs)
    | Some n =>
        match lookup dst fs with
        | None => (unlink src ;;; store dst n) fs
        | Some (Dir _) =>
            let inside := dst ++ [last src ""] in
            match lookup inside fs with
            | Some _ => (Raised (errno "FileExistsError" inside), fs)
            | None => (unlink src ;;; store inside n) fs
            end
        | Some (File _) => (Raised (errno "FileExistsError" dst), fs)
        end
    end.

(** [name.endswith(".yaml")], what [glob("*.yaml")] selects *)
Definition is_yaml (name : string) : bool :=
  let n := String.length name in
  Nat.leb 5 n && String.eqb (String.substring (n - 5) 5 name) ".yaml".

(** ** Names visible from the body of [apply_merged_files] *)

Definition apply_merged_files_locals : list string :=
  ["self"; "element_path"; "merged_values"; "values_conflicts";
   "converter_merges"; "remote_version_path"; "local_additions";
   "backup_path"; "values_path"; "f"; "content"; "conflict_header";
   "conflict"; "converters_dir"; "converter_name"; "conflicts";
   "converter_path"; "remote_converters"; "remote_converter";
   "local_converter"; "remote_chart"; "local_chart"; "chart_data";
   "local_chart_data"; "remote_templates"; "local_templates";
   "remote_examples"; "local_examples"; "e"].

Definition module_globals : list string :=
  ["asyncio"; "shutil"; "tempfile"; "Path"; "Optional"; "Dict"; "Any";
   "click"; "yaml"; "Console"; "Panel"; "Progress"; "SpinnerColumn";
   "TextColumn"; "Confirm"; "YAML"; "ChangeDetector"; "TemplateSnapshot";
   "ConflictReport"; "ConflictResolver"; "ConflictMarkerGenerator";
   "YAMLMerger"; "HelmTemplateMerger"; "MergeConflict";
   "PreservingYAMLMerger"; "TemplateInstaller"; "TemplateUpgrader";
   "upgrade"].

Section Apply.

(** ** Collaborators that are not part of the two files *)

(** [str(v)] of floats and containers. *)
Variable py_repr : value -> string.
(** [str] of an object bound at module level. *)
Variable global_str : string -> string.
(** [ConflictMarkerGenerator.apply_resolution_to_values]: the values, and
    the conflicts as the call leaves them. *)
Variable apply_resolution_to_values :
  value -> list MergeConflict.t -> outcome (value * list MergeConflict.t).
(** [ConflictMarkerGenerator.write_conflicted_file]: the text it writes. *)
Variable conflicted_text : string -> list MergeConflict.t -> outcome string.
(** [self.yaml.dump], [yaml.safe_load] and [yaml.dump]. *)
Variable ruamel_dump : value -> outcome string.
Variable yaml_safe_load : string -> outcome value.
Variable yaml_dump : value -> outcome string.

Definition py_str : value -> string := PreservingYAMLMerger.py_str py_repr.

(** A name that is neither a local of the function nor bound in the
    module is looked up among the builtins, where neither [baseline] nor
    [target_version] is: [NameError]. *)
Definition load_name (name : string) : IO string :=
  if mem_str name (apply_merged_files_locals ++ module_globals)
  then ret (global_str name)
  else raise (NameError name).

(** ** Arguments *)

Variable element_name : string.
Variable merged_values : value.
Variable values_conflicts : list MergeConflict.t.
Variable converter_merges : list (string * (string * list MergeConflict.t)).
(** What is found at [remote_version_path]. *)
Variable remote : option node.

(** [f".{element_path.name}.backup"] *)
Definition backup_name : string := ("." ++ element_name ++ ".backup")%string.

Definition element_path : path := [element_name].
Definition backup_path : path := [backup_name].

Definition remote_lookup (p : path) : option node :=
  match remote with
  | Some r => lookup p r
  | None => None
  end.

(** [with open(p, 'w') as f: dump(v, f)]: the file is truncated first. *)
Definition dump_to (dump : value -> outcome string) (v : value) (p : path)
  : IO unit :=
  write_text p "" ;;;
  s <- lift (dump v) ;;
  write_text p s.

Definition header_lines (conflicts : list MergeConflict.t) : list string :=
  flat_map
    (fun conflict =>
       if MergeConflict.unresolved conflict then
         [("#   - " ++ MergeConflict.path conflict)%string;
          ("#     Local: " ++ py_str (MergeConflict.local_value conflict))%string;
          ("#     Remote: " ++ py_str (MergeConflict.remote_value conflict))%string]
       else [])
    conflicts.

(** [if any(not c.resolution for c in values_conflicts): ...] *)
Definition write_conflict_header (values_path : path)
           (conflicts : list MergeConflict.t) : IO unit :=
  if existsb MergeConflict.unresolved conflicts then
    content <- read_text values_path ;;
    baseline_version <- load_name "baseline" ;;
    target_version <- load_name "target_version" ;;
    let conflict_header :=
      ["# MERGE CONFLICTS FOUND";
       ("# Upgrade from " ++ baseline_version ++ " to " ++ target_version)%string;
       "# The following paths had conflicts:"]
      ++ header_lines conflicts
      ++ ["# Please review and resolve manually"; ""] in
    write_text values_path
      (String.concat HelmTemplateMerger.nl conflict_header ++ content)%string
  else ret tt.

(** [for converter_name, (content, conflicts) in converter_merges.items()] *)
Fixpoint write_converters (converters_dir : path)
         (merges : list (string * (string * list MergeConflict.t)))
  : IO unit :=
  match merges with
  | [] => ret tt
  | (converter_name, (content, conflicts)) :: rest =>
      let converter_path := converters_dir ++ [converter_name] in
      (match conflicts with
       | _ :: _ =>
           text <- lift (conflicted_text content conflicts) ;;
           write_text converter_path text
       | [] => write_text converter_path content
       end) ;;;
      write_converters converters_dir rest
  end.

(** [for remote_converter in remote_converters.glob("*.yaml")] *)
Fixpoint copy_new_converters (converters_dir : path)
         (remote_entries : list (string * node)) : IO unit :=
  match remote_entries with
  | [] => ret tt
  | (name, n) :: rest =>
      (if is_yaml name then
         let local_converter := converters_dir ++ [name] in
         present <- exists_ local_converter ;;
         if present : bool then ret tt
         else copy2_node n ("converters/" ++ name) local_converter
       else ret tt) ;;;
      copy_new_converters converters_dir rest
  end.

Definition update_chart : IO unit :=
  let local_chart := element_path ++ ["Chart.yaml"] in
  match remote_lookup ["Chart.yaml"] with
  | None => ret tt
  | Some remote_chart =>
      text <-
        (match remote_chart with
         | File c => ret c
         | Dir _ => raise (OSError "IsADirectoryError" "Chart.yaml")
         end) ;;
      chart_data <- lift (yaml_safe_load text) ;;
      local_text <- read_text local_chart ;;
      local_chart_data <- lift (yaml_safe_load local_text) ;;
      name <-
        (match local_chart_data with
         | VDict d =>
             ret (match dict_get "name" d with
                  | Some v => v
                  | None => VStr element_name
                  end)
         | _ => raise AttributeError
         end) ;;
      chart_data <-
        (match chart_data with
         | VDict d => ret (VDict (dict_set "name" name d))
         | _ => raise TypeError
         end) ;;
      dump_to yaml_dump chart_data local_chart
  end.

(** [templates/] and [examples/]: replaced by the remote subtree. *)
Definition replace_subtree (name : string) : IO unit :=
  let local_dir := element_path ++ [name] in
  match remote_lookup [name] with
  | None => ret tt
  | Some remote_dir =>
      present <- exists_ local_dir ;;
      (if present : bool then rmtree local_dir else ret tt) ;;;
      copytree_node (Some remote_dir) name local_dir
  end.

(** The body of the [try] statement. *)
Definition try_body : IO unit :=
  mc <-
    (match values_conflicts with
     | _ :: _ =>
         lift (apply_resolution_to_values merged_values values_conflicts)
     | [] => ret (merged_values, values_conflicts)
     end) ;;
  let values_path := element_path ++ ["values.yaml"] in
  dump_to ruamel_dump (fst mc) values_path ;;;
  write_conflict_header values_path (snd mc) ;;;
  let converters_dir := element_path ++ ["converters"] in
  mkdir_exist_ok converters_dir ;;;
  write_converters converters_dir converter_merges ;;;
  (match remote_lookup ["converters"] with
   | Some (Dir entries) => copy_new_converters converters_dir entries
   | _ => ret tt
   end) ;;;
  update_chart ;;;
  replace_subtree "templates" ;;;
  replace_subtree "examples" ;;;
  rmtree backup_path.

(** The [except Exception as e] clause. *)
Definition restore_backup (e : exn) : IO unit :=
  rmtree element_path ;;;
  move backup_path element_path ;;;
  raise e.

Definition make_backup : IO unit :=
  present <- exists_ backup_path ;;
  (if present : bool then rmtree backup_path else ret tt) ;;;
  copytree element_path backup_path.

Definition apply_merged_files : IO unit :=
  make_backup ;;;
  try_except try_body restore_backup.

End Apply.

(** ** The wrappers around the mergers *)

Section Templates.

(** The text layer of Python on the bytes of a file, as [Path.read_text()]
    applies it: the bytes decoded in the encoding of the locale, with
    universal newlines, or the [UnicodeDecodeError] that is raised where
    they do not decode. *)
Variable decode : string -> outcome string.

(** [p.read_text()] *)
Definition read_decoded (p : path) : IO string :=
  bytes <- read_text p ;;
  lift (decode bytes).

(** [p.read_text() if p.exists() else ""] *)
Definition read_text_if_exists (p : path) : IO string :=
  present <- exists_ p ;;
  if present : bool then read_decoded p else ret "".

(** [merge_helm_template]: the three files are read in the order base,
    local, remote; a file that is missing reads as the empty text. *)
Definition merge_helm_template (base_path local_path remote_path : path)
  : IO (string * list MergeConflict.t) :=
  base_content <- read_text_if_exists base_path ;;
  local_content <- read_text_if_exists local_path ;;
  remote_content <- read_text_if_exists remote_path ;;
  ret (HelmTemplateMerger.merge_template base_content local_content
                                         remote_content).

End Templates.

Section Values.

(** [str(v)] of floats and containers, and [YAML().load] of ruamel on an
    open file: the loader reads the stream, so what it returns or raises
    is given by the bytes of the file, decoding included. *)
Variable py_repr : value -> string.
Variable ruamel_load : string -> outcome value.

(** [PreservingYAMLMerger.load_yaml_preserving]: no file, or a document
    that is falsy, is an empty [CommentedMap]. *)
Definition load_yaml_preserving (p : path) : IO value :=
  present <- exists_ p ;;
  if present : bool then
    text <- read_text p ;;
    v <- lift (ruamel_load text) ;;
    ret (py_or v (VDict []))
  else ret (VDict []).

(** An exception of the merger propagates.  [merge] never runs out of
    fuel ([FuelFacts.merge_returns_or_raises]); the case is mapped to the
    error Python raises when its own recursion limit is hit. *)
Definition of_result {A} (r : result A) : outcome A :=
  match r with
  | Ok a => Done a
  | Raise e => Raised e
  | OutOfFuel => Raised (ExternalError "RecursionError")
  end.

(** [merge_values_files]: documents loaded by ruamel are [CommentedMap]s. *)
Definition merge_values_files (base_path local_path remote_path : path)
  : IO (value * list MergeConflict.t) :=
  base_values <- load_yaml_preserving base_path ;;
  local_values <- load_yaml_preserving local_path ;;
  remote_values <- load_yaml_preserving remote_path ;;
  lift (of_result
          (PreservingYAMLMerger.merge py_repr true base_values local_values
                                      remote_values)).

End Values.
End TemplateUpgrader.

(* ================================================================== *)
(** * The properties, as the specification words them *)

Module Stated.

(** A node the scalar rules apply to: the two sides are not both mappings
    and not both sequences. *)
Definition scalar_node (local remote : value) : bool :=
  negb (is_dict local && is_dict remote) &&
  negb (is_list local && is_list remote).

(** Section 4.1, scalar and type-mismatched nodes. *)
Definition three_way (B L R : value) (path : string)
           (conflicts : list MergeConflict.t)
  : result (value * list MergeConflict.t) :=
  if py_eq L R then Ok (L, conflicts)
  else if py_eq B L && negb (py_eq B R) then Ok (R, conflicts)
  else if py_eq B R && negb (py_eq B L) then Ok (L, conflicts)
  else Ok (L, conflicts ++ [MergeConflict.mk path B L R None false]).

(** Scenario S3. *)
Definition retries (n : Z) : value := VDict [("retries", VInt n)].

Definition retries_conflict : MergeConflict.t :=
  MergeConflict.mk "retries" (VInt 3) (VInt 5) (VInt 10) None false.

(** Section 4.4, the auto-resolution rule at construction. *)
Definition auto_resolution (path : string) (base local remote : value) : Prop :=
  let c := MergeConflict.__init__ path base local remote in
  (py_eq base remote = true /\ py_eq local remote = false ->
   MergeConflict.resolution c = Some "keep_local" /\
   MergeConflict.auto_resolvable c = true) /\
  (py_eq base local = true /\ py_eq remote local = false ->
   MergeConflict.resolution c = Some "take_remote" /\
   MergeConflict.auto_resolvable c = true) /\
  (~ (py_eq base remote = true /\ py_eq local remote = false) ->
   ~ (py_eq base local = true /\ py_eq remote local = false) ->
   MergeConflict.auto_resolvable c = false) /\
  (MergeConflict.auto_resolvable c = true ->
   MergeConflict.resolution c <> None).

(** Section 8, property 2: merging with a local tree equal to the base
    gives a tree equal to the remote one and no conflict. *)
Definition noop_local
           (merge : value -> value -> value ->
                    result (value * list MergeConflict.t))
           (B R : value) : Prop :=
  exists M, merge B B R = Ok (M, []) /\ py_eq M R = true.

(** [R] keeps every key of [B]: at each pair of unequal mappings, reached
    key by key, every key of the first is a key of the second; and a pair
    of unequal sequences so reached is positional (neither is a named
    list). *)
Fixpoint remote_keeps (B R : value) : bool :=
  py_eq B R ||
  match B with
  | VDict b =>
      match R with
      | VDict r =>
          (fix entries (b : dict) : bool :=
             match b with
             | [] => true
             | (k, v) :: b' =>
                 match dict_get k r with
                 | Some rv => remote_keeps v rv
                 | None => false
                 end && entries b'
             end) b
      | _ => true
      end
  | VList b =>
      match R with
      | VList r =>
          negb (PreservingYAMLMerger._is_named_list b
                || PreservingYAMLMerger._is_named_list r)
      | _ => true
      end
  | _ => true
  end.

(** Scenario S5. *)
Definition flag : value := VDict [("flag", VBool true)].

(** Section 3: the local keys in local order, then the keys that only the
    remote side has, in remote order. *)
Definition merged_order (local remote : list string) : list string :=
  local ++ filter (fun k => negb (mem_str k local)) remote.

(** The item that a sequence holds under a name: the one that the
    dictionary [{item.get('name'): item for item in items if ...}] of
    [_merge_named_lists] holds under it, which is the last mapping of that
    name. *)
Fixpoint item_named (n : string) (xs : list value) : option value :=
  match xs with
  | [] => None
  | x :: xs' =>
      match item_named n xs' with
      | Some y => Some y
      | None =>
          if is_dict x && py_eq (VStr n) (Dyn.item_name x)
          then Some x else None
      end
  end.














(** A local item that has no usable name: not a mapping, or a mapping whose
    [name] is null (or missing) or the empty string. *)
Definition nameless (item : value) : bool :=
  negb (is_dict item) ||
  match Dyn.item_name item with
  | VNone => true
  | VStr s => String.eqb s ""
  | _ => false
  end.

(** Section 5: a backup directory found at start makes the core refuse to
    proceed, and the leftover is neither deleted nor overwritten. *)
Definition refuses_on_leftover_backup
           (run : TemplateUpgrader.IO unit) (backup : FS.path) (fs : FS.node)
  : Prop :=
  forall old,
    FS.lookup backup fs = Some old ->
    (exists e, fst (run fs) = TemplateUpgrader.Raised e) /\
    FS.lookup backup (snd (run fs)) = Some old.

End Stated.

(** An element [logging] with a leftover backup beside it, a downloaded
    version, and collaborators that change nothing. *)
Module Sample.
Import FS TemplateUpgrader.

Definition element : node :=
  Dir [("values.yaml", File "retries: 5");
       ("Chart.yaml", File "name: logging")].

Definition leftover : node := Dir [("values.yaml", File "retries: 4")].

Definition tree : node := Dir [("logging", element)].

Definition tree_with_leftover : node :=
  Dir [("logging", element); (".logging.backup", leftover)].

Definition remote : option node :=
  Some (Dir [("values.yaml", File "retries: 10");
             ("Chart.yaml", File "name: upstream")]).

Definition py_repr (v : value) : string := "".
Definition global_str (name : string) : string := name.
Definition apply_resolution_to_values (v : value) (cs : list MergeConflict.t)
  : outcome (value * list MergeConflict.t) := Done (v, cs).
Definition conflicted_text (content : string) (cs : list MergeConflict.t)
  : outcome string := Done content.
Definition ruamel_dump (v : value) : outcome string := Done "retries: 5".
Definition yaml_safe_load (text : string) : outcome value :=
  Done (VDict [("name", VStr text)]).
Definition yaml_dump (v : value) : outcome string := Done "name: logging".

(** The apply stage on the sample, for given conflicts and start tree. *)
Definition apply (values_conflicts : list MergeConflict.t) : IO unit :=
  apply_merged_files py_repr global_str apply_resolution_to_values
    conflicted_text ruamel_dump yaml_safe_load yaml_dump
    "logging" (Stated.retries 5) values_conflicts [] remote.

End Sample.


(* ================================================================== *)
(** * Invariants and loop summaries used in the proofs *)

Module ApplyInv.
Import FS TemplateUpgrader.

(** While the [try] body runs, the backup that was taken is in place and
    the element is a directory. *)
Definition inv (element_name : string) (saved : node) (fs : node) : Prop :=
  lookup (backup_path element_name) fs = Some saved /\
  exists el, lookup (element_path element_name) fs = Some (Dir el).

Definition keeps (element_name : string) (saved : node) {A} (m : IO A)
  : Prop :=
  forall fs, inv element_name saved fs -> inv element_name saved (snd (m fs)).

(** What the [try] body leaves: on an exception the backup is still in
    place and the element is a directory; on success the backup is gone. *)
Definition body_post (element_name : string) (saved : node) (m : IO unit)
  : Prop :=
  forall fs,
    inv element_name saved fs ->
    match m fs with
    | (Raised _, fs') => inv element_name saved fs'
    | (Done _, fs') => lookup (backup_path element_name) fs' = None
    end.

End ApplyInv.

Module Loops.
Import MergeM.

Definition add_key (acc : list string) (key : string) : list string :=
  if mem_str key acc then acc else acc ++ [key].

(** How a key gets its value in the loop of [_merge_dicts]. *)
Definition assigned (rec : value -> value -> value -> string -> M value)
           (local remote : dict) (path : string) (key : string) (v : value)
  : Prop :=
  match dict_get key local, dict_get key remote with
  | Some lv, Some rv =>
      exists b cs0 cs1,
        rec b lv rv (PreservingYAMLMerger.key_path path key) cs0 = Ok (v, cs1)
  | Some lv, None => v = lv
  | None, Some rv => v = rv
  | None, None => False
  end.

(** What the loop finds at a key, when the local mapping is the base, no
    key of it is missing on the remote side, and the recursive calls do as
    wanted. *)
Definition good_key (rec : value -> value -> value -> string -> M value)
           (b r : dict) (k : string) : Prop :=
  exists rv,
    dict_get k r = Some rv /\
    match dict_get k b with
    | Some v =>
        forall path cs,
        exists mv, rec v v rv path cs = Ok (mv, cs) /\ py_eq mv rv = true
    | None => py_eq rv rv = true
    end.

(** The dictionary comprehension of [_merge_named_lists] without its
    exception. *)
Fixpoint by_name_pure (items : list value) (acc : Dyn.names) : Dyn.names :=
  match items with
  | [] => acc
  | item :: rest =>
      if is_dict item
      then by_name_pure rest (Dyn.names_set (Dyn.item_name item) item acc)
      else by_name_pure rest acc
  end.

Definition names_hashable (items : list value) : bool :=
  forallb (fun item => negb (is_dict item) || Dyn.hashable (Dyn.item_name item))
          items.

End Loops.

(* ================================================================== *)
(** * Characters beyond ASCII, in UTF-8 *)

Module Utf8.

Definition utf8_2 (a b : nat) : string :=
  String (ascii_of_nat a) (String (ascii_of_nat b) "").

Definition utf8_3 (a b c : nat) : string :=
  String (ascii_of_nat a) (String (ascii_of_nat b) (String (ascii_of_nat c) "")).

(** U+00A0, the no-break space. *)
Definition nbsp : string := utf8_2 194 160.

(** [str.isspace()] of one character, by code point. *)
Definition isspace (cp : N) : bool :=
  ((9 <=? cp) && (cp <=? 13) || (28 <=? cp) && (cp <=? 32)
   || (cp =? 133) || (cp =? 160) || (cp =? 5760)
   || (8192 <=? cp) && (cp <=? 8202)
   || (cp =? 8232) || (cp =? 8233) || (cp =? 8239)
   || (cp =? 8287) || (cp =? 12288))%N.

(** The UTF-8 form of a code point below U+110000. *)
Definition encode (cp : N) : string :=
  (if cp <? 128 then String (ascii_of_N cp) ""
   else if cp <? 2048 then
     String (ascii_of_N (192 + cp / 64))
       (String (ascii_of_N (128 + cp mod 64)) "")
   else if cp <? 65536 then
     String (ascii_of_N (224 + cp / 4096))
       (String (ascii_of_N (128 + (cp / 64) mod 64))
          (String (ascii_of_N (128 + cp mod 64)) ""))
   else
     String (ascii_of_N (240 + cp / 262144))
       (String (ascii_of_N (128 + (cp / 4096) mod 64))
          (String (ascii_of_N (128 + (cp / 64) mod 64))
             (String (ascii_of_N (128 + cp mod 64)) ""))))%N.

Fixpoint encode_text (cps : list N) : string :=
  match cps with
  | [] => ""
  | cp :: rest => (encode cp ++ encode_text rest)%string
  end.

(** The bytes are one white-space character as [strip_nonempty] passes
    over it. *)
Definition passes (s : string) : bool :=
  match s with
  | String c EmptyString => HelmTemplateMerger.is_space c
  | String c (String d EmptyString) =>
      negb (HelmTemplateMerger.is_space c) && HelmTemplateMerger.is_space2 c d
  | String c (String d (String e EmptyString)) =>
      negb (HelmTemplateMerger.is_space c)
      && negb (HelmTemplateMerger.is_space2 c d)
      && HelmTemplateMerger.is_space3 c d e
  | _ => false
  end.

(** The bytes begin with a character at which [strip_nonempty] stops,
    whatever follows them. *)
Definition stops (s : string) : bool :=
  match s with
  | EmptyString => false
  | String c s1 =>
      let n := nat_of_ascii c in
      negb (HelmTemplateMerger.is_space c) &&
      if Nat.eqb n 194 then
        match s1 with
        | String d _ => negb (HelmTemplateMerger.is_space2 c d)
        | EmptyString => false
        end
      else if Nat.leb 225 n && Nat.leb n 227 then
        match s1 with
        | String d (String e _) => negb (HelmTemplateMerger.is_space3 c d e)
        | _ => false
        end
      else true
  end.

(** The encoding of a code point is passed over when the code point is
    white space, and stops the scan when it is not. *)
Definition agrees (cp : N) : bool :=
  if isspace cp then passes (encode cp) else stops (encode cp).

Fixpoint all_from (fuel : nat) (cp : N) (f : N -> bool) : bool :=
  match fuel with
  | O => true
  | S fuel => f cp && all_from fuel (N.succ cp) f
  end.

End Utf8.

(* ================================================================== *)
(** * Paths that a step of the apply stage leaves alone *)

Module Frame.
Import FS TemplateUpgrader.

(** The two paths part ways at some component. *)
Fixpoint apart (p q : path) : bool :=
  match p, q with
  | x :: p', y :: q' => if String.eqb x y then apart p' q' else true
  | _, _ => false
  end.

(** The step leaves what is found at [q] as it is. *)
Definition leaves (q : path) {A} (m : IO A) : Prop :=
  forall fs, lookup q (snd (m fs)) = lookup q fs.

(** The step keeps a property of the tree. *)
Definition preserves (P : node -> Prop) {A} (m : IO A) : Prop :=
  forall fs, P fs -> P (snd (m fs)).

End Frame.

(** An element [logging] with converters and templates of its own beside
    another element, and a downloaded version that brings a new converter. *)
Module Upgrade.
Import FS TemplateUpgrader.

Definition element : node :=
  Dir [("values.yaml", File "retries: 5");
       ("Chart.yaml", File "logging");
       ("converters",
        Dir [("audit.yaml", File "level: {{ .level }}");
             ("mine.yaml", File "custom: true")]);
       ("templates", Dir [("policy.yaml", File "edited")])].

Definition tree : node :=
  Dir [("logging", element);
       ("monitoring", Dir [("values.yaml", File "scrape: 30")])].

Definition remote : option node :=
  Some (Dir [("values.yaml", File "retries: 10");
             ("Chart.yaml", File "upstream");
             ("converters",
              Dir [("audit.yaml", File "lvl: {{ .level }}");
                   ("mine.yaml", File "upstream: true");
                   ("extra.yaml", File "new: true");
                   ("notes.txt", File "not a converter")]);
             ("templates", Dir [("policy.yaml", File "upstream")])]).

Definition converter_merges
  : list (string * (string * list MergeConflict.t)) :=
  [("audit.yaml", ("lvl: {{ .level }}", []))].

(** A loader that reads the text as the chart name, and a dumper that
    prints the name. *)
Definition yaml_safe_load (text : string) : outcome value :=
  Done (VDict [("name", VStr text); ("version", VStr "2.0.0")]).

Definition yaml_dump (v : value) : outcome string :=
  match v with
  | VDict d =>
      match dict_get "name" d with
      | Some (VStr s) => Done ("name: " ++ s)%string
      | _ => Raised (ExternalError "yaml.dump")
      end
  | _ => Raised (ExternalError "yaml.dump")
  end.

(** Universal newlines: [\r\n] and a lone [\r] are read as [\n]. *)
Fixpoint universal_newlines (s : string) : string :=
  match s with
  | EmptyString => EmptyString
  | String c s1 =>
      if Nat.eqb (nat_of_ascii c) 13 then
        String (ascii_of_nat 10)
               match s1 with
               | EmptyString => EmptyString
               | String d s2 =>
                   if Nat.eqb (nat_of_ascii d) 10
                   then universal_newlines s2
                   else universal_newlines s1
               end
      else String c (universal_newlines s1)
  end.

Fixpoint seven_bit (s : string) : bool :=
  match s with
  | EmptyString => true
  | String c s1 => Nat.ltb (nat_of_ascii c) 128 && seven_bit s1
  end.

(** The text layer under the C locale: bytes above 127 do not decode. *)
Definition decode (bytes : string) : outcome string :=
  if seven_bit bytes then Done (universal_newlines bytes)
  else Raised UnicodeDecodeError.

(** A converter at the local and at the remote path, none at the base
    path. *)
Definition converters_tree : node :=
  Dir [("base", Dir [("converters", Dir [])]);
       ("stack",
        Dir [("converters", Dir [("logging.yaml", File "level: {{ .l }}")])]);
       ("remote",
        Dir [("converters", Dir [("logging.yaml", File "lvl: {{ .l }}")])])].

Definition apply : IO unit :=
  apply_merged_files Sample.py_repr Sample.global_str
    Sample.apply_resolution_to_values Sample.conflicted_text
    Sample.ruamel_dump yaml_safe_load yaml_dump
    "logging" (Stated.retries 5) [] converter_merges remote.

End Upgrade.

(* ================================================================== *)
(** * The merged list of named items, as it comes out *)

Module NamedOrder.

(** A local item that the loop of [_merge_named_lists] puts in the merged
    list: a mapping whose [name] is truthy. *)
Definition kept (item : value) : bool :=
  is_dict item && truthy (Dyn.item_name item).

(** The entry that a kept local item gives: the item itself when no remote
    item has its name, and else what the recursive call returns for the
    item and its remote namesake. *)
Definition entry_of (py_repr : value -> string)
           (rec : value -> value -> value -> string -> MergeM.M value)
           (remote_by_name : Dyn.names) (path : string)
           (item merged_item : value) : Prop :=
  match Dyn.names_get (Dyn.item_name item) remote_by_name with
  | None => merged_item = item
  | Some remote_item =>
      exists base_item cs cs',
        rec base_item item remote_item
            (path ++ "[name="
                  ++ PreservingYAMLMerger.py_str py_repr (Dyn.item_name item)
                  ++ "]")%string cs
        = Ok (merged_item, cs')
  end.

(** The remote items that are appended: those under a name that no kept
    local item has, in the order of the dictionary of remote names. *)
Definition additions (local : list value) (remote_by_name : Dyn.names)
  : list value :=
  map snd
      (filter
         (fun ni =>
            negb (existsb
                    (fun item => kept item && py_eq (fst ni) (Dyn.item_name item))
                    local))
         remote_by_name).




End NamedOrder.

(* ================================================================== *)
(** * Merging when the local document is the base: what the remote keeps *)

Module LocalIsBase.

(** The name of an item that is a mapping whose [name] is a string. *)
Definition str_name (item : value) : option string :=
  match item with
  | VDict d =>
      match dict_get "name" d with
      | Some (VStr s) => Some s
      | _ => None
      end
  | _ => None
  end.

Fixpoint str_names (items : list value) : option (list string) :=
  match items with
  | [] => Some []
  | item :: rest =>
      match str_name item, str_names rest with
      | Some s, Some l => Some (s :: l)
      | _, _ => None
      end
  end.

(** Every item is a mapping whose [name] is a string, and no two items
    have the same name. *)
Definition distinct_names (items : list value) : bool :=
  match str_names items with
  | Some l => nodup_str l
  | None => false
  end.

(** The remote sequence [r] begins with one item for each item of [b] that
    is a mapping with a truthy [name], in the same order and under the same
    name, and the two items of a pair are related by [keep]. *)
Fixpoint aligned (keep : value -> value -> bool) (b r : list value) : bool :=
  match b with
  | [] => true
  | x :: b' =>
      if is_dict x && truthy (Dyn.item_name x) then
        match r with
        | y :: r' =>
            py_eq (Dyn.item_name x) (Dyn.item_name y) && keep x y
            && aligned keep b' r'
        | [] => false
        end
      else aligned keep b' r
  end.

(** [R] retains what [B] has, as far as a merge of [B], [B] and [R]
    descends.  Equal values are related.  Two unequal mappings are related
    when every key of the first is a key of the second, with related
    values.  Two unequal sequences of which neither is a named list are
    related.  Two unequal sequences of which one is a named list are
    related when no mapping in the first has an unhashable [name], the
    items of the second are mappings under pairwise distinct string names,
    and the second begins with one item for each item of the first that is
    a mapping with a truthy [name], in the same order and under the same
    name, the two being related; what follows in the second sequence has
    been added.  All other pairs are related. *)
Fixpoint remote_retains (B R : value) : bool :=
  py_eq B R ||
  match B with
  | VDict b =>
      match R with
      | VDict r =>
          (fix entries (b : dict) : bool :=
             match b with
             | [] => true
             | (k, v) :: b' =>
                 match dict_get k r with
                 | Some rv => remote_retains v rv
                 | None => false
                 end && entries b'
             end) b
      | _ => true
      end
  | VList b =>
      match R with
      | VList r =>
          if PreservingYAMLMerger._is_named_list b
             || PreservingYAMLMerger._is_named_list r
          then
            Loops.names_hashable b && distinct_names r &&
            (fix aligned (b r : list value) {struct b} : bool :=
               match b with
               | [] => true
               | x :: b' =>
                   if is_dict x && truthy (Dyn.item_name x) then
                     match r with
                     | y :: r' =>
                         py_eq (Dyn.item_name x) (Dyn.item_name y)
                         && remote_retains x y && aligned b' r'
                     | [] => false
                     end
                   else aligned b' r
               end) b r
          else true
      | _ => true
      end
  | _ => true
  end.

(** A remote document that renames nothing and adds a policy and a key. *)
Definition base_doc : value :=
  VDict [("replicas", VInt 1);
         ("policies",
          VList [VDict [("name", VStr "a"); ("level", VStr "low")];
                 VDict [("name", VStr "b"); ("level", VStr "low")]]);
         ("tags", VList [VStr "x"])].

Definition remote_doc : value :=
  VDict [("tags", VList [VStr "y"]);
         ("policies",
          VList [VDict [("level", VStr "high"); ("name", VStr "a")];
                 VDict [("name", VStr "b"); ("level", VStr "low");
                        ("mode", VStr "audit")];
                 VDict [("name", VStr "c")]]);
         ("replicas", VInt 3);
         ("owner", VStr "ops")].

End LocalIsBase.

(* ================================================================== *)
(** * Facts about Python values *)

Unset Implicit Arguments.

Lemma py_eq_list xs ys : py_eq (VList xs) (VList ys) = items_eq xs ys.
Proof.
  reflexivity.
Qed.

Lemma py_eq_dict d d' :
  py_eq (VDict d) (VDict d') =
  Nat.eqb (List.length d) (List.length d') && entries_eq d' d.
Proof.
  cbn [py_eq]. f_equal.
  induction d as [|[k v] d IH]; [reflexivity|].
  cbn [entries_eq]. now rewrite <- IH.
Qed.

Lemma mem_str_In k l : mem_str k l = true <-> In k l.
Proof.
  induction l as [|k' l IH]; simpl; [split; [discriminate|tauto]|].
  destruct (String.eqb_spec k k') as [->|Hne].
  - tauto.
  - rewrite IH. split; [tauto|]. intros [E|H]; [congruence|exact H].
Qed.

Lemma mem_str_app k l1 l2 : mem_str k (l1 ++ l2) = mem_str k l1 || mem_str k l2.
Proof.
  induction l1 as [|x l1 IH]; simpl; [reflexivity|].
  destruct (String.eqb k x); [reflexivity|exact IH].
Qed.

Lemma nodup_str_NoDup l : nodup_str l = true <-> NoDup l.
Proof.
  induction l as [|k l IH]; simpl.
  - split; [constructor|reflexivity].
  - rewrite andb_true_iff, negb_true_iff, IH. split.
    + intros [Hm Hn]. constructor; [|exact Hn].
      intro Hin. apply mem_str_In in Hin. congruence.
    + intro Hnd. inversion Hnd as [|? ? Hnin Hnd']; subst. split; [|exact Hnd'].
      destruct (mem_str k l) eqn:E; [|reflexivity].
      apply mem_str_In in E. contradiction.
Qed.

Lemma dict_get_In k d v : dict_get k d = Some v -> In (k, v) d.
Proof.
  unfold dict_get. induction d as [|[k' v'] d IH]; simpl; [discriminate|].
  destruct (String.eqb_spec k k') as [->|Hne].
  - intros [= ->]. now left.
  - intro H. right. auto.
Qed.

Lemma dict_get_keys k d : dict_get k d <> None <-> In k (keys d).
Proof.
  unfold dict_get, keys. induction d as [|[k' v'] d IH]; simpl.
  - split; [congruence|tauto].
  - destruct (String.eqb_spec k k') as [->|Hne].
    + split; [now left|congruence].
    + rewrite IH. split; [tauto|]. intros [E|H]; [congruence|exact H].
Qed.

Lemma dict_mem_keys k d : dict_mem k d = mem_str k (keys d).
Proof.
  unfold dict_mem, assoc_mem, keys. induction d as [|[k' v'] d IH]; simpl.
  - reflexivity.
  - destruct (String.eqb k k'); [reflexivity|exact IH].
Qed.

Lemma dict_get_None k d : dict_get k d = None <-> mem_str k (keys d) = false.
Proof.
  rewrite <- dict_mem_keys. unfold dict_mem, assoc_mem, dict_get.
  destruct (assoc_get String.eqb k d); split; congruence.
Qed.

Lemma In_dict_get k v d :
  NoDup (keys d) -> In (k, v) d -> dict_get k d = Some v.
Proof.
  unfold dict_get, keys. induction d as [|[k' v'] d IH]; simpl; [tauto|].
  intros Hnd [E|Hin].
  - inversion E; subst. now rewrite String.eqb_refl.
  - inversion Hnd as [|? ? Hnin Hnd']; subst.
    destruct (String.eqb_spec k k') as [->|Hne].
    + exfalso. apply Hnin. apply in_map_iff. now exists (k', v).
    + auto.
Qed.

Lemma entries_eq_spec d' d :
  entries_eq d' d = true <->
  (forall k v, In (k, v) d ->
               exists v', dict_get k d' = Some v' /\ py_eq v v' = true).
Proof.
  induction d as [|[k v] d IH]; cbn [entries_eq].
  - split; [intros _ ? ? []|reflexivity].
  - rewrite andb_true_iff, IH. split.
    + intros [H1 H2] k0 v0 [E|Hin]; [|now apply H2].
      inversion E; subst.
      destruct (dict_get k0 d') as [v'|]; [|discriminate]. now exists v'.
    + intro H. split.
      * destruct (H k v (or_introl eq_refl)) as [v' [-> E]]. exact E.
      * intros k0 v0 Hin. apply H. now right.
Qed.

(** Equal mappings have the same keys. *)
Lemma py_eq_dict_keys d d' k :
  NoDup (keys d) ->
  py_eq (VDict d) (VDict d') = true ->
  (In k (keys d) <-> In k (keys d')).
Proof.
  intros Hnd. rewrite py_eq_dict, andb_true_iff, Nat.eqb_eq, entries_eq_spec.
  intros [Hlen Hent].
  assert (Hincl : incl (keys d) (keys d')).
  { intros k0 Hin. unfold keys in Hin. apply in_map_iff in Hin.
    destruct Hin as [[k1 v1] [E Hin]]; simpl in E; subst.
    destruct (Hent _ _ Hin) as [v' [Hg _]].
    apply dict_get_keys. congruence. }
  split; [apply Hincl|].
  apply (NoDup_length_incl Hnd); [|exact Hincl].
  unfold keys. rewrite !length_map. lia.
Qed.

(** ** [==] on numbers *)

Lemma num_eqb_sym a b : num_eqb a b = true -> num_eqb b a = true.
Proof.
  destruct a, b; simpl; try discriminate.
  - destruct negative, negative0; simpl; congruence.
  - apply Qeq_bool_sym.
Qed.

Lemma num_eqb_trans a b c :
  num_eqb a b = true -> num_eqb b c = true -> num_eqb a c = true.
Proof.
  destruct a, b, c; simpl; try discriminate.
  - destruct negative, negative0, negative1; simpl; congruence.
  - apply Qeq_bool_trans.
Qed.

Lemma num_eq_sym a b : num_eq a b = true -> num_eq b a = true.
Proof.
  unfold num_eq. destruct (num_of a), (num_of b); try discriminate.
  apply num_eqb_sym.
Qed.

Lemma num_eq_trans a b c :
  num_eq a b = true -> num_eq b c = true -> num_eq a c = true.
Proof.
  unfold num_eq. destruct (num_of a), (num_of b), (num_of c); try discriminate.
  apply num_eqb_trans.
Qed.

Lemma num_eq_py_eq a b : num_eq a b = true -> py_eq a b = true.
Proof.
  unfold num_eq. destruct a; simpl; try discriminate; auto.
Qed.

(** What [a == b] says about the two sides. *)
Lemma py_eq_true_inv a b :
  py_eq a b = true ->
  (a = VNone /\ b = VNone) \/ num_eq a b = true \/
  (exists s, a = VStr s /\ b = VStr s) \/
  (is_list a = true /\ is_list b = true) \/
  (is_dict a = true /\ is_dict b = true).
Proof.
  destruct a; cbn [py_eq]; intro H.
  - destruct b; try discriminate. now left.
  - right; now left.
  - right; now left.
  - right; now left.
  - destruct b; try discriminate. apply String.eqb_eq in H; subst.
    right; right; left. now exists s0.
  - destruct b; try discriminate. right; right; right; left. now split.
  - destruct b; try discriminate. right; right; right; right. now split.
Qed.

Lemma num_eq_not_container a b :
  num_eq a b = true ->
  is_list a = false /\ is_dict a = false /\ is_list b = false /\ is_dict b = false.
Proof.
  unfold num_eq. destruct a, b; simpl; try discriminate; auto.
Qed.

(** On a scalar node, two sides equal to the base are equal to each other. *)
Lemma py_eq_base_both B L R :
  Stated.scalar_node L R = true ->
  py_eq B L = true -> py_eq B R = true -> py_eq L R = true.
Proof.
  intros Hs HL HR.
  assert (Hnum : num_eq B L = true -> num_eq B R = true -> py_eq L R = true).
  { intros H1 H2. apply num_eq_py_eq.
    eapply num_eq_trans; [apply num_eq_sym; exact H1|exact H2]. }
  destruct B; cbn [py_eq] in HL, HR; auto.
  - destruct L; try discriminate; destruct R; try discriminate; reflexivity.
  - destruct L; try discriminate; destruct R; try discriminate.
    apply String.eqb_eq in HL, HR; subst. simpl. apply String.eqb_refl.
  - destruct L; try discriminate; destruct R; try discriminate.
  - destruct L; try discriminate; destruct R; try discriminate.
Qed.

(** ** Heights *)

Lemma height_entry d k v :
  In (k, v) d -> height v < height (VDict d).
Proof.
  cbn [height]. intro Hin. apply Nat.lt_succ_r.
  induction d as [|[k0 v0] d IH]; [destruct Hin|].
  destruct Hin as [E|Hin].
  - inversion E; subst. apply Nat.le_max_l.
  - etransitivity; [apply IH, Hin|apply Nat.le_max_r].
Qed.

Lemma height_get d k v :
  dict_get k d = Some v -> height v < height (VDict d).
Proof. intro H. apply (height_entry d k). now apply dict_get_In. Qed.

Lemma height_item xs x : In x xs -> height x < height (VList xs).
Proof.
  cbn [height]. intro Hin. apply Nat.lt_succ_r.
  induction xs as [|y xs IH]; [destruct Hin|].
  destruct Hin as [->|Hin]; simpl.
  - apply Nat.le_max_l.
  - etransitivity; [apply IH, Hin|apply Nat.le_max_r].
Qed.

(** ** [==] is symmetric on well-formed values, and transitive *)

Lemma wf_list_item xs x : wf (VList xs) = true -> In x xs -> wf x = true.
Proof.
  cbn [wf]. rewrite forallb_forall. auto.
Qed.

Lemma wf_dict_entry d k v :
  wf (VDict d) = true -> In (k, v) d -> wf v = true.
Proof.
  cbn [wf]. rewrite andb_true_iff. intros [_ H]. revert H.
  induction d as [|[k0 v0] d IH]; intros H Hin; [destruct Hin|].
  apply andb_true_iff in H. destruct H as [H0 H1].
  destruct Hin as [E|Hin]; [now inversion E; subst|auto].
Qed.

Lemma wf_dict_NoDup d : wf (VDict d) = true -> NoDup (keys d).
Proof.
  cbn [wf]. rewrite andb_true_iff. intros [H _]. now apply nodup_str_NoDup.
Qed.

Lemma In_keys_get d k : In k (keys d) -> exists v, dict_get k d = Some v.
Proof.
  intro H. apply dict_get_keys in H.
  destruct (dict_get k d) as [v|]; [eauto|congruence].
Qed.

Lemma num_eq_right a b c : num_eq a b = true -> py_eq b c = num_eq b c.
Proof.
  unfold num_eq at 1. destruct (num_of a); [|discriminate].
  destruct b; simpl; try discriminate; reflexivity.
Qed.

Lemma items_eq_sym xs : forall ys,
  (forall x y, In x xs -> In y ys -> py_eq x y = true -> py_eq y x = true) ->
  items_eq xs ys = true -> items_eq ys xs = true.
Proof.
  induction xs as [|x xs IH]; intros [|y ys] Hs H; try discriminate;
    [reflexivity|].
  cbn [items_eq] in *. apply andb_true_iff in H. destruct H as [H0 H1].
  apply andb_true_iff. split.
  - apply Hs; [now left|now left|exact H0].
  - apply IH; [|exact H1]. intros x' y' Hx Hy. apply Hs; now right.
Qed.

Lemma items_eq_trans xs : forall ys zs,
  (forall x y z, In x xs -> py_eq x y = true -> py_eq y z = true ->
                 py_eq x z = true) ->
  items_eq xs ys = true -> items_eq ys zs = true -> items_eq xs zs = true.
Proof.
  induction xs as [|x xs IH]; intros [|y ys] [|z zs] Ht H1 H2;
    try discriminate; [reflexivity|].
  cbn [items_eq] in *.
  apply andb_true_iff in H1. destruct H1 as [Hxy H1].
  apply andb_true_iff in H2. destruct H2 as [Hyz H2].
  apply andb_true_iff. split.
  - apply (Ht x y z); [now left|exact Hxy|exact Hyz].
  - apply (IH ys zs); [|exact H1|exact H2].
    intros x' y' z' Hx. apply Ht. now right.
Qed.

Lemma py_eq_sym_below n :
  forall a b,
    height a < n -> wf a = true -> wf b = true ->
    py_eq a b = true -> py_eq b a = true.
Proof.
  induction n as [|n IH]; intros a b Hh Ha Hb He; [inversion Hh|].
  destruct a as [| | | | |xs|d].
  - destruct b; try discriminate He. reflexivity.
  - apply num_eq_py_eq, num_eq_sym. exact He.
  - apply num_eq_py_eq, num_eq_sym. exact He.
  - apply num_eq_py_eq, num_eq_sym. exact He.
  - destruct b; try discriminate He. cbn [py_eq] in *.
    now rewrite String.eqb_sym.
  - destruct b as [| | | | |ys|]; try discriminate He.
    rewrite py_eq_list in *. apply items_eq_sym; [|exact He].
    intros x y Hx Hy. apply IH.
    + pose proof (height_item xs x Hx). lia.
    + exact (wf_list_item xs x Ha Hx).
    + exact (wf_list_item ys y Hb Hy).
  - destruct b as [| | | | | |d']; try discriminate He.
    pose proof He as He'.
    rewrite py_eq_dict, andb_true_iff, Nat.eqb_eq, entries_eq_spec in He.
    destruct He as [Hlen Hent].
    rewrite py_eq_dict, andb_true_iff, Nat.eqb_eq, entries_eq_spec.
    split; [now symmetry|].
    intros k v' Hin'.
    assert (Hk : In k (keys d)).
    { apply (py_eq_dict_keys d d' k (wf_dict_NoDup d Ha) He').
      unfold keys. apply in_map_iff. now exists (k, v'). }
    destruct (In_keys_get d k Hk) as [v Hg]. exists v. split; [exact Hg|].
    pose proof (dict_get_In k d v Hg) as Hin.
    destruct (Hent k v Hin) as [v'' [Hg' Hvv]].
    rewrite (In_dict_get k v' d' (wf_dict_NoDup d' Hb) Hin') in Hg'.
    inversion Hg'; subst v''.
    apply IH; [|exact (wf_dict_entry d k v Ha Hin)
               |exact (wf_dict_entry d' k v' Hb Hin')|exact Hvv].
    pose proof (height_entry d k v Hin). lia.
Qed.

Lemma py_eq_sym a b :
  wf a = true -> wf b = true -> py_eq a b = true -> py_eq b a = true.
Proof. apply (py_eq_sym_below (S (height a))). apply Nat.lt_succ_diag_r. Qed.

Lemma py_eq_trans_below n :
  forall a b c,
    height a < n ->
    py_eq a b = true -> py_eq b c = true -> py_eq a c = true.
Proof.
  induction n as [|n IH]; intros a b c Hh Hab Hbc; [inversion Hh|].
  assert (Hnum : num_eq a b = true -> py_eq a c = true).
  { intro H. apply num_eq_py_eq. apply (num_eq_trans a b c H).
    now rewrite <- (num_eq_right a b c H). }
  destruct a as [| | | | |xs|d]; auto.
  - destruct b; try discriminate Hab. exact Hbc.
  - destruct b; try discriminate Hab. cbn [py_eq] in Hab.
    apply String.eqb_eq in Hab. now subst.
  - destruct b as [| | | | |ys|]; try discriminate Hab.
    destruct c as [| | | | |zs|]; try discriminate Hbc.
    rewrite py_eq_list in *. apply (items_eq_trans xs ys zs); auto.
    intros x y z Hx. apply IH. pose proof (height_item xs x Hx). lia.
  - destruct b as [| | | | | |d']; try discriminate Hab.
    destruct c as [| | | | | |d'']; try discriminate Hbc.
    rewrite py_eq_dict, andb_true_iff, Nat.eqb_eq, entries_eq_spec in *.
    destruct Hab as [L1 E1], Hbc as [L2 E2]. split; [congruence|].
    intros k v Hin. destruct (E1 k v Hin) as [v' [Hg' Hvv']].
    destruct (E2 k v' (dict_get_In k d' v' Hg')) as [v'' [Hg'' Hvv'']].
    exists v''. split; [exact Hg''|].
    apply (IH v v' v''); auto. pose proof (height_entry d k v Hin). lia.
Qed.

Lemma py_eq_trans a b c :
  py_eq a b = true -> py_eq b c = true -> py_eq a c = true.
Proof. apply (py_eq_trans_below (S (height a))). apply Nat.lt_succ_diag_r. Qed.

(* ================================================================== *)
(** * The conflict model *)

Lemma init_fields path b l r :
  MergeConflict.__init__ path b l r =
  MergeConflict.mk path b l r
    (if py_eq b r then Some "keep_local"
     else if py_eq b l then Some "take_remote" else None)
    (py_eq b r || py_eq b l).
Proof.
  unfold MergeConflict.__init__, MergeConflict._check_auto_resolvable.
  cbn [MergeConflict.base_value MergeConflict.remote_value
       MergeConflict.local_value].
  destruct (py_eq b r); [reflexivity|].
  destruct (py_eq b l); reflexivity.
Qed.

(** C9, as stated, fails when the three values are equal: the constructor
    then reports the conflict as auto-resolvable, where the rule says that
    it is not. *)
Lemma C9_all_equal_counterexample :
  ~ Stated.auto_resolution "a" VNone VNone VNone.
Proof.
  unfold Stated.auto_resolution. intros [_ [_ [H _]]].
  assert (E : MergeConflict.auto_resolvable
                (MergeConflict.__init__ "a" VNone VNone VNone) = false).
  { apply H; intros [_ E]; discriminate E. }
  discriminate E.
Qed.

(** C9 (amended).  A conflict constructed with (path, base, local, remote)
    keeps the four values.  If base == remote its resolution is keep_local
    and it is auto-resolvable, whether or not local differs from remote;
    if base == local and remote != local (base and remote well formed) its
    resolution is take_remote and it is auto-resolvable; if base equals
    neither side it is not auto-resolvable and has no resolution.  In
    general the resolution is decided by base == remote first and
    base == local second, and a conflict is auto-resolvable exactly when a
    resolution is set at construction. *)
Theorem C9_auto_resolution_at_construction :
  forall (path : string) (base local remote : value),
    let c := MergeConflict.__init__ path base local remote in
    (MergeConflict.path c = path /\
     MergeConflict.base_value c = base /\
     MergeConflict.local_value c = local /\
     MergeConflict.remote_value c = remote) /\
    (py_eq base remote = true ->
     MergeConflict.resolution c = Some "keep_local" /\
     MergeConflict.auto_resolvable c = true) /\
    (wf base = true -> wf remote = true ->
     py_eq base local = true -> py_eq remote local = false ->
     MergeConflict.resolution c = Some "take_remote" /\
     MergeConflict.auto_resolvable c = true) /\
    (py_eq base remote = false -> py_eq base local = false ->
     MergeConflict.resolution c = None /\
     MergeConflict.auto_resolvable c = false) /\
    MergeConflict.resolution c =
      (if py_eq base remote then Some "keep_local"
       else if py_eq base local then Some "take_remote"
       else None) /\
    MergeConflict.auto_resolvable c =
      match MergeConflict.resolution c with
      | Some _ => true
      | None => false
      end.
Proof.
  intros path base local remote c. subst c. rewrite init_fields.
  cbn [MergeConflict.path MergeConflict.base_value MergeConflict.local_value
       MergeConflict.remote_value MergeConflict.resolution
       MergeConflict.auto_resolvable].
  split; [repeat split|]. split; [intros ->; now split|].
  split.
  { intros Hb Hr Hbl Hrl.
    destruct (py_eq base remote) eqn:Ebr.
    - apply (py_eq_sym base remote Hb Hr) in Ebr.
      rewrite (py_eq_trans remote base local Ebr Hbl) in Hrl. discriminate.
    - rewrite Hbl. now split. }
  split; [intros -> ->; now split|]. split; [reflexivity|].
  destruct (py_eq base remote); [reflexivity|].
  destruct (py_eq base local); reflexivity.
Qed.

Lemma C9_auto_resolution_at_construction_witness :
  MergeConflict.resolution
    (MergeConflict.__init__ "retries" (VInt 3) (VInt 3) (VInt 10))
  = Some "take_remote" /\
  MergeConflict.auto_resolvable
    (MergeConflict.__init__ "retries" (VInt 3) (VInt 3) (VInt 10))
  = true.
Proof.
  apply (C9_auto_resolution_at_construction
           "retries" (VInt 3) (VInt 3) (VInt 10)); reflexivity.
Defined.

(* ================================================================== *)
(** * Scalar and type-mismatched nodes *)

Lemma scalar_node_tests L R :
  Stated.scalar_node L R = true ->
  is_dict L && is_dict R = false /\ is_list L && is_list R = false.
Proof.
  unfold Stated.scalar_node. rewrite andb_true_iff, !negb_true_iff. tauto.
Qed.

Lemma three_way_rule B L R path cs :
  Stated.scalar_node L R = true ->
  py_eq L R = false ->
  YAMLMerger.three_way B L R path cs = Stated.three_way B L R path cs.
Proof.
  intros Hs ELR. unfold YAMLMerger.three_way, Stated.three_way.
  rewrite ELR.
  destruct (py_eq B L) eqn:EBL, (py_eq B R) eqn:EBR; cbn [andb negb].
  - rewrite (py_eq_base_both B L R Hs EBL EBR) in ELR. discriminate.
  - reflexivity.
  - reflexivity.
  - unfold MergeM.bind, MergeM.append_conflict, MergeM.ret.
    rewrite init_fields, EBL, EBR. reflexivity.
Qed.

Lemma preserving_scalar_node py_repr cm fuel B L R path cs :
  Stated.scalar_node L R = true ->
  PreservingYAMLMerger._deep_merge py_repr cm (S fuel) B L R path cs =
  Stated.three_way B L R path cs.
Proof.
  intro Hs. destruct (scalar_node_tests _ _ Hs) as [Hd Hl].
  cbn [PreservingYAMLMerger._deep_merge].
  destruct (py_eq L R) eqn:ELR.
  - unfold Stated.three_way. now rewrite ELR.
  - rewrite Hd, Hl. unfold py_ne. rewrite ELR. cbn [negb].
    now apply three_way_rule.
Qed.

Lemma plain_scalar_node py_repr si sn fuel B L R path cs :
  Stated.scalar_node L R = true ->
  YAMLMerger._deep_merge py_repr si sn (S fuel) B L R path cs =
  Stated.three_way B L R path cs.
Proof.
  intro Hs. destruct (scalar_node_tests _ _ Hs) as [Hd Hl].
  cbn [YAMLMerger._deep_merge].
  destruct (py_eq L R) eqn:ELR.
  - unfold Stated.three_way. now rewrite ELR.
  - destruct (negb (YAMLMerger.pytype_eqb (YAMLMerger.type L) (YAMLMerger.type R))).
    + now apply three_way_rule.
    + rewrite Hd, Hl. unfold py_ne. rewrite ELR. cbn [negb].
      now apply three_way_rule.
Qed.

Lemma set_iter_singleton (set_iter : list string -> list string) k :
  (forall l, Permutation (set_iter l) l) -> set_iter [k] = [k].
Proof.
  intro H. apply Permutation_length_1_inv. apply Permutation_sym, H.
Qed.

(** C1.  At a scalar or type-mismatched node (the two sides are not both
    mappings and not both sequences) both structured mergers return L when
    L == R; R when B == L and B != R; L when B == R and B != L; and
    otherwise append exactly one conflict (path, B, L, R) that is not
    auto-resolvable and return L.  For B = {retries: 3}, L = {retries: 5},
    R = {retries: 10} the merge is {retries: 5} with the one conflict at
    path retries. *)
Theorem C1_scalar_three_way_rule :
  forall (py_repr : value -> string) (local_is_CommentedMap : bool)
         (set_iter_keys : list string -> list string)
         (set_iter_names : list value -> list value)
         (fuel : nat) (B L R : value) (path : string)
         (conflicts : list MergeConflict.t),
    (forall l, Permutation (set_iter_keys l) l) ->
    Stated.scalar_node L R = true ->
    PreservingYAMLMerger._deep_merge py_repr local_is_CommentedMap
      (S fuel) B L R path conflicts
    = Stated.three_way B L R path conflicts
    /\
    YAMLMerger._deep_merge py_repr set_iter_keys set_iter_names
      (S fuel) B L R path conflicts
    = Stated.three_way B L R path conflicts
    /\
    PreservingYAMLMerger.merge py_repr local_is_CommentedMap
      (Stated.retries 3) (Stated.retries 5) (Stated.retries 10)
    = Ok (Stated.retries 5, [Stated.retries_conflict])
    /\
    YAMLMerger.merge py_repr set_iter_keys set_iter_names
      (Stated.retries 3) (Stated.retries 5) (Stated.retries 10)
    = Ok (Stated.retries 5, [Stated.retries_conflict]).
Proof.
  intros py_repr cm si sn fuel B L R path cs Hperm Hs.
  split; [now apply preserving_scalar_node|].
  split; [now apply plain_scalar_node|].
  split.
  - destruct cm; reflexivity.
  - unfold YAMLMerger.merge, Stated.retries.
    cbn [height YAMLMerger._deep_merge py_eq].
    cbv [YAMLMerger._merge_dicts YAMLMerger.all_keys].
    cbn. rewrite (set_iter_singleton si "retries" Hperm). reflexivity.
Qed.

Lemma C1_scalar_three_way_rule_witness :
  PreservingYAMLMerger._deep_merge (fun _ => "") true 1
    (VInt 3) (VInt 5) (VStr "ten") "retries" []
  = Ok (VInt 5,
        [MergeConflict.mk "retries" (VInt 3) (VInt 5) (VStr "ten") None false]).
Proof.
  apply (C1_scalar_three_way_rule (fun _ => "") true (fun l => l) (fun l => l)
           0 (VInt 3) (VInt 5) (VStr "ten") "retries" []).
  - intro l. apply Permutation_refl.
  - reflexivity.
Defined.

(* ================================================================== *)
(** * Templated text *)

(** C7.  With equal block counts on the local and remote sides the loop
    runs over [zip(base_blocks, local_blocks, remote_blocks)], which stops
    at the shortest of the three: blocks beyond the last base block are
    dropped from the output, with no conflict.  With no base file the merged
    text is empty; with a base of one block the directive that both sides
    added (differently) is lost.  Where a conflict is reported, the marker
    that is written has single braces. *)
Theorem C7_blocks_beyond_base_are_dropped :
  HelmTemplateMerger.merge_template
    "" "name: {{ .Values.name }}" "name: {{ .Values.name }}"
  = ("", [])
  /\
  HelmTemplateMerger.merge_template "a: " "a: {{ .x }}" "a: {{ .y }}"
  = ("a: ", [])
  /\
  HelmTemplateMerger.merge_template "a: {{ .b }}" "a: {{ .x }}" "a: {{ .y }}"
  = (("a: " ++
      HelmTemplateMerger.nl ++ "{- /* MERGE CONFLICT START */ -}" ++
      HelmTemplateMerger.nl ++ "{- /* LOCAL VERSION: */ -}" ++
      HelmTemplateMerger.nl ++ "{{ .x }}" ++
      HelmTemplateMerger.nl ++ "{- /* REMOTE VERSION: */ -}" ++
      HelmTemplateMerger.nl ++ "{{ .y }}" ++
      HelmTemplateMerger.nl ++ "{- /* MERGE CONFLICT END */ -}")%string,
     [MergeConflict.mk "block_1" (VStr "{{ .b }}") (VStr "{{ .x }}")
                       (VStr "{{ .y }}") None false]).
Proof.
  repeat split; vm_compute; reflexivity.
Qed.

(* ================================================================== *)
(** * The directory tree under the apply stage *)

Module FSFacts.
Import FS.

Lemma child_set_child_same x n es : child x (set_child x n es) = Some n.
Proof.
  unfold child, set_child. induction es as [|[y m] es IH]; simpl.
  - now rewrite String.eqb_refl.
  - destruct (String.eqb x y) eqn:E; simpl; rewrite E; [reflexivity|exact IH].
Qed.

Lemma child_set_child_other x y n es :
  x <> y -> child y (set_child x n es) = child y es.
Proof.
  intro Hne. unfold child, set_child. induction es as [|[z m] es IH]; simpl.
  - apply String.eqb_neq in Hne. rewrite String.eqb_sym in Hne. now rewrite Hne.
  - destruct (String.eqb_spec x z) as [->|Hxz]; simpl.
    + destruct (String.eqb_spec y z) as [->|Hyz]; [congruence|reflexivity].
    + destruct (String.eqb y z); [reflexivity|exact IH].
Qed.

Lemma child_remove_same x es : child x (remove_child x es) = None.
Proof.
  unfold child, remove_child. induction es as [|[y m] es IH]; simpl.
  - reflexivity.
  - destruct (String.eqb x y) eqn:E; simpl; [exact IH|]. now rewrite E.
Qed.

Lemma child_remove_other x y es :
  x <> y -> child y (remove_child x es) = child y es.
Proof.
  intro Hne. unfold child, remove_child. induction es as [|[z m] es IH]; simpl.
  - reflexivity.
  - destruct (String.eqb_spec x z) as [->|Hxz]; simpl.
    + destruct (String.eqb_spec y z) as [->|Hyz]; [congruence|exact IH].
    + destruct (String.eqb y z); [reflexivity|exact IH].
Qed.

Lemma lookup_one x root :
  lookup [x] root =
  match root with
  | Dir es => child x es
  | File _ => None
  end.
Proof.
  destruct root as [c|es]; simpl; [reflexivity|].
  destruct (child x es); reflexivity.
Qed.

(** Writing below a directory leaves it a directory. *)
Lemma put_below_is_dir x q n c c' :
  put (x :: q) n c = Some c' -> exists es', c' = Dir es'.
Proof.
  destruct c as [s|es]; simpl; [discriminate|].
  destruct q as [|y q].
  - intros [= <-]. eauto.
  - destruct (child x es) as [d|]; [|discriminate].
    destruct (put (y :: q) n d); [|discriminate]. intros [= <-]. eauto.
Qed.

Lemma delete_below_is_dir x q c c' :
  delete (x :: q) c = Some c' -> exists es', c' = Dir es'.
Proof.
  destruct c as [s|es]; simpl; [discriminate|].
  destruct q as [|y q].
  - intros [= <-]. eauto.
  - destruct (child x es) as [d|]; [|discriminate].
    destruct (delete (y :: q) d); [|discriminate]. intros [= <-]. eauto.
Qed.

Lemma put_below a x q n es :
  put (a :: x :: q) n (Dir es) =
  match child a es with
  | Some c =>
      match put (x :: q) n c with
      | Some c' => Some (Dir (set_child a c' es))
      | None => None
      end
  | None => None
  end.
Proof. reflexivity. Qed.

Lemma delete_below a x q es :
  delete (a :: x :: q) (Dir es) =
  match child a es with
  | Some c =>
      match delete (x :: q) c with
      | Some c' => Some (Dir (set_child a c' es))
      | None => None
      end
  | None => None
  end.
Proof. reflexivity. Qed.

Lemma append_length (a b : string) :
  String.length (a ++ b) = String.length a + String.length b.
Proof.
  induction a as [|c a IH]; simpl; [reflexivity|]. now rewrite IH.
Qed.

Lemma backup_name_differs name : name <> TemplateUpgrader.backup_name name.
Proof.
  intro E. apply (f_equal String.length) in E.
  unfold TemplateUpgrader.backup_name in E.
  simpl in E. rewrite append_length in E. simpl in E. lia.
Qed.

Arguments TemplateUpgrader.backup_name : simpl never.

End FSFacts.

Module ApplyFacts.
Import FS TemplateUpgrader FSFacts.
Local Open Scope io_scope.

Section Invariant.
Variable element_name : string.
(** The backup that was taken. *)
Variable saved : node.

Local Abbreviation epath := (element_path element_name).
Local Abbreviation bpath := (backup_path element_name).

Local Abbreviation inv := (ApplyInv.inv element_name saved).
Local Abbreviation keeps := (ApplyInv.keeps element_name saved).

Lemma keeps_ret A (a : A) : keeps (ret a).
Proof. intros fs H. exact H. Qed.

Lemma keeps_raise A e : keeps (@raise A e).
Proof. intros fs H. exact H. Qed.

Lemma keeps_lift A (o : outcome A) : keeps (lift o).
Proof. intros fs H. exact H. Qed.

Lemma keeps_bind A B (m : IO A) (f : A -> IO B) :
  keeps m -> (forall a, keeps (f a)) -> keeps (bind m f).
Proof.
  intros Hm Hf fs H. unfold bind.
  specialize (Hm fs H). destruct (m fs) as [[a|e] fs']; simpl in *.
  - now apply Hf.
  - exact Hm.
Qed.

Lemma put_below_inv x q n fs fs' :
  inv fs -> put (element_name :: x :: q) n fs = Some fs' -> inv fs'.
Proof.
  intros [Hb [el He]] Hput.
  unfold element_path, backup_path in *. rewrite lookup_one in *.
  destruct fs as [s|es]; [discriminate Hb|].
  rewrite put_below, He in Hput.
  destruct (put (x :: q) n (Dir el)) as [c'|] eqn:E; [|discriminate].
  inversion Hput; subst fs'.
  unfold ApplyInv.inv, element_path, backup_path. rewrite !lookup_one.
  destruct (put_below_is_dir _ _ _ _ _ E) as [el' ->].
  split.
  - rewrite child_set_child_other; [exact Hb|apply backup_name_differs].
  - exists el'. apply child_set_child_same.
Qed.

Lemma delete_below_inv x q fs fs' :
  inv fs -> delete (element_name :: x :: q) fs = Some fs' -> inv fs'.
Proof.
  intros [Hb [el He]] Hdel.
  unfold element_path, backup_path in *. rewrite lookup_one in *.
  destruct fs as [s|es]; [discriminate Hb|].
  rewrite delete_below, He in Hdel.
  destruct (delete (x :: q) (Dir el)) as [c'|] eqn:E; [|discriminate].
  inversion Hdel; subst fs'.
  unfold ApplyInv.inv, element_path, backup_path. rewrite !lookup_one.
  destruct (delete_below_is_dir _ _ _ _ E) as [el' ->].
  split.
  - rewrite child_set_child_other; [exact Hb|apply backup_name_differs].
  - exists el'. apply child_set_child_same.
Qed.

Lemma keeps_store x q n : keeps (store (element_name :: x :: q) n).
Proof.
  intros fs H. unfold store.
  destruct (put _ n fs) as [fs'|] eqn:E; simpl; [|exact H].
  eapply put_below_inv; eassumption.
Qed.

Lemma keeps_unlink x q : keeps (unlink (element_name :: x :: q)).
Proof.
  intros fs H. unfold unlink.
  destruct (delete _ fs) as [fs'|] eqn:E; simpl; [|exact H].
  eapply delete_below_inv; eassumption.
Qed.

Lemma keeps_exists p : keeps (exists_ p).
Proof. intros fs H. exact H. Qed.

Lemma keeps_read_text p : keeps (read_text p).
Proof.
  intros fs H. unfold read_text.
  destruct (lookup p fs) as [[c|es]|]; exact H.
Qed.

Lemma keeps_write_text x q s : keeps (write_text (element_name :: x :: q) s).
Proof.
  intros fs H. unfold write_text.
  destruct (lookup _ fs) as [[c|es]|]; try exact H; now apply keeps_store.
Qed.

Lemma keeps_mkdir x q : keeps (mkdir_exist_ok (element_name :: x :: q)).
Proof.
  intros fs H. unfold mkdir_exist_ok.
  destruct (lookup _ fs) as [[c|es]|]; try exact H; now apply keeps_store.
Qed.

Lemma keeps_rmtree x q : keeps (rmtree (element_name :: x :: q)).
Proof.
  intros fs H. unfold rmtree.
  destruct (lookup _ fs) as [[c|es]|]; try exact H; now apply keeps_unlink.
Qed.

Lemma keeps_copytree_node src src_name x q :
  keeps (copytree_node src src_name (element_name :: x :: q)).
Proof.
  intros fs H. unfold copytree_node.
  destruct src as [[c|es]|]; try exact H.
  destruct (lookup _ fs); [exact H|now apply keeps_store].
Qed.

Lemma keeps_copy2_node src src_name x q :
  keeps (copy2_node src src_name (element_name :: x :: q)).
Proof.
  destruct src; simpl; [apply keeps_write_text|apply keeps_raise].
Qed.

Section Body.
Variable py_repr : value -> string.
Variable global_str : string -> string.
Variable apply_resolution_to_values :
  value -> list MergeConflict.t -> outcome (value * list MergeConflict.t).
Variable conflicted_text : string -> list MergeConflict.t -> outcome string.
Variable ruamel_dump : value -> outcome string.
Variable yaml_safe_load : string -> outcome value.
Variable yaml_dump : value -> outcome string.
Variable merged_values : value.
Variable values_conflicts : list MergeConflict.t.
Variable converter_merges : list (string * (string * list MergeConflict.t)).
Variable remote : option node.

Create HintDb keeps.

#[local] Hint Resolve keeps_ret keeps_raise keeps_lift keeps_exists
  keeps_read_text keeps_write_text keeps_mkdir keeps_rmtree
  keeps_copytree_node keeps_copy2_node : keeps.

(** Split a sequence of steps and a choice between steps, then look each
    step up. *)
Ltac keeps_steps :=
  repeat first
    [ apply keeps_bind; [|intro]
    | match goal with
      | |- ApplyInv.keeps _ _ (match ?x with _ => _ end) => destruct x
      end ];
  unfold element_path; cbn [app]; auto with keeps.

Lemma keeps_load_name name : keeps (load_name global_str name).
Proof. unfold load_name. keeps_steps. Qed.

Lemma keeps_dump_to dump v x q :
  keeps (dump_to dump v (element_name :: x :: q)).
Proof. unfold dump_to. keeps_steps. Qed.

#[local] Hint Resolve keeps_load_name keeps_dump_to : keeps.

Lemma keeps_write_conflict_header x q cs :
  keeps (write_conflict_header py_repr global_str (element_name :: x :: q) cs).
Proof. unfold write_conflict_header. keeps_steps. Qed.

Lemma keeps_write_converters x merges :
  keeps (write_converters conflicted_text [element_name; x] merges).
Proof.
  induction merges as [|[name [content conflicts]] rest IH]; cbn [write_converters].
  - apply keeps_ret.
  - apply keeps_bind; [|intros _; exact IH].
    destruct conflicts.
    + apply keeps_write_text.
    + apply keeps_bind; [apply keeps_lift|intros s; apply keeps_write_text].
Qed.

Lemma keeps_copy_new_converters x entries :
  keeps (copy_new_converters [element_name; x] entries).
Proof.
  induction entries as [|[name n] rest IH]; cbn [copy_new_converters].
  - apply keeps_ret.
  - apply keeps_bind; [|intros _; exact IH].
    destruct (is_yaml name); [|apply keeps_ret].
    apply keeps_bind; [apply keeps_exists|intros [|]].
    + apply keeps_ret.
    + apply keeps_copy2_node.
Qed.

Lemma keeps_update_chart :
  keeps (update_chart yaml_safe_load yaml_dump element_name remote).
Proof. unfold update_chart. keeps_steps. Qed.

Lemma keeps_replace_subtree name :
  keeps (replace_subtree element_name remote name).
Proof. unfold replace_subtree. keeps_steps. Qed.

Local Abbreviation body :=
  (try_body py_repr global_str apply_resolution_to_values conflicted_text
            ruamel_dump yaml_safe_load yaml_dump element_name merged_values
            values_conflicts converter_merges remote).

Local Abbreviation body_post := (ApplyInv.body_post element_name saved).

Lemma body_post_bind A (m : IO A) (f : A -> IO unit) :
  keeps m -> (forall a, body_post (f a)) -> body_post (bind m f).
Proof.
  intros Hm Hf fs H. unfold bind.
  specialize (Hm fs H). destruct (m fs) as [[a|e] fs']; simpl in *.
  - now apply Hf.
  - exact Hm.
Qed.

Lemma body_post_rmtree_backup : body_post (rmtree bpath).
Proof.
  intros fs [Hb He]. unfold rmtree. rewrite Hb.
  destruct saved as [c|bs] eqn:Es.
  - simpl. split; [exact Hb|exact He].
  - unfold backup_path in *. rewrite lookup_one in Hb.
    destruct fs as [s|es]; [discriminate Hb|].
    unfold unlink. cbn [delete]. rewrite lookup_one.
    apply child_remove_same.
Qed.

Lemma try_body_post : body_post body.
Proof.
  unfold try_body.
  apply body_post_bind.
  { destruct values_conflicts; [apply keeps_ret|apply keeps_lift]. }
  intros mc. apply body_post_bind; [apply keeps_dump_to|intros _].
  apply body_post_bind; [apply keeps_write_conflict_header|intros _].
  apply body_post_bind; [apply keeps_mkdir|intros _].
  apply body_post_bind; [apply keeps_write_converters|intros _].
  apply body_post_bind.
  { destruct (remote_lookup remote ["converters"]) as [[c|es]|];
      try apply keeps_ret. apply keeps_copy_new_converters. }
  intros _. apply body_post_bind; [apply keeps_update_chart|intros _].
  apply body_post_bind; [apply keeps_replace_subtree|intros _].
  apply body_post_bind; [apply keeps_replace_subtree|intros _].
  apply body_post_rmtree_backup.
Qed.

(** The [except] clause, run where the invariant holds, puts the saved
    directory back and raises the exception it was given. *)
Lemma restore_backup_restores e fs :
  inv fs -> (exists bs, saved = Dir bs) ->
  exists fs',
    restore_backup element_name e fs = (Raised e, fs') /\
    lookup epath fs' = Some saved /\ lookup bpath fs' = None.
Proof.
  intros [Hb [el He]] [bs Hs].
  unfold element_path, backup_path in *. rewrite lookup_one in Hb, He.
  destruct fs as [s|es]; [discriminate Hb|].
  pose proof (backup_name_differs element_name) as Hne.
  unfold restore_backup, bind, rmtree, element_path, backup_path.
  rewrite lookup_one, He. unfold unlink at 1. cbn [delete].
  unfold move. rewrite !lookup_one.
  rewrite child_remove_other by congruence. rewrite Hb.
  rewrite child_remove_same.
  unfold bind, unlink, store. cbn [delete put].
  eexists. split; [reflexivity|].
  rewrite !lookup_one. split.
  - apply child_set_child_same.
  - rewrite child_set_child_other by congruence. apply child_remove_same.
Qed.

(** A backup that was made: the element is a directory, and both paths
    hold it. *)
Lemma make_backup_done fs fs1 :
  make_backup element_name fs = (Done tt, fs1) ->
  exists el,
    lookup epath fs = Some (Dir el) /\
    lookup epath fs1 = Some (Dir el) /\
    lookup bpath fs1 = Some (Dir el).
Proof.
     
  pose proof (backup_name_differs element_name) as Hne.
  unfold make_backup, bind, exists_, rmtree, element_path, backup_path.
  destruct fs as [s|es]; [intro H; discriminate H|].
  assert (Hcopy : forall es0,
             child element_name es0 = child element_name es ->
             child (backup_name element_name) es0 = None ->
             copytree [element_name] [backup_name element_name]
                      (Dir es0) = (Done tt, fs1) ->
             exists el, lookup [element_name] (Dir es) = Some (Dir el) /\
                        lookup [element_name] fs1 = Some (Dir el) /\
                        lookup [backup_name element_name] fs1
                        = Some (Dir el)).
  { intros es0 Hsame Hnone. unfold copytree, copytree_node.
    rewrite !lookup_one, Hsame, Hnone.
    destruct (child element_name es) as [[c|el]|] eqn:Ec; try discriminate.
    unfold store. cbn [put]. intros [= <-]. exists el.
    rewrite ?lookup_one. split; [reflexivity|]. split.
    - rewrite child_set_child_other by congruence. congruence.
    - apply child_set_child_same. }
  pose proof (lookup_one (backup_name element_name) (Dir es)) as Hex.
  cbv beta iota in Hex. rewrite Hex.
  destruct (child (backup_name element_name) es)
    as [[c|bs]|] eqn:Eb; cbv beta iota; rewrite ?Hex, ?Eb.
  - intro H. discriminate H.
  - unfold unlink. cbn [delete]. refine (Hcopy _ _ _).
    + apply child_remove_other. congruence.
    + apply child_remove_same.
  - exact (Hcopy es eq_refl Eb).
Qed.

End Body.
End Invariant.
End ApplyFacts.

(* ================================================================== *)
(** * The apply stage *)

Module ApplyRun.
Import FS TemplateUpgrader FSFacts ApplyFacts.
Local Open Scope io_scope.

Lemma lookup_put_same p n fs fs' :
  p <> [] -> put p n fs = Some fs' -> lookup p fs' = Some n.
Proof.
  revert fs fs'. induction p as [|x p IH]; intros fs fs' Hp Hput; [congruence|].
  destruct fs as [s|es]; [discriminate Hput|].
  destruct p as [|y q].
  - cbn [put] in Hput. inversion Hput; subst. rewrite lookup_one.
    apply child_set_child_same.
  - rewrite put_below in Hput.
    destruct (child x es) as [c|] eqn:Ec; [|discriminate].
    destruct (put (y :: q) n c) as [c'|] eqn:E; [|discriminate].
    inversion Hput; subst. cbn [lookup]. rewrite child_set_child_same.
    apply (IH c c'); [discriminate|exact E].
Qed.

(** Writing a file in the element directory succeeds unless a directory is
    in the way. *)
Lemma write_text_in_element name saved x s fs :
  ApplyInv.inv name saved fs ->
  (forall es, lookup [name; x] fs <> Some (Dir es)) ->
  exists fs',
    write_text [name; x] s fs = (Done tt, fs') /\
    ApplyInv.inv name saved fs' /\ lookup [name; x] fs' = Some (File s).
Proof.
  intros Hinv Hnd.
  assert (Hput : exists fs', put [name; x] (File s) fs = Some fs').
  { destruct Hinv as [_ [el He]]. unfold element_path in He.
    rewrite lookup_one in He. destruct fs as [c|es]; [discriminate He|].
    rewrite put_below, He. cbn [put]. eauto. }
  destruct Hput as [fs' Hput]. exists fs'.
  assert (Hw : write_text [name; x] s fs = (Done tt, fs')).
  { unfold write_text, store.
    destruct (lookup [name; x] fs) as [[c|es]|] eqn:El;
      try (now rewrite Hput). exfalso. now apply (Hnd es). }
  split; [exact Hw|]. split.
  - eapply put_below_inv; eassumption.
  - eapply lookup_put_same; [discriminate|exact Hput].
Qed.

Section Run.
Variable py_repr : value -> string.
Variable global_str : string -> string.
Variable apply_resolution_to_values :
  value -> list MergeConflict.t -> outcome (value * list MergeConflict.t).
Variable conflicted_text : string -> list MergeConflict.t -> outcome string.
Variable ruamel_dump : value -> outcome string.
Variable yaml_safe_load : string -> outcome value.
Variable yaml_dump : value -> outcome string.
Variable element_name : string.
Variable merged_values : value.
Variable values_conflicts : list MergeConflict.t.
Variable converter_merges : list (string * (string * list MergeConflict.t)).
Variable remote : option node.

Local Abbreviation body :=
  (try_body py_repr global_str apply_resolution_to_values conflicted_text
            ruamel_dump yaml_safe_load yaml_dump element_name merged_values
            values_conflicts converter_merges remote).
Local Abbreviation run :=
  (apply_merged_files py_repr global_str apply_resolution_to_values
     conflicted_text ruamel_dump yaml_safe_load yaml_dump element_name
     merged_values values_conflicts converter_merges remote).
Local Abbreviation epath := (element_path element_name).
Local Abbreviation bpath := (backup_path element_name).

Lemma run_after_backup fs fs1 :
  make_backup element_name fs = (Done tt, fs1) ->
  run fs = try_except body (restore_backup element_name) fs1.
Proof.
  intro H. unfold apply_merged_files, bind. now rewrite H.
Qed.

Lemma rollback_or_commit fs fs1 :
  make_backup element_name fs = (Done tt, fs1) ->
  lookup epath fs1 = lookup epath fs /\
  lookup bpath fs1 = lookup epath fs /\
  match body fs1 with
  | (Raised e, _) =>
      exists fs',
        run fs = (Raised e, fs') /\
        lookup epath fs' = lookup epath fs /\
        lookup bpath fs' = None
  | (Done _, fs2) =>
      run fs = (Done tt, fs2) /\ lookup bpath fs2 = None
  end.
Proof.
  intro Hb. destruct (make_backup_done _ _ _ Hb) as [el [H0 [H1 H2]]].
  rewrite H0, H1, H2. split; [reflexivity|]. split; [reflexivity|].
  rewrite (run_after_backup _ _ Hb). unfold try_except.
  assert (Hinv : ApplyInv.inv element_name (Dir el) fs1) by (split; eauto).
  pose proof (try_body_post _ _ py_repr global_str
                apply_resolution_to_values conflicted_text ruamel_dump
                yaml_safe_load yaml_dump merged_values values_conflicts
                converter_merges remote _ Hinv) as Hpost.
  destruct (body fs1) as [[[]|e] fs2].
  - split; [reflexivity|exact Hpost].
  - destruct (restore_backup_restores _ _ e _ Hpost (ex_intro _ el eq_refl))
      as [fs' [Hr [He Hn]]].
    exists fs'. now rewrite Hr.
Qed.

(** With a conflict left unresolved, the header block is entered and the
    lookup of [baseline] ends the [try] body. *)
Lemma header_raises values_path conflicts fs content :
  existsb MergeConflict.unresolved conflicts = true ->
  lookup values_path fs = Some (File content) ->
  write_conflict_header py_repr global_str values_path conflicts fs
  = (Raised (NameError "baseline"), fs).
Proof.
  intros Hu Hf. unfold write_conflict_header. rewrite Hu.
  unfold bind at 1. unfold read_text. rewrite Hf. reflexivity.
Qed.

Lemma body_raises_NameError saved fs s mc :
  ApplyInv.inv element_name saved fs ->
  (forall es, lookup [element_name; "values.yaml"] fs <> Some (Dir es)) ->
  match values_conflicts with
  | _ :: _ => apply_resolution_to_values merged_values values_conflicts
  | [] => Done (merged_values, values_conflicts)
  end = Done mc ->
  ruamel_dump (fst mc) = Done s ->
  existsb MergeConflict.unresolved (snd mc) = true ->
  exists fs', body fs = (Raised (NameError "baseline"), fs') /\
              ApplyInv.inv element_name saved fs'.
Proof.
  intros Hinv Hnd Hmc Hdump Hu.
  destruct (write_text_in_element _ _ "values.yaml" "" _ Hinv Hnd)
    as [fsa [Hwa [Hia Hla]]].
  assert (Hnd' : forall es, lookup [element_name; "values.yaml"] fsa
                            <> Some (Dir es)) by (rewrite Hla; discriminate).
  destruct (write_text_in_element _ _ "values.yaml" s _ Hia Hnd')
    as [fsb [Hwb [Hib Hlb]]].
  exists fsb. split; [|exact Hib].
  unfold try_body. unfold bind at 1.
  assert (E1 : (match values_conflicts with
                | [] => ret (merged_values, values_conflicts)
                | _ :: _ =>
                    lift (apply_resolution_to_values merged_values
                                                     values_conflicts)
                end) fs = (Done mc, fs)).
  { destruct values_conflicts; unfold ret, lift; now rewrite <- Hmc. }
  rewrite E1. unfold bind at 1.
  assert (E2 : dump_to ruamel_dump (fst mc)
                       (element_path element_name ++ ["values.yaml"]) fs
               = (Done tt, fsb)).
  { unfold dump_to, element_path, bind, lift. cbn [app].
    rewrite Hwa, Hdump. exact Hwb. }
  rewrite E2. unfold bind at 1.
  unfold element_path. cbn [app].
  now rewrite (header_raises _ _ _ _ Hu Hlb).
Qed.

End Run.
End ApplyRun.

(** C2.  Whenever a conflict of the values document is left unresolved, the
    block that writes the conflict header raises [NameError]: it refers to
    [baseline] and [target_version], which are bound in [upgrade] and not in
    [apply_merged_files] or at module level.  The apply stage, once the
    merged values are written, therefore ends with that exception (and the
    element rolled back); no header is ever written. *)
Theorem C2_conflict_header_raises_NameError :
  forall py_repr global_str apply_resolution_to_values conflicted_text
         ruamel_dump yaml_safe_load yaml_dump element_name merged_values
         values_conflicts converter_merges remote fs fs1 mc s,
    TemplateUpgrader.make_backup element_name fs
      = (TemplateUpgrader.Done tt, fs1) ->
    (forall es, FS.lookup [element_name; "values.yaml"] fs1
                <> Some (FS.Dir es)) ->
    match values_conflicts with
    | _ :: _ => apply_resolution_to_values merged_values values_conflicts
    | [] => TemplateUpgrader.Done (merged_values, values_conflicts)
    end = TemplateUpgrader.Done mc ->
    ruamel_dump (fst mc) = TemplateUpgrader.Done s ->
    existsb MergeConflict.unresolved (snd mc) = true ->
    exists fs',
      TemplateUpgrader.apply_merged_files py_repr global_str
        apply_resolution_to_values conflicted_text ruamel_dump yaml_safe_load
        yaml_dump element_name merged_values values_conflicts converter_merges
        remote fs
      = (TemplateUpgrader.Raised (NameError "baseline"), fs') /\
      FS.lookup (TemplateUpgrader.element_path element_name) fs'
      = FS.lookup (TemplateUpgrader.element_path element_name) fs.
Proof.
  intros py_repr global_str arv ct rd ysl yd name mv vc cm remote fs fs1 mc s
         Hb Hnd Hmc Hdump Hu.
  destruct (ApplyFacts.make_backup_done _ _ _ Hb) as [el [H0 [H1 H2]]].
  assert (Hinv : ApplyInv.inv name (FS.Dir el) fs1) by (split; eauto).
  destruct (ApplyRun.body_raises_NameError py_repr global_str arv ct rd ysl yd
              name mv vc cm remote _ _ s mc Hinv Hnd Hmc Hdump Hu)
    as [fs2 [Hbody Hinv2]].
  rewrite (ApplyRun.run_after_backup py_repr global_str arv ct rd ysl yd
             name mv vc cm remote _ _ Hb).
  unfold TemplateUpgrader.try_except. rewrite Hbody.
  destruct (ApplyFacts.restore_backup_restores
              _ _ (NameError "baseline") _ Hinv2 (ex_intro _ el eq_refl))
    as [fs' [Hr [He Hn]]].
  exists fs'. split; [exact Hr|]. now rewrite He, H0.
Qed.

Lemma C2_conflict_header_raises_NameError_witness :
  exists fs',
    Sample.apply [Stated.retries_conflict] Sample.tree
    = (TemplateUpgrader.Raised (NameError "baseline"), fs') /\
    FS.lookup ["logging"] fs' = FS.lookup ["logging"] Sample.tree.
Proof.
  apply (C2_conflict_header_raises_NameError
           Sample.py_repr Sample.global_str Sample.apply_resolution_to_values
           Sample.conflicted_text Sample.ruamel_dump Sample.yaml_safe_load
           Sample.yaml_dump "logging" (Stated.retries 5)
           [Stated.retries_conflict] [] Sample.remote Sample.tree
           (FS.Dir [("logging", Sample.element);
                    (".logging.backup", Sample.element)])
           (Stated.retries 5, [Stated.retries_conflict]) "retries: 5").
  - reflexivity.
  - intros es H. discriminate H.
  - reflexivity.
  - reflexivity.
  - reflexivity.
Defined.

(** C3.  Once the backup copy has been made, every exception raised in the
    rest of the apply stage is raised again by it after the element
    directory has been put back as it was before the upgrade and the backup
    path has been vacated; when the rest completes, the apply stage returns
    and the backup is gone. *)
Theorem C3_rollback_or_commit :
  forall py_repr global_str apply_resolution_to_values conflicted_text
         ruamel_dump yaml_safe_load yaml_dump element_name merged_values
         values_conflicts converter_merges remote fs fs1,
    TemplateUpgrader.make_backup element_name fs
      = (TemplateUpgrader.Done tt, fs1) ->
    FS.lookup (TemplateUpgrader.element_path element_name) fs1
      = FS.lookup (TemplateUpgrader.element_path element_name) fs /\
    FS.lookup (TemplateUpgrader.backup_path element_name) fs1
      = FS.lookup (TemplateUpgrader.element_path element_name) fs /\
    match
      TemplateUpgrader.try_body py_repr global_str apply_resolution_to_values
        conflicted_text ruamel_dump yaml_safe_load yaml_dump element_name
        merged_values values_conflicts converter_merges remote fs1
    with
    | (TemplateUpgrader.Raised e, _) =>
        exists fs',
          TemplateUpgrader.apply_merged_files py_repr global_str
            apply_resolution_to_values conflicted_text ruamel_dump
            yaml_safe_load yaml_dump element_name merged_values
            values_conflicts converter_merges remote fs
          = (TemplateUpgrader.Raised e, fs') /\
          FS.lookup (TemplateUpgrader.element_path element_name) fs'
          = FS.lookup (TemplateUpgrader.element_path element_name) fs /\
          FS.lookup (TemplateUpgrader.backup_path element_name) fs' = None
    | (TemplateUpgrader.Done _, fs2) =>
        TemplateUpgrader.apply_merged_files py_repr global_str
          apply_resolution_to_values conflicted_text ruamel_dump
          yaml_safe_load yaml_dump element_name merged_values
          values_conflicts converter_merges remote fs
        = (TemplateUpgrader.Done tt, fs2) /\
        FS.lookup (TemplateUpgrader.backup_path element_name) fs2 = None
    end.
Proof.
  intros. now apply ApplyRun.rollback_or_commit.
Qed.

Lemma C3_rollback_or_commit_witness :
  exists fs',
    Sample.apply [Stated.retries_conflict] Sample.tree
    = (TemplateUpgrader.Raised (NameError "baseline"), fs') /\
    FS.lookup ["logging"] fs' = FS.lookup ["logging"] Sample.tree /\
    FS.lookup [".logging.backup"] fs' = None.
Proof.
  pose proof (C3_rollback_or_commit
                Sample.py_repr Sample.global_str
                Sample.apply_resolution_to_values Sample.conflicted_text
                Sample.ruamel_dump Sample.yaml_safe_load Sample.yaml_dump
                "logging" (Stated.retries 5) [Stated.retries_conflict] []
                Sample.remote Sample.tree
                (FS.Dir [("logging", Sample.element);
                         (".logging.backup", Sample.element)])
                eq_refl) as [_ [_ H]].
  exact H.
Defined.

(** C8, as stated, fails: with a leftover backup directory beside the
    element the apply stage runs to completion, and the leftover is gone. *)
Lemma C8_leftover_backup_counterexample :
  ~ Stated.refuses_on_leftover_backup
      (Sample.apply []) [".logging.backup"] Sample.tree_with_leftover.
Proof.
  intro H. destruct (H Sample.leftover eq_refl) as [[e He] _].
  vm_compute in He. discriminate He.
Qed.

(** C8 (amended).  When the backup path already exists as a directory as the
    apply stage starts, the leftover is removed and the apply stage goes on
    exactly as it does from the same tree without the leftover: the backup
    is taken afresh and the upgrade proceeds. *)
Theorem C8_leftover_backup_is_replaced :
  forall py_repr global_str apply_resolution_to_values conflicted_text
         ruamel_dump yaml_safe_load yaml_dump element_name merged_values
         values_conflicts converter_merges remote entries old,
    FS.child (TemplateUpgrader.backup_name element_name) entries
      = Some (FS.Dir old) ->
    TemplateUpgrader.apply_merged_files py_repr global_str
      apply_resolution_to_values conflicted_text ruamel_dump yaml_safe_load
      yaml_dump element_name merged_values values_conflicts converter_merges
      remote (FS.Dir entries)
    =
    TemplateUpgrader.apply_merged_files py_repr global_str
      apply_resolution_to_values conflicted_text ruamel_dump yaml_safe_load
      yaml_dump element_name merged_values values_conflicts converter_merges
      remote
      (FS.Dir (FS.remove_child (TemplateUpgrader.backup_name element_name)
                               entries)).
Proof.
  intros py_repr global_str arv ct rd ysl yd name mv vc cm remote es old Hb.
  assert (E : TemplateUpgrader.make_backup name (FS.Dir es) =
             TemplateUpgrader.make_backup name
               (FS.Dir (FS.remove_child (TemplateUpgrader.backup_name name) es))).
  { unfold TemplateUpgrader.make_backup, TemplateUpgrader.bind,
      TemplateUpgrader.exists_, TemplateUpgrader.rmtree,
      TemplateUpgrader.backup_path.
    pose proof (FSFacts.lookup_one (TemplateUpgrader.backup_name name)
                  (FS.Dir es)) as H1.
    pose proof (FSFacts.lookup_one (TemplateUpgrader.backup_name name)
                  (FS.Dir (FS.remove_child
                             (TemplateUpgrader.backup_name name) es))) as H2.
    cbv beta iota in H1, H2.
    rewrite FSFacts.child_remove_same in H2. rewrite Hb in H1.
    rewrite H1, H2. cbv beta iota. rewrite H1.
    unfold TemplateUpgrader.unlink. reflexivity. }
  unfold TemplateUpgrader.apply_merged_files, TemplateUpgrader.bind.
  now rewrite E.
Qed.

Lemma C8_leftover_backup_is_replaced_witness :
  Sample.apply [] Sample.tree_with_leftover
  = Sample.apply [] (FS.Dir (FS.remove_child ".logging.backup"
                               [("logging", Sample.element);
                                (".logging.backup", Sample.leftover)])).
Proof.
  apply (C8_leftover_backup_is_replaced
           Sample.py_repr Sample.global_str Sample.apply_resolution_to_values
           Sample.conflicted_text Sample.ruamel_dump Sample.yaml_safe_load
           Sample.yaml_dump "logging" (Stated.retries 5) [] [] Sample.remote
           [("logging", Sample.element); (".logging.backup", Sample.leftover)]
           [("values.yaml", FS.File "retries: 4")]).
  reflexivity.
Defined.

(* ================================================================== *)
(** * Named lists *)

Module NamedFacts.
Import MergeM PreservingYAMLMerger Loops.

Lemma by_name_spec items acc :
  Dyn.by_name items acc =
  if names_hashable items then Ok (by_name_pure items acc) else Raise TypeError.
Proof.
  revert acc. induction items as [|item rest IH]; intro acc; [reflexivity|].
  cbn [Dyn.by_name by_name_pure names_hashable forallb].
  destruct (is_dict item); cbn [negb orb].
  - destruct (Dyn.hashable (Dyn.item_name item)); [apply IH|reflexivity].
  - apply IH.
Qed.

Lemma nameless_hashable x :
  Stated.nameless x = true ->
  negb (is_dict x) || Dyn.hashable (Dyn.item_name x) = true.
Proof.
  unfold Stated.nameless. destruct (is_dict x); cbn [negb orb]; [|reflexivity].
  destruct (Dyn.item_name x); try discriminate; reflexivity.
Qed.

Lemma nameless_not_kept x :
  Stated.nameless x = true ->
  is_dict x && truthy (Dyn.item_name x) = false.
Proof.
  unfold Stated.nameless. destruct (is_dict x); cbn [negb orb andb]; [|reflexivity].
  destruct (Dyn.item_name x); try discriminate; [reflexivity|].
  cbn [truthy]. now intros ->.
Qed.

Lemma names_hashable_without l1 x l2 :
  Stated.nameless x = true ->
  names_hashable (l1 ++ x :: l2) = names_hashable (l1 ++ l2).
Proof.
  intro Hx. unfold names_hashable. rewrite !forallb_app. cbn [forallb].
  now rewrite (nameless_hashable x Hx).
Qed.

Lemma bind_ext A B (m : M A) (f g : A -> M B) cs :
  (forall a cs', f a cs' = g a cs') -> bind m f cs = bind m g cs.
Proof.
  intro H. unfold bind. destruct (m cs) as [[a cs']| |]; auto.
Qed.

Lemma by_name_ignored A items (k : M A) cs :
  bind (lift (Dyn.by_name items [])) (fun _ => k) cs =
  if names_hashable items then k cs else Raise TypeError.
Proof.
  unfold bind, lift. rewrite by_name_spec.
  destruct (names_hashable items); reflexivity.
Qed.

Section Loop.
Variable py_repr : value -> string.
Variable rec : value -> value -> value -> string -> M value.
Variable path : string.

Section Items.
Variables base_by_name remote_by_name : Dyn.names.

Lemma merge_local_items_without l1 x l2 :
  Stated.nameless x = true ->
  forall merged seen cs,
    merge_local_items py_repr rec base_by_name remote_by_name path
                      (l1 ++ x :: l2) merged seen cs
    = merge_local_items py_repr rec base_by_name remote_by_name path
                        (l1 ++ l2) merged seen cs.
Proof.
  intro Hx. apply nameless_not_kept in Hx.
  induction l1 as [|item l1 IH]; intros merged seen cs.
  - cbn [app merge_local_items].
    destruct (is_dict x); [|reflexivity].
    cbn [andb] in Hx. now rewrite Hx.
  - cbn [app merge_local_items].
    destruct (is_dict item); [|apply IH].
    destruct (truthy (Dyn.item_name item)); [|apply IH].
    destruct (Dyn.names_get (Dyn.item_name item) remote_by_name).
    + unfold bind.
      destruct (rec _ item v _ cs) as [[merged_item cs']| |];
        [apply IH|reflexivity|reflexivity].
    + apply IH.
Qed.
End Items.

Lemma merge_named_lists_without base l1 x l2 remote cs :
  Stated.nameless x = true ->
  _merge_named_lists py_repr rec base (l1 ++ x :: l2) remote path cs
  = _merge_named_lists py_repr rec base (l1 ++ l2) remote path cs.
Proof.
  intro Hx. unfold _merge_named_lists.
  apply bind_ext; intros base_items cs1.
  apply bind_ext; intros bbn cs2.
  rewrite !by_name_ignored, (names_hashable_without l1 x l2 Hx).
  destruct (names_hashable (l1 ++ l2)); [|reflexivity].
  apply bind_ext; intros rbn cs3.
  unfold bind. now rewrite merge_local_items_without.
Qed.
End Loop.

End NamedFacts.

(** C10.  In a sequence merge where the local or the remote sequence is
    detected as a named list, a local item that is not a mapping, or whose
    name is null (or missing) or the empty string, is left out: the merged
    sequence and the conflicts are those of the named-list merge of the
    local sequence without that item, so the item contributes no entry and
    no conflict. *)
Theorem C10_nameless_local_items_are_omitted :
  forall (py_repr : value -> string)
         (rec : value -> value -> value -> string -> MergeM.M value)
         (base : value) (before : list value) (item : value)
         (after remote : list value) (path : string)
         (conflicts : list MergeConflict.t),
    PreservingYAMLMerger._is_named_list (before ++ item :: after)
    || PreservingYAMLMerger._is_named_list remote = true ->
    Stated.nameless item = true ->
    PreservingYAMLMerger._merge_lists py_repr rec base
      (before ++ item :: after) remote path conflicts
    = PreservingYAMLMerger._merge_named_lists py_repr rec base
        (before ++ after) remote path conflicts.
Proof.
  intros py_repr rec base l1 x l2 remote path cs Hnamed Hx.
  unfold PreservingYAMLMerger._merge_lists. rewrite Hnamed.
  now apply NamedFacts.merge_named_lists_without.
Qed.

Lemma C10_nameless_local_items_are_omitted_witness :
  PreservingYAMLMerger._merge_lists (fun _ => "")
    (PreservingYAMLMerger._deep_merge (fun _ => "") true 2)
    (VList [VDict [("name", VStr "a"); ("level", VStr "low")]])
    ([VDict [("name", VStr "a"); ("level", VStr "high")]]
       ++ VDict [("name", VStr ""); ("level", VStr "low")]
       :: [VInt 7])
    [VDict [("name", VStr "a"); ("level", VStr "low")]]
    "policies" []
  = Ok (VList [VDict [("name", VStr "a"); ("level", VStr "high")]], []).
Proof.
  rewrite (C10_nameless_local_items_are_omitted (fun _ => "")
             (PreservingYAMLMerger._deep_merge (fun _ => "") true 2)
             (VList [VDict [("name", VStr "a"); ("level", VStr "low")]])
             [VDict [("name", VStr "a"); ("level", VStr "high")]]
             (VDict [("name", VStr ""); ("level", VStr "low")])
             [VInt 7]
             [VDict [("name", VStr "a"); ("level", VStr "low")]]
             "policies" []); reflexivity.
Defined.

(* ================================================================== *)
(** * Key order of merged mappings *)

Module OrderFacts.
Import MergeM PreservingYAMLMerger Loops.

Lemma dict_get_set k k' v m :
  dict_get k (dict_set k' v m) =
  if String.eqb k k' then Some v else dict_get k m.
Proof.
  unfold dict_get, dict_set. induction m as [|[k0 v0] m IH]; simpl.
  - reflexivity.
  - destruct (String.eqb_spec k' k0) as [->|Hne]; simpl.
    + destruct (String.eqb k k0); reflexivity.
    + destruct (String.eqb_spec k k0) as [->|Hne'].
      * destruct (String.eqb_spec k0 k'); [congruence|reflexivity].
      * exact IH.
Qed.

Lemma keys_dict_set k v m : keys (dict_set k v m) = add_key (keys m) k.
Proof.
  unfold dict_set, keys, add_key. induction m as [|[k0 v0] m IH]; simpl.
  - reflexivity.
  - destruct (String.eqb k k0); simpl; [reflexivity|].
    rewrite IH. destruct (mem_str k (map fst m)); reflexivity.
Qed.

Lemma add_keys_absorbed acc ks :
  (forall k, In k ks -> In k acc) -> fold_left add_key ks acc = acc.
Proof.
  induction ks as [|k ks IH]; intro H; simpl; [reflexivity|].
  unfold add_key at 2.
  assert (E : mem_str k acc = true) by (apply mem_str_In, H; now left).
  rewrite E. apply IH. intros k' Hin. apply H. now right.
Qed.

Lemma add_keys_merged_order acc ks :
  NoDup ks -> fold_left add_key ks acc = Stated.merged_order acc ks.
Proof.
  unfold Stated.merged_order. revert acc.
  induction ks as [|k ks IH]; intros acc Hnd; simpl.
  - now rewrite app_nil_r.
  - inversion Hnd as [|? ? Hnin Hnd']; subst. rewrite (IH _ Hnd').
    unfold add_key. destruct (mem_str k acc) eqn:E; simpl; [reflexivity|].
    rewrite <- app_assoc. simpl. do 2 f_equal.
    apply filter_ext_in. intros k' Hin. rewrite mem_str_app. simpl.
    destruct (String.eqb_spec k' k) as [->|Hne]; [contradiction|].
    now rewrite orb_false_r.
Qed.

Lemma merged_order_nil ks : Stated.merged_order [] ks = ks.
Proof. unfold Stated.merged_order. simpl. apply filter_true. Qed.


Lemma filter_none (f : string -> bool) l :
  (forall k, In k l -> f k = false) -> filter f l = [].
Proof.
  induction l as [|k l IH]; intro H; simpl; [reflexivity|].
  rewrite (H k (or_introl eq_refl)). apply IH. intros k' Hin. apply H. now right.
Qed.

Lemma filter_all (f : string -> bool) l :
  (forall k, In k l -> f k = true) -> filter f l = l.
Proof.
  induction l as [|k l IH]; intro H; simpl; [reflexivity|].
  rewrite (H k (or_introl eq_refl)). f_equal. apply IH.
  intros k' Hin. apply H. now right.
Qed.

Lemma merged_order_NoDup l r :
  NoDup l -> NoDup r -> NoDup (Stated.merged_order l r).
Proof.
  intros Hl Hr. unfold Stated.merged_order.
  apply NoDup_app; [exact Hl|now apply NoDup_filter|].
  intros k Hin Hf. apply filter_In in Hf. destruct Hf as [_ Hf].
  apply mem_str_In in Hin. rewrite Hin in Hf. discriminate.
Qed.


Lemma merged_order_twice l r :
  Stated.merged_order l (Stated.merged_order l r) = Stated.merged_order l r.
Proof.
  unfold Stated.merged_order. rewrite filter_app.
  rewrite (filter_none (fun k => negb (mem_str k l)) l).
  - simpl. f_equal. apply filter_all.
    intros k Hin. apply filter_In in Hin. tauto.
  - intros k Hin. apply mem_str_In in Hin. now rewrite Hin.
Qed.

Lemma all_keys_merged_order l r :
  NoDup (keys r) -> all_keys l r = Stated.merged_order (keys l) (keys r).
Proof. intro H. unfold all_keys. now apply (add_keys_merged_order (keys l)). Qed.

Lemma keys_fold_set ks m :
  keys (fold_left (fun m key => dict_set key VNone m) ks m)
  = fold_left add_key ks (keys m).
Proof.
  revert m. induction ks as [|k ks IH]; intro m; simpl; [reflexivity|].
  now rewrite IH, keys_dict_set.
Qed.

Lemma placeholders_keys cm l :
  NoDup (keys l) -> keys (placeholders cm l) = if cm then keys l else [].
Proof.
  intro H. unfold placeholders. destruct cm; [|reflexivity].
  rewrite keys_fold_set. change (keys []) with (@nil string).
  rewrite add_keys_merged_order by exact H. apply merged_order_nil.
Qed.


(** The keys of the mapping that [_merge_dicts] builds. *)
Lemma merged_keys cm l r :
  NoDup (keys l) -> NoDup (keys r) ->
  fold_left add_key (all_keys l r) (keys (placeholders cm l))
  = Stated.merged_order (keys l) (keys r).
Proof.
  intros Hl Hr. rewrite (all_keys_merged_order l r Hr), (placeholders_keys cm l Hl).
  rewrite add_keys_merged_order by now apply merged_order_NoDup.
  destruct cm; [apply merged_order_twice|apply merged_order_nil].
Qed.

Section Loop.
Variable py_repr : value -> string.
Variable rec : value -> value -> value -> string -> M value.
Variables (base : value) (local remote : dict) (path : string).

Local Abbreviation assigned := (Loops.assigned rec local remote path).

Lemma merge_keys_cons key rest m cs m' cs' :
  merge_keys rec base local remote path (key :: rest) m cs = Ok (m', cs') ->
  exists v cs1,
    merge_keys rec base local remote path rest (dict_set key v m) cs1
    = Ok (m', cs') /\ assigned key v.
Proof.
  cbn [merge_keys]. unfold Loops.assigned.
  destruct (dict_get key local) as [lv|], (dict_get key remote) as [rv|].
  - unfold bind at 1.
    destruct ((if truthy base then lift (Dyn.get base key) else ret VNone) cs)
      as [[b cs0]| |]; try discriminate.
    unfold bind at 1.
    destruct (rec b lv rv (key_path path key) cs0) as [[v cs1]| |] eqn:E;
      try discriminate.
    intro H. exists v, cs1. split; [exact H|]. now exists b, cs0, cs1.
  - unfold bind at 1.
    destruct (lift (Dyn.contains key base) cs) as [[in_base cs0]| |];
      try discriminate.
    unfold bind at 1.
    match goal with
    | |- match ?m cs0 with _ => _ end = _ -> _ =>
        destruct (m cs0) as [[u cs1]| |]; try discriminate
    end.
    intro H. exists lv, cs1. now split.
  - intro H. exists rv, cs. now split.
  - discriminate.
Qed.

Lemma merge_keys_inv ks :
  forall m cs m' cs',
    merge_keys rec base local remote path ks m cs = Ok (m', cs') ->
    keys m' = fold_left add_key ks (keys m) /\
    forall k v, dict_get k m' = Some v ->
                (In k ks /\ assigned k v) \/ dict_get k m = Some v.
Proof.
  induction ks as [|key rest IH]; intros m cs m' cs' H.
  - cbn in H. inversion H; subst. split; [reflexivity|]. intros. now right.
  - apply merge_keys_cons in H. destruct H as [v0 [cs1 [H Ha]]].
    apply IH in H. destruct H as [Hk Hv]. split.
    + rewrite Hk, keys_dict_set. reflexivity.
    + intros k v Hg. destruct (Hv k v Hg) as [[Hin Has]|Hm].
      * left. split; [now right|exact Has].
      * rewrite dict_get_set in Hm.
        destruct (String.eqb_spec k key) as [->|Hne].
        -- inversion Hm; subst. left. split; [now left|exact Ha].
        -- now right.
Qed.

End Loop.
End OrderFacts.

Module TreeFacts.

Lemma wf_entries d :
  (fix wf_entries (d : dict) : bool :=
     match d with
     | [] => true
     | (_, v) :: r => wf v && wf_entries r
     end) d = true <->
  (forall k v, In (k, v) d -> wf v = true).
Proof.
  induction d as [|[k v] d IH].
  - split; [intros _ ? ? []|reflexivity].
  - rewrite andb_true_iff, IH. split.
    + intros [Hv Hd] k0 v0 [E|Hin]; [now inversion E; subst|eauto].
    + intro H. split; [apply (H k), in_eq|]. intros k0 v0 Hin.
      apply (H k0). now right.
Qed.

Lemma wf_dict d :
  wf (VDict d) = true <->
  NoDup (keys d) /\ (forall k v, In (k, v) d -> wf v = true).
Proof.
  cbn [wf]. now rewrite andb_true_iff, nodup_str_NoDup, wf_entries.
Qed.

Lemma wf_get d k v :
  wf (VDict d) = true -> dict_get k d = Some v -> wf v = true.
Proof.
  intros Hwf Hg. apply wf_dict in Hwf. destruct Hwf as [_ H].
  apply (H k). now apply dict_get_In.
Qed.

End TreeFacts.


(* ================================================================== *)
(** * A key that only the remote mapping has *)

Module RemoteOnly.
Import MergeM PreservingYAMLMerger Loops OrderFacts.

Lemma placeholders_key cm l k v :
  NoDup (keys l) -> dict_get k (placeholders cm l) = Some v -> In k (keys l).
Proof.
  intros Hnd Hg.
  assert (Hin : In k (keys (placeholders cm l))).
  { apply dict_get_keys. congruence. }
  rewrite (placeholders_keys cm l Hnd) in Hin. destruct cm; [exact Hin|destruct Hin].
Qed.

(** The merged mapping has the remote value at a key that only the remote
    mapping has. *)
Lemma remote_only_included cm rec base l r path cs M cs' k rv :
  NoDup (keys l) -> NoDup (keys r) ->
  dict_get k l = None -> dict_get k r = Some rv ->
  _merge_dicts cm rec base l r path cs = Ok (M, cs') ->
  exists m, M = VDict m /\ dict_get k m = Some rv.
Proof.
  intros Hl Hr Hkl Hkr H. unfold _merge_dicts, bind in H.
  destruct (merge_keys rec base l r path (all_keys l r) (placeholders cm l) cs)
    as [[m cs1]| |] eqn:Em; try discriminate H.
  unfold ret in H. inversion H; subst M cs'. exists m. split; [reflexivity|].
  apply merge_keys_inv in Em. destruct Em as [Hk Hv].
  rewrite (merged_keys cm l r Hl Hr) in Hk.
  assert (Hin : In k (keys m)).
  { rewrite Hk. unfold Stated.merged_order. apply in_or_app. right.
    apply filter_In. split.
    - apply dict_get_keys. congruence.
    - apply negb_true_iff. now apply dict_get_None. }
  destruct (In_keys_get m k Hin) as [v Hg]. rewrite Hg. f_equal.
  destruct (Hv k v Hg) as [[_ Ha]|Hp].
  - unfold Loops.assigned in Ha. rewrite Hkl, Hkr in Ha. exact Ha.
  - apply (placeholders_key cm l k v Hl) in Hp.
    apply dict_get_keys in Hp. congruence.
Qed.

End RemoteOnly.

(** C5.  In [PreservingYAMLMerger] the merged mapping includes R[k] for
    every key k that only the remote mapping has, but no conflict is ever
    reported for such a key.  Base has [a] and [b], the local document has
    deleted [a], the remote document has changed it: the remote value comes
    back into the merged mapping and nothing is reported, where the rule
    asks for the conflict (a, 1, absent, 2).  [YAMLMerger], on the same
    documents, reports that conflict (and leaves the key out of the merged
    mapping). *)
Theorem C5_remote_only_key_of_base_unreported :
  forall (py_repr : value -> string) (local_is_CommentedMap : bool),
    (forall rec base l r path cs M cs' k rv,
        NoDup (keys l) -> NoDup (keys r) ->
        dict_get k l = None -> dict_get k r = Some rv ->
        PreservingYAMLMerger._merge_dicts local_is_CommentedMap rec base l r
                                          path cs = Ok (M, cs') ->
        exists m, M = VDict m /\ dict_get k m = Some rv)
    /\
    let B := VDict [("a", VInt 1); ("b", VInt 1)] in
    let L := VDict [("b", VInt 1)] in
    let R := VDict [("a", VInt 2); ("b", VInt 1)] in
    PreservingYAMLMerger.merge py_repr local_is_CommentedMap B L R
    = Ok (VDict [("b", VInt 1); ("a", VInt 2)], [])
    /\
    YAMLMerger.merge py_repr (fun keys => keys) (fun names => names) B L R
    = Ok (VDict [("b", VInt 1)],
          [MergeConflict.mk "a" (VInt 1) VNone (VInt 2) None false]).
Proof.
  intros py_repr cm. split.
  - intros rec base l r path cs M cs' k rv.
    now apply RemoteOnly.remote_only_included.
  - split; [destruct cm; reflexivity|reflexivity].
Qed.

(* ================================================================== *)
(** * Merging when the local tree is the base *)

Module NoopFacts.
Import MergeM PreservingYAMLMerger Loops OrderFacts TreeFacts.

Lemma py_eq_refl_get d k v :
  py_eq (VDict d) (VDict d) = true -> dict_get k d = Some v ->
  py_eq v v = true.
Proof.
  rewrite py_eq_dict, andb_true_iff, entries_eq_spec. intros [_ H] Hg.
  destruct (H k v (dict_get_In _ _ _ Hg)) as [v' [Hg' He]]. congruence.
Qed.

Lemma remote_keeps_dict b r :
  Stated.remote_keeps (VDict b) (VDict r) = true ->
  py_eq (VDict b) (VDict r) = false ->
  forall k v, In (k, v) b ->
              exists rv, dict_get k r = Some rv /\
                         Stated.remote_keeps v rv = true.
Proof.
  cbn [Stated.remote_keeps]. intros H He. rewrite He in H. cbn [orb] in H.
  clear He. revert H. induction b as [|[k0 v0] b IH]; intros H k v Hin; [destruct Hin|].
  apply andb_true_iff in H. destruct H as [H0 H1].
  destruct Hin as [E|Hin]; [|now apply IH].
  inversion E; subst.
  destruct (dict_get k r) as [rv|]; [|discriminate]. now exists rv.
Qed.

Lemma py_or_dict b : py_or (VDict b) (VDict []) = VDict b.
Proof. destruct b; reflexivity. Qed.

Lemma py_or_list b : py_or (VList b) (VList []) = VList b.
Proof. destruct b; reflexivity. Qed.

Lemma dict_get_NoDup_In d k v :
  NoDup (keys d) -> (In (k, v) d <-> dict_get k d = Some v).
Proof.
  intro H. split; [now apply In_dict_get|apply dict_get_In].
Qed.

Lemma In_keys d k : In k (keys d) <-> exists v, dict_get k d = Some v.
Proof.
  rewrite <- dict_get_keys. destruct (dict_get k d) as [v|].
  - split; [eauto|congruence].
  - split; [congruence|]. intros [v H]. discriminate.
Qed.

Lemma length_keys (d : dict) : List.length (keys d) = List.length d.
Proof. unfold keys. apply length_map. Qed.

(** With every key of [l] among the keys of [r], the merged order is as
    long as [r]. *)
Lemma merged_order_length l r :
  NoDup l -> NoDup r -> incl l r ->
  List.length (Stated.merged_order l r) = List.length r.
Proof.
  intros Hl Hr Hincl. unfold Stated.merged_order. rewrite length_app.
  rewrite <- (filter_length (fun k => mem_str k l) r). f_equal.
  apply Permutation_length, NoDup_Permutation;
    [exact Hl|now apply NoDup_filter|].
  intro k. rewrite filter_In, mem_str_In. split; [|tauto].
  intro Hin. split; [now apply Hincl|exact Hin].
Qed.

Section Loop.
Variable rec : value -> value -> value -> string -> M value.
Variables (b r : dict) (path : string).

Local Abbreviation good_key := (Loops.good_key rec b r).

Lemma merge_keys_noop ks :
  (forall k, In k ks -> good_key k) ->
  forall m cs,
  exists m',
    merge_keys rec (VDict b) b r path ks m cs = Ok (m', cs) /\
    keys m' = fold_left add_key ks (keys m) /\
    forall k v,
      dict_get k m' = Some v ->
      (In k ks -> exists rv, dict_get k r = Some rv /\ py_eq v rv = true) /\
      (~ In k ks -> dict_get k m = Some v).
Proof.
  induction ks as [|key rest IH]; intros Hgood m cs.
  - exists m. split; [reflexivity|]. split; [reflexivity|].
    intros k v Hg. split; [intros []|now intros _].
  - destruct (Hgood key (or_introl eq_refl)) as [rv [Hr Hl]].
    assert (Hrest : forall k, In k rest -> good_key k)
      by (intros k Hin; apply Hgood; now right).
    assert (Hstep : exists v0,
               merge_keys rec (VDict b) b r path (key :: rest) m cs
               = merge_keys rec (VDict b) b r path rest (dict_set key v0 m) cs
               /\ py_eq v0 rv = true).
    { cbn [merge_keys]. rewrite Hr.
      destruct (dict_get key b) as [v|] eqn:El.
      - destruct (Hl (key_path path key) cs) as [mv [Hrec He]].
        exists mv. split; [|exact He].
        assert (Ht : truthy (VDict b) = true)
          by (destruct b; [discriminate El|reflexivity]).
        rewrite Ht. unfold bind, lift, Dyn.get. rewrite El, Hrec. reflexivity.
      - exists rv. now split. }
    destruct Hstep as [v0 [Hstep He0]]. rewrite Hstep.
    destruct (IH Hrest (dict_set key v0 m) cs) as [m' [Hm [Hk Hv]]].
    exists m'. split; [exact Hm|]. split.
    + rewrite Hk, keys_dict_set. reflexivity.
    + intros k v Hg. destruct (Hv k v Hg) as [Hin Hout].
      destruct (in_dec string_dec k rest) as [Hi|Hni].
      * split; [intros _; now apply Hin|]. intro Hn. exfalso. apply Hn. now right.
      * specialize (Hout Hni). rewrite dict_get_set in Hout.
        destruct (String.eqb_spec k key) as [->|Hne].
        -- inversion Hout; subst. split; [|intro Hn; exfalso; apply Hn; now left].
           intros _. now exists rv.
        -- split; [intros [E|Hi]; [congruence|contradiction]|now intros _].
Qed.

End Loop.

End NoopFacts.


(* ================================================================== *)
(** * The fuel of [merge] is enough *)

Module FuelFacts.
Import MergeM PreservingYAMLMerger.

Lemma bind_fuel A B (m : M A) (f : A -> M B) cs :
  m cs <> OutOfFuel ->
  (forall a cs', f a cs' <> OutOfFuel) ->
  bind m f cs <> OutOfFuel.
Proof.
  intros Hm Hf. unfold bind. destruct (m cs) as [[a cs']| |].
  - apply Hf.
  - discriminate.
  - contradiction.
Qed.

Lemma lift_fuel A (r : result A) cs : r <> OutOfFuel -> lift r cs <> OutOfFuel.
Proof. unfold lift. destruct r; [discriminate|discriminate|contradiction]. Qed.

Lemma get_fuel base key : Dyn.get base key <> OutOfFuel.
Proof. destruct base; discriminate. Qed.

Lemma contains_fuel key base : Dyn.contains key base <> OutOfFuel.
Proof. destruct base; discriminate. Qed.

Lemma getitem_fuel base key : Dyn.getitem base key <> OutOfFuel.
Proof.
  destruct base; try discriminate. simpl. destruct (dict_get key entries); discriminate.
Qed.

Lemma iter_fuel v : Dyn.iter v <> OutOfFuel.
Proof. destruct v; discriminate. Qed.

Lemma by_name_fuel items acc : Dyn.by_name items acc <> OutOfFuel.
Proof.
  rewrite NamedFacts.by_name_spec.
  destruct (Loops.names_hashable items); discriminate.
Qed.

Section Calls.
Variable py_repr : value -> string.
Variable rec : value -> value -> value -> string -> M value.

Lemma merge_keys_fuel base l r path ks :
  (forall k lv b rv p cs, dict_get k l = Some lv ->
                          rec b lv rv p cs <> OutOfFuel) ->
  forall m cs, merge_keys rec base l r path ks m cs <> OutOfFuel.
Proof.
  intro Hrec. induction ks as [|key rest IH]; intros m cs; [discriminate|].
  cbn [merge_keys].
  destruct (dict_get key l) as [lv|] eqn:El, (dict_get key r) as [rv|].
  - apply bind_fuel.
    + destruct (truthy base); [apply lift_fuel, get_fuel|discriminate].
    + intros b cs1. apply bind_fuel; [now apply (Hrec key)|].
      intros v cs2. apply IH.
  - apply bind_fuel; [apply lift_fuel, contains_fuel|].
    intros in_base cs1. apply bind_fuel; [|intros _ cs2; apply IH].
    destruct in_base; [|discriminate].
    apply bind_fuel; [apply lift_fuel, getitem_fuel|]. discriminate.
  - apply IH.
  - discriminate.
Qed.

Lemma merge_local_items_fuel bbn rbn path local :
  (forall item b rv p cs, In item local -> rec b item rv p cs <> OutOfFuel) ->
  forall merged seen cs,
    merge_local_items py_repr rec bbn rbn path local merged seen cs
    <> OutOfFuel.
Proof.
  induction local as [|item rest IH]; intros Hrec merged seen cs; [discriminate|].
  assert (Hrest : forall merged seen cs,
             merge_local_items py_repr rec bbn rbn path rest merged seen cs
             <> OutOfFuel).
  { apply IH. intros i b rv p cs0 Hin. apply Hrec. now right. }
  cbn [merge_local_items].
  destruct (is_dict item); [|apply Hrest].
  destruct (truthy (Dyn.item_name item)); [|apply Hrest].
  destruct (Dyn.names_get (Dyn.item_name item) rbn); [|apply Hrest].
  apply bind_fuel; [apply Hrec; now left|]. intros mi cs1. apply Hrest.
Qed.

Lemma merge_lists_fuel base local remote path cs :
  (forall item b rv p cs, In item local -> rec b item rv p cs <> OutOfFuel) ->
  _merge_lists py_repr rec base local remote path cs <> OutOfFuel.
Proof.
  intro Hrec. unfold _merge_lists.
  destruct (_is_named_list local || _is_named_list remote).
  - unfold _merge_named_lists.
    apply bind_fuel; [apply lift_fuel, iter_fuel|intros bi cs1].
    apply bind_fuel; [apply lift_fuel, by_name_fuel|intros bbn cs2].
    apply bind_fuel; [apply lift_fuel, by_name_fuel|intros lbn cs3].
    apply bind_fuel; [apply lift_fuel, by_name_fuel|intros rbn cs4].
    apply bind_fuel; [now apply merge_local_items_fuel|]. discriminate.
  - destruct (py_ne (VList local) base && py_ne (VList remote) base
              && py_ne (VList local) (VList remote)); [discriminate|].
    destruct (py_ne (VList local) base); discriminate.
Qed.

End Calls.

Lemma deep_merge_fuel py_repr cm fuel :
  forall B L R path cs,
    height L < fuel ->
    _deep_merge py_repr cm fuel B L R path cs <> OutOfFuel.
Proof.
  induction fuel as [|fuel IH]; intros B L R path cs Hh; [inversion Hh|].
  cbn [_deep_merge].
  destruct (py_eq L R); [discriminate|].
  destruct (is_dict L && is_dict R) eqn:Ed.
  - destruct L as [| | | | | |l]; try discriminate Ed.
    unfold _merge_dicts. apply bind_fuel; [|discriminate].
    apply merge_keys_fuel. intros k lv b rv p cs0 Hg. apply IH.
    pose proof (height_get l k lv Hg). lia.
  - destruct (is_list L && is_list R) eqn:El.
    + destruct L as [| | | | |l|]; try discriminate El.
      apply merge_lists_fuel. intros item b rv p cs0 Hin. apply IH.
      pose proof (height_item l item Hin). lia.
    + destruct (py_ne L R); [|discriminate].
      destruct (py_eq B L); [discriminate|].
      destruct (py_eq B R); discriminate.
Qed.

(** [merge] returns a merged tree with its conflicts, or raises. *)
Lemma merge_returns_or_raises py_repr cm B L R :
  (exists M conflicts, merge py_repr cm B L R = Ok (M, conflicts)) \/
  (exists e, merge py_repr cm B L R = Raise e).
Proof.
  pose proof (deep_merge_fuel py_repr cm (S (height L)) B L R "" []
                (Nat.lt_succ_diag_r _)) as H.
  unfold merge. destruct (_deep_merge _ _ _ _ _ _ _ _) as [[M cs]|e|].
  - left. eauto.
  - right. eauto.
  - contradiction.
Qed.

(** It does raise: a base that holds a scalar where both sides hold
    unequal mappings with a common key has no [get]. *)
Lemma merge_raises_on_scalar_base :
  merge (fun _ => "") true
        (VDict [("a", VInt 5)])
        (VDict [("a", VDict [("x", VInt 1)])])
        (VDict [("a", VDict [("x", VInt 2)])])
  = Raise AttributeError.
Proof. reflexivity. Qed.

End FuelFacts.

(* ================================================================== *)
(** * The fuel of [re_split] is enough *)

Module HelmFacts.
Import HelmTemplateMerger.

Lemma match_body_shorter s body rest :
  match_body s = Some (body, rest) -> String.length rest < String.length s.
Proof.
  revert body. induction s as [|c s IH]; intros body H; [discriminate H|].
  cbn [match_body] in H. destruct (Ascii.eqb c rbrace).
  - destruct s as [|c' s']; [discriminate H|].
    destruct (Ascii.eqb c' rbrace); [|discriminate H].
    inversion H; subst. simpl. lia.
  - destruct (match_body s) as [[b r]|]; [|discriminate H].
    inversion H; subst. specialize (IH b eq_refl). simpl. lia.
Qed.

Lemma match_directive_shorter s d rest :
  match_directive s = Some (d, rest) -> String.length rest < String.length s.
Proof.
  unfold match_directive. destruct s as [|c1 [|c2 s]]; try discriminate.
  destruct (Ascii.eqb c1 lbrace && Ascii.eqb c2 lbrace); [|discriminate].
  destruct (match_body s) as [[b r]|] eqn:E; [|discriminate].
  intros [= _ <-]. apply match_body_shorter in E. simpl. lia.
Qed.

(** Any two amounts of fuel above the length of the text give the same
    parts. *)
Lemma split_parts_fuel fuel1 :
  forall fuel2 s text,
    String.length s < fuel1 -> String.length s < fuel2 ->
    split_parts fuel1 s text = split_parts fuel2 s text.
Proof.
  induction fuel1 as [|fuel1 IH]; intros fuel2 s text H1 H2; [inversion H1|].
  destruct fuel2 as [|fuel2]; [inversion H2|].
  cbn [split_parts].
  destruct (match_directive s) as [[d rest]|] eqn:E.
  - apply match_directive_shorter in E. do 2 f_equal. apply IH; lia.
  - destruct s as [|c s]; [reflexivity|]. simpl in H1, H2. apply IH; lia.
Qed.

End HelmFacts.

(* ================================================================== *)
(** * The scenarios of section 8, evaluated *)

Module Scenarios.

Local Abbreviation merge := (PreservingYAMLMerger.merge (fun _ => "") true).

Definition policy (name level : string) : value :=
  VDict [("name", VStr name); ("level", VStr level)].

Definition policies (items : list value) : value :=
  VDict [("policies", VList items)].

(** S1, a remote-only addition. *)
Example S1_remote_only_addition :
  merge (VDict [("a", VInt 1)]) (VDict [("a", VInt 1)])
        (VDict [("a", VInt 1); ("b", VInt 2)])
  = Ok (VDict [("a", VInt 1); ("b", VInt 2)], []).
Proof. reflexivity. Qed.

(** S2, a local-only edit. *)
Example S2_local_only_edit :
  merge (VDict [("timeout", VInt 30)]) (VDict [("timeout", VInt 60)])
        (VDict [("timeout", VInt 30)])
  = Ok (VDict [("timeout", VInt 60)], []).
Proof. reflexivity. Qed.

(** S4, a named-list merge. *)
Example S4_named_list_merge :
  merge (policies [policy "a" "low"])
        (policies [policy "a" "high"; policy "b" "low"])
        (policies [policy "a" "low"; policy "c" "low"])
  = Ok (policies [policy "a" "high"; policy "b" "low"; policy "c" "low"], []).
Proof. reflexivity. Qed.

(** S6, templated text whose structure diverges: four blocks against
    five.  The local text is the base, so the conflict is auto-resolvable;
    the output is the local text all the same. *)
Example S6_structural_divergence :
  let base := "a: {{ .a }} b: {{ .b }}" in
  let local := "a: {{ .a }} b: {{ .b }}" in
  let remote := "a: {{ .a }} b: {{ .b }} c" in
  HelmTemplateMerger.merge_template base local remote
  = (local,
     [MergeConflict.mk "entire_file" (VStr base) (VStr local) (VStr remote)
                       (Some "take_remote") true]).
Proof. vm_compute. reflexivity. Qed.

End Scenarios.

(* ================================================================== *)
(** * Templates: what [extract_blocks] keeps, what [merge_template] returns *)

Module HelmMore.
Import HelmTemplateMerger Utf8.

Lemma str_app_assoc (a b c : string) :
  ((a ++ b) ++ c)%string = (a ++ (b ++ c))%string.
Proof. induction a as [|x a IH]; simpl; [reflexivity|now rewrite IH]. Qed.

Lemma str_app_nil_r (a : string) : (a ++ "")%string = a.
Proof. induction a as [|x a IH]; simpl; [reflexivity|now rewrite IH]. Qed.

Lemma concat_cons (a : string) (l : list string) :
  String.concat "" (a :: l) = (a ++ String.concat "" l)%string.
Proof. destruct l; simpl; [now rewrite str_app_nil_r|reflexivity]. Qed.

(** A match is a prefix of the text it was found in. *)
Lemma match_body_sound s body rest :
  match_body s = Some (body, rest) -> s = (body ++ "}}" ++ rest)%string.
Proof.
  revert body. induction s as [|c s IH]; intros body H; [discriminate H|].
  cbn [match_body] in H. destruct (Ascii.eqb_spec c rbrace) as [->|Hc].
  - destruct s as [|c' s']; [discriminate H|].
    destruct (Ascii.eqb_spec c' rbrace) as [->|Hc']; [|discriminate H].
    inversion H; subst. reflexivity.
  - destruct (match_body s) as [[b r]|]; [|discriminate H].
    inversion H; subst. simpl. f_equal. now apply IH.
Qed.

Lemma match_directive_sound s d rest :
  match_directive s = Some (d, rest) -> s = (d ++ rest)%string.
Proof.
  unfold match_directive. destruct s as [|c1 [|c2 s]]; try discriminate.
  destruct (Ascii.eqb_spec c1 lbrace) as [->|]; [|discriminate].
  destruct (Ascii.eqb_spec c2 lbrace) as [->|]; [|discriminate].
  cbn [andb]. destruct (match_body s) as [[b r]|] eqn:E; [|discriminate].
  intros [= <- <-]. apply match_body_sound in E. subst s.
  simpl. now rewrite str_app_assoc.
Qed.

(** A directive opens with a brace, which is not white space. *)
Lemma match_directive_nonblank s d rest :
  match_directive s = Some (d, rest) -> strip_nonempty d = true.
Proof.
  unfold match_directive. destruct s as [|c1 [|c2 s]]; try discriminate.
  destruct (Ascii.eqb c1 lbrace && Ascii.eqb c2 lbrace); [|discriminate].
  destruct (match_body s) as [[b r]|]; [|discriminate].
  intros [= <- _]. destruct b; reflexivity.
Qed.

Lemma split_parts_concat fuel :
  forall s text,
    String.length s < fuel ->
    String.concat "" (split_parts fuel s text) = (text ++ s)%string.
Proof.
  induction fuel as [|fuel IH]; intros s text Hlen; [inversion Hlen|].
  cbn [split_parts].
  destruct (match_directive s) as [[d rest]|] eqn:E.
  - pose proof (HelmFacts.match_directive_shorter _ _ _ E) as Hshort.
    apply match_directive_sound in E. subst s.
    rewrite !concat_cons, IH by lia. reflexivity.
  - destruct s as [|c s]; [simpl; now rewrite str_app_nil_r|].
    simpl in Hlen. rewrite IH by lia. now rewrite str_app_assoc.
Qed.

(** The parts at odd positions are the directives, so the blocks are the
    parts that are not blank. *)
Lemma blocks_of_split_parts fuel :
  forall s text i,
    Nat.even i = true ->
    map snd (blocks_of_parts i (split_parts fuel s text))
    = filter strip_nonempty (split_parts fuel s text).
Proof.
  induction fuel as [|fuel IH]; intros s text i Hi.
  - simpl. rewrite Hi. destruct (strip_nonempty text); reflexivity.
  - cbn [split_parts].
    destruct (match_directive s) as [[d rest]|] eqn:E.
    + apply match_directive_nonblank in E.
      assert (Hodd : Nat.even (S i) = false).
      { rewrite Nat.even_succ, <- Nat.negb_even, Hi. reflexivity. }
      cbn [blocks_of_parts filter]. rewrite Hi, Hodd, E.
      destruct (strip_nonempty text); cbn [map snd]; f_equal;
        try f_equal; apply IH; exact Hi.
    + destruct s as [|c s]; [|now apply IH].
      simpl. rewrite Hi. destruct (strip_nonempty text); reflexivity.
Qed.

Lemma block_eqb_refl b : block_eqb b b = true.
Proof.
  unfold block_eqb. rewrite String.eqb_refl.
  destruct (fst b); reflexivity.
Qed.

Lemma block_eqb_text a b : block_eqb a b = true -> snd a = snd b.
Proof.
  unfold block_eqb. intro H. apply andb_prop in H.
  now apply String.eqb_eq.
Qed.

Section Blocks.
Variable base_blocks : list block.

(** Both sides the same: one text for each triple that [zip] yields. *)
Lemma merge_blocks_same bs :
  forall i ls merged cs,
    merge_blocks base_blocks i (zip3 bs ls ls) merged cs
    = (merged ++ map snd (firstn (List.length bs) ls), cs).
Proof.
  induction bs as [|b bs IH]; intros i ls merged cs.
  - simpl. now rewrite app_nil_r.
  - destruct ls as [|l ls]; [simpl; now rewrite app_nil_r|].
    cbn [zip3 merge_blocks]. rewrite block_eqb_refl, IH.
    simpl. now rewrite <- app_assoc.
Qed.

(** The local side is the base: the remote texts. *)
Lemma merge_blocks_local_is_base ls :
  forall i rs merged cs,
    List.length ls = List.length rs ->
    merge_blocks base_blocks i (zip3 ls ls rs) merged cs
    = (merged ++ map snd rs, cs).
Proof.
  induction ls as [|l ls IH]; intros i rs merged cs Hlen.
  - destruct rs; [|discriminate Hlen]. simpl. now rewrite app_nil_r.
  - destruct rs as [|r rs]; [discriminate Hlen|].
    cbn [zip3 merge_blocks]. injection Hlen as Hlen.
    destruct (block_eqb l r) eqn:E.
    + apply block_eqb_text in E. rewrite E, IH by exact Hlen.
      simpl. now rewrite <- app_assoc.
    + rewrite block_eqb_refl, IH by exact Hlen.
      simpl. now rewrite <- app_assoc.
Qed.

(** The remote side is the base: the local texts. *)
Lemma merge_blocks_remote_is_base bs :
  forall i ls merged cs,
    List.length bs = List.length ls ->
    merge_blocks base_blocks i (zip3 bs ls bs) merged cs
    = (merged ++ map snd ls, cs).
Proof.
  induction bs as [|b bs IH]; intros i ls merged cs Hlen.
  - destruct ls; [|discriminate Hlen]. simpl. now rewrite app_nil_r.
  - destruct ls as [|l ls]; [discriminate Hlen|].
    cbn [zip3 merge_blocks]. injection Hlen as Hlen.
    destruct (block_eqb l b) eqn:E.
    + rewrite IH by exact Hlen. simpl. now rewrite <- app_assoc.
    + rewrite block_eqb_refl, IH by exact Hlen.
      simpl. now rewrite <- app_assoc.
Qed.
End Blocks.

Lemma extract_blocks_texts content :
  map snd (extract_blocks content) = filter strip_nonempty (re_split content).
Proof. apply blocks_of_split_parts. reflexivity. Qed.

Lemma re_split_concat content : String.concat "" (re_split content) = content.
Proof. unfold re_split. rewrite split_parts_concat; [reflexivity|lia]. Qed.

Lemma read_missing decode p fs :
  FS.lookup p fs = None ->
  TemplateUpgrader.read_text_if_exists decode p fs
  = (TemplateUpgrader.Done "", fs).
Proof.
  intro H. unfold TemplateUpgrader.read_text_if_exists, TemplateUpgrader.bind,
    TemplateUpgrader.exists_.
  now rewrite H.
Qed.

Lemma read_file decode p fs c :
  FS.lookup p fs = Some (FS.File c) ->
  TemplateUpgrader.read_text_if_exists decode p fs = (decode c, fs).
Proof.
  intro H. unfold TemplateUpgrader.read_text_if_exists, TemplateUpgrader.bind,
    TemplateUpgrader.exists_.
  rewrite H. unfold TemplateUpgrader.read_decoded, TemplateUpgrader.bind,
    TemplateUpgrader.read_text, TemplateUpgrader.lift.
  now rewrite H.
Qed.

Lemma unicode_spaces_are_blank :
  forallb (fun s => negb (strip_nonempty s))
          [utf8_2 194 133; nbsp; utf8_3 225 154 128; utf8_3 226 128 128;
           utf8_3 226 128 138; utf8_3 226 128 168; utf8_3 226 128 169;
           utf8_3 226 128 175; utf8_3 226 129 159; utf8_3 227 128 128;
           (" " ++ nbsp ++ utf8_3 226 128 168 ++ nl)%string]
  = true /\
  forallb strip_nonempty
          [utf8_2 194 134; utf8_2 195 160; utf8_3 226 128 139;
           utf8_3 226 128 167; utf8_3 226 129 160; utf8_3 227 128 129;
           (nbsp ++ "x")%string; (utf8_3 227 128 128 ++ utf8_2 195 169)%string]
  = true.
Proof. split; reflexivity. Qed.

(** ** [strip_nonempty] on UTF-8 text is [str.strip()] on the characters *)

Lemma passes_app s r :
  passes s = true -> strip_nonempty (s ++ r) = strip_nonempty r.
Proof.
  destruct s as [|c [|d [|e [|f s]]]]; cbn [passes]; try discriminate.
  - intro H. cbn [String.append strip_nonempty]. now rewrite H.
  - intro H. apply andb_prop in H as [Hc Hd]. apply negb_true_iff in Hc.
    cbn [String.append strip_nonempty]. now rewrite Hc, Hd.
  - intro H. apply andb_prop in H as [H He]. apply andb_prop in H as [Hc Hd].
    apply negb_true_iff in Hc. apply negb_true_iff in Hd.
    cbn [String.append strip_nonempty]. now rewrite Hc, Hd, He.
Qed.

Lemma stops_app s r : stops s = true -> strip_nonempty (s ++ r) = true.
Proof.
  destruct s as [|c s1]; [discriminate|]. cbn [stops].
  intro H. apply andb_prop in H as [Hc H]. apply negb_true_iff in Hc.
  cbn [String.append strip_nonempty]. rewrite Hc.
  destruct (Nat.eqb (nat_of_ascii c) 194) eqn:E2.
  - destruct s1 as [|d s2]; [discriminate H|]. apply negb_true_iff in H.
    cbn [String.append]. rewrite H.
    apply Nat.eqb_eq in E2.
    destruct (s2 ++ r)%string as [|e s3]; [reflexivity|].
    unfold is_space3. rewrite E2. reflexivity.
  - assert (H2 : forall d, is_space2 c d = false)
      by (intro d; unfold is_space2; now rewrite E2).
    destruct (Nat.leb 225 (nat_of_ascii c) && Nat.leb (nat_of_ascii c) 227)
      eqn:E3.
    + destruct s1 as [|d [|e s3]]; try discriminate H.
      apply negb_true_iff in H. cbn [String.append]. now rewrite H2, H.
    + destruct (s1 ++ r)%string as [|d s2]; [reflexivity|]. rewrite H2.
      destruct s2 as [|e s3]; [reflexivity|].
      assert (H3 : is_space3 c d e = false).
      { unfold is_space3.
        destruct (Nat.eqb_spec (nat_of_ascii c) 225) as [E|_];
          [rewrite E in E3; discriminate E3|].
        destruct (Nat.eqb_spec (nat_of_ascii c) 226) as [E|_];
          [rewrite E in E3; discriminate E3|].
        destruct (Nat.eqb_spec (nat_of_ascii c) 227) as [E|_];
          [rewrite E in E3; discriminate E3|].
        reflexivity. }
      now rewrite H3.
Qed.

Lemma all_from_spec f fuel : forall start cp,
  all_from fuel start f = true ->
  (start <= cp)%N -> (cp < start + N.of_nat fuel)%N -> f cp = true.
Proof.
  induction fuel as [|fuel IH]; intros start cp H Hle Hlt; [lia|].
  cbn [all_from] in H. apply andb_prop in H as [H0 H].
  destruct (N.eq_dec cp start) as [->|Hne]; [exact H0|].
  apply (IH (N.succ start) cp H); lia.
Qed.

Lemma agrees_below : all_from (N.to_nat 65536) 0 agrees = true.
Proof. vm_compute. reflexivity. Qed.

Lemma agrees_all cp : (cp < 1114112)%N -> agrees cp = true.
Proof.
  intro Hlt. destruct (N.ltb_spec cp 65536) as [Hs|Hb].
  - apply (all_from_spec agrees (N.to_nat 65536) 0 cp agrees_below); lia.
  - assert (Hsp : isspace cp = false).
    { unfold isspace.
      repeat match goal with
             | |- context [N.leb ?a ?b] => destruct (N.leb_spec a b); try lia
             | |- context [N.eqb ?a ?b] => destruct (N.eqb_spec a b); try lia
             end; reflexivity. }
    unfold agrees. rewrite Hsp. unfold encode.
    destruct (N.ltb_spec cp 128); [lia|].
    destruct (N.ltb_spec cp 2048); [lia|].
    destruct (N.ltb_spec cp 65536); [lia|].
    assert (Hq : (cp / 262144 < 5)%N)
      by (apply N.Div0.div_lt_upper_bound; lia).
    revert Hq. generalize (cp / 262144)%N. intros q Hq.
    assert (Hc : q = 0%N \/ q = 1%N \/ q = 2%N \/ q = 3%N \/ q = 4%N) by lia.
    destruct Hc as [-> |[-> |[-> |[-> | ->]]]]; reflexivity.
Qed.

(** A text is kept as a static block exactly when one of its characters
    is not white space for [str.isspace()]. *)
Lemma strip_nonempty_utf8 cps :
  Forall (fun cp => (cp < 1114112)%N) cps ->
  strip_nonempty (encode_text cps)
  = existsb (fun cp => negb (isspace cp)) cps.
Proof.
  intro H. induction H as [|cp cps Hcp _ IH]; [reflexivity|].
  cbn [encode_text existsb]. pose proof (agrees_all cp Hcp) as Ha.
  unfold agrees in Ha. destruct (isspace cp); cbn [negb orb].
  - now rewrite passes_app.
  - now apply stops_app.
Qed.

(** A part that holds a no-break space only is no block. *)
Lemma blank_part_between_directives :
  extract_blocks ("a{{ x }}" ++ nbsp ++ "{{ y }}")%string
  = [(static, "a"); (template, "{{ x }}"); (template, "{{ y }}")] /\
  merge_template ("a{{ x }}" ++ nbsp ++ "{{ y }}")%string
                 ("a{{ x }}" ++ nbsp ++ "{{ y }}")%string
                 ("a{{ x }}" ++ nbsp ++ "{{ y }}")%string
  = ("a{{ x }}{{ y }}", []) /\
  merge_template "a{{ x }}" (nbsp ++ "{{ y }}z")%string (nbsp ++ "{{ y }}z")%string
  = ("{{ y }}z", []) /\
  merge_template "a{{ x }}b{{ y }}" "a{{ x }}b{{ y }}"
                 ("a{{ x }}" ++ nbsp ++ "{{ y }}")%string
  = ("a{{ x }}b{{ y }}",
     [MergeConflict.mk "entire_file" (VStr "a{{ x }}b{{ y }}")
        (VStr "a{{ x }}b{{ y }}")
        (VStr ("a{{ x }}" ++ nbsp ++ "{{ y }}")%string)
        (Some "take_remote") true]).
Proof. repeat split; reflexivity. Qed.

End HelmMore.

(** X1.  [HelmTemplateMerger.merge_template] on three identical texts
    reports no conflict and returns the parts of the text that are not
    blank, joined: the parts that [re.split] yields make up the text, and
    those that consist of white space only are left out of the result. *)
Theorem X1_template_merged_with_itself :
  forall t : string,
    String.concat "" (HelmTemplateMerger.re_split t) = t /\
    HelmTemplateMerger.merge_template t t t
    = (String.concat ""
         (filter HelmTemplateMerger.strip_nonempty
                 (HelmTemplateMerger.re_split t)),
       []).
Proof.
  intro t. split; [apply HelmMore.re_split_concat|].
  unfold HelmTemplateMerger.merge_template.
  rewrite Nat.eqb_refl, HelmMore.merge_blocks_same, firstn_all.
  now rewrite HelmMore.extract_blocks_texts.
Qed.

(** X2.  When the local and the remote text are the same,
    [merge_template] never reports a conflict, and what it returns is cut
    to the number of blocks of the base: the texts of the first
    [len(base_blocks)] blocks of the common text, joined. *)
Theorem X2_template_equal_sides_cut_to_base :
  forall base t : string,
    HelmTemplateMerger.merge_template base t t
    = (String.concat ""
         (map snd
              (firstn (List.length (HelmTemplateMerger.extract_blocks base))
                      (HelmTemplateMerger.extract_blocks t))),
       []).
Proof.
  intros base t. unfold HelmTemplateMerger.merge_template.
  now rewrite Nat.eqb_refl, HelmMore.merge_blocks_same.
Qed.

(** X3.  A change on one side only: when [t] has as many blocks as the
    base [b], merging with the local text equal to the base, or with the
    remote text equal to the base, returns the block texts of [t] joined
    and no conflict. *)
Theorem X3_template_one_sided_change :
  forall b t : string,
    List.length (HelmTemplateMerger.extract_blocks b)
    = List.length (HelmTemplateMerger.extract_blocks t) ->
    HelmTemplateMerger.merge_template b b t
    = (String.concat "" (map snd (HelmTemplateMerger.extract_blocks t)), [])
    /\
    HelmTemplateMerger.merge_template b t b
    = (String.concat "" (map snd (HelmTemplateMerger.extract_blocks t)), []).
Proof.
  intros b t Hlen. unfold HelmTemplateMerger.merge_template. split.
  - rewrite Hlen, Nat.eqb_refl.
    now rewrite HelmMore.merge_blocks_local_is_base.
  - rewrite <- Hlen, Nat.eqb_refl.
    now rewrite HelmMore.merge_blocks_remote_is_base.
Qed.

Lemma X3_template_one_sided_change_witness :
  HelmTemplateMerger.merge_template "replicas: {{ .n }}" "replicas: {{ .n }}"
                                    "count: {{ .n }}"
  = (String.concat ""
       (map snd (HelmTemplateMerger.extract_blocks "count: {{ .n }}")), [])
  /\
  HelmTemplateMerger.merge_template "replicas: {{ .n }}" "count: {{ .n }}"
                                    "replicas: {{ .n }}"
  = (String.concat ""
       (map snd (HelmTemplateMerger.extract_blocks "count: {{ .n }}")), []).
Proof.
  apply (X3_template_one_sided_change "replicas: {{ .n }}" "count: {{ .n }}").
  reflexivity.
Defined.

(** X4.  [TemplateUpgrader.merge_helm_template] with no file at the base
    path: when the local and the remote file decode, and the two texts
    have the same number of blocks, the merged text is empty and there is
    no conflict, whatever the two texts are; the tree is only read.  When
    the local file does not decode, or the local file decodes and the
    remote one does not, the exception of the decoder is raised. *)
Theorem X4_converter_without_base_is_emptied :
  forall (decode : string -> TemplateUpgrader.outcome string)
         (base_path local_path remote_path : FS.path) (fs : FS.node)
         (local_bytes remote_bytes : string),
    FS.lookup base_path fs = None ->
    FS.lookup local_path fs = Some (FS.File local_bytes) ->
    FS.lookup remote_path fs = Some (FS.File remote_bytes) ->
    (forall local remote : string,
        decode local_bytes = TemplateUpgrader.Done local ->
        decode remote_bytes = TemplateUpgrader.Done remote ->
        List.length (HelmTemplateMerger.extract_blocks local)
        = List.length (HelmTemplateMerger.extract_blocks remote) ->
        TemplateUpgrader.merge_helm_template decode base_path local_path
                                             remote_path fs
        = (TemplateUpgrader.Done ("", []), fs))
    /\
    (forall e,
        decode local_bytes = TemplateUpgrader.Raised e ->
        TemplateUpgrader.merge_helm_template decode base_path local_path
                                             remote_path fs
        = (TemplateUpgrader.Raised e, fs))
    /\
    (forall local e,
        decode local_bytes = TemplateUpgrader.Done local ->
        decode remote_bytes = TemplateUpgrader.Raised e ->
        TemplateUpgrader.merge_helm_template decode base_path local_path
                                             remote_path fs
        = (TemplateUpgrader.Raised e, fs)).
Proof.
  intros decode bp lp rp fs l r Hb Hl Hr.
  unfold TemplateUpgrader.merge_helm_template, TemplateUpgrader.bind.
  rewrite (HelmMore.read_missing decode bp fs Hb).
  rewrite (HelmMore.read_file decode lp fs l Hl).
  repeat split.
  - intros local remote Dl Dr Hlen. rewrite Dl.
    rewrite (HelmMore.read_file decode rp fs r Hr), Dr.
    unfold TemplateUpgrader.ret, HelmTemplateMerger.merge_template.
    rewrite Hlen, Nat.eqb_refl. reflexivity.
  - intros e Dl. rewrite Dl. reflexivity.
  - intros local e Dl Dr. rewrite Dl.
    rewrite (HelmMore.read_file decode rp fs r Hr), Dr. reflexivity.
Qed.

Lemma X4_converter_without_base_is_emptied_witness :
  TemplateUpgrader.merge_helm_template Upgrade.decode
    ["base"; "converters"; "logging.yaml"]
    ["stack"; "converters"; "logging.yaml"]
    ["remote"; "converters"; "logging.yaml"]
    Upgrade.converters_tree
  = (TemplateUpgrader.Done ("", []), Upgrade.converters_tree).
Proof.
  apply (proj1 (X4_converter_without_base_is_emptied Upgrade.decode
           ["base"; "converters"; "logging.yaml"]
           ["stack"; "converters"; "logging.yaml"]
           ["remote"; "converters"; "logging.yaml"]
           Upgrade.converters_tree
           "level: {{ .l }}" "lvl: {{ .l }}" eq_refl eq_refl eq_refl)
           "level: {{ .l }}" "lvl: {{ .l }}"); reflexivity.
Defined.

(* ================================================================== *)
(** * The apply stage: what a completed run leaves in the tree *)

Module FrameFacts.
Import FS TemplateUpgrader FSFacts Frame.
Local Open Scope io_scope.

Lemma put_apart p :
  forall q n fs fs',
    apart p q = true -> put p n fs = Some fs' -> lookup q fs' = lookup q fs.
Proof.
  induction p as [|x p IH]; intros q n fs fs' Ha Hput; [discriminate Ha|].
  destruct q as [|y q]; [discriminate Ha|].
  destruct fs as [s|es]; [discriminate Hput|].
  cbn [apart] in Ha. destruct p as [|x' p'].
  - cbn [put] in Hput. inversion Hput; subst.
    destruct (String.eqb_spec x y) as [->|Hne]; [discriminate Ha|].
    cbn [lookup]. now rewrite child_set_child_other.
  - rewrite put_below in Hput.
    destruct (child x es) as [c|] eqn:Ec; [|discriminate Hput].
    destruct (put (x' :: p') n c) as [c'|] eqn:E; [|discriminate Hput].
    inversion Hput; subst. cbn [lookup].
    destruct (String.eqb_spec x y) as [->|Hne].
    + rewrite child_set_child_same, Ec. eapply IH; eassumption.
    + now rewrite child_set_child_other.
Qed.

Lemma delete_apart p :
  forall q fs fs',
    apart p q = true -> delete p fs = Some fs' -> lookup q fs' = lookup q fs.
Proof.
  induction p as [|x p IH]; intros q fs fs' Ha Hdel; [discriminate Ha|].
  destruct q as [|y q]; [discriminate Ha|].
  destruct fs as [s|es]; [discriminate Hdel|].
  cbn [apart] in Ha. destruct p as [|x' p'].
  - cbn [delete] in Hdel. inversion Hdel; subst.
    destruct (String.eqb_spec x y) as [->|Hne]; [discriminate Ha|].
    cbn [lookup]. now rewrite child_remove_other.
  - rewrite delete_below in Hdel.
    destruct (child x es) as [c|] eqn:Ec; [|discriminate Hdel].
    destruct (delete (x' :: p') c) as [c'|] eqn:E; [|discriminate Hdel].
    inversion Hdel; subst. cbn [lookup].
    destruct (String.eqb_spec x y) as [->|Hne].
    + rewrite child_set_child_same, Ec. eapply IH; eassumption.
    + now rewrite child_set_child_other.
Qed.

(** Paths that part ways still do when the first is extended. *)
Lemma apart_app p : forall q r, apart p q = true -> apart (p ++ r) q = true.
Proof.
  induction p as [|x p IH]; intros [|y q] r H; try discriminate H.
  cbn [app apart] in *. destruct (String.eqb x y); [now apply IH|reflexivity].
Qed.

Lemma backup_eqb name : String.eqb (backup_name name) name = false.
Proof.
  apply String.eqb_neq. intro E. now apply (backup_name_differs name).
Qed.

Section Leaves.
Variable q : path.

Local Abbreviation leaves := (Frame.leaves q).

Lemma leaves_eq A (m : IO A) fs o fs' :
  leaves m -> m fs = (o, fs') -> lookup q fs' = lookup q fs.
Proof. intros H E. specialize (H fs). now rewrite E in H. Qed.

Lemma leaves_ret A (a : A) : leaves (ret a).
Proof. intro fs. reflexivity. Qed.

Lemma leaves_raise A e : leaves (@raise A e).
Proof. intro fs. reflexivity. Qed.

Lemma leaves_lift A (o : outcome A) : leaves (lift o).
Proof. intro fs. reflexivity. Qed.

Lemma leaves_exists p : leaves (exists_ p).
Proof. intro fs. reflexivity. Qed.

Lemma leaves_read_text p : leaves (read_text p).
Proof.
  intro fs. unfold read_text. destruct (lookup p fs) as [[c|es]|]; reflexivity.
Qed.

Lemma leaves_bind A B (m : IO A) (f : A -> IO B) :
  leaves m -> (forall a, leaves (f a)) -> leaves (bind m f).
Proof.
  intros Hm Hf fs. unfold bind. specialize (Hm fs).
  destruct (m fs) as [[a|e] fs1]; simpl in *; [|exact Hm].
  now rewrite (Hf a fs1).
Qed.

Lemma leaves_try_except A (body : IO A) (handler : exn -> IO A) :
  leaves body -> (forall e, leaves (handler e)) ->
  leaves (try_except body handler).
Proof.
  intros Hb Hh fs. unfold try_except. specialize (Hb fs).
  destruct (body fs) as [[a|e] fs1]; simpl in *; [exact Hb|].
  now rewrite (Hh e fs1).
Qed.

Lemma leaves_store p n : apart p q = true -> leaves (store p n).
Proof.
  intros Ha fs. unfold store.
  destruct (put p n fs) as [fs'|] eqn:E; simpl; [|reflexivity].
  eapply put_apart; eassumption.
Qed.

Lemma leaves_unlink p : apart p q = true -> leaves (unlink p).
Proof.
  intros Ha fs. unfold unlink.
  destruct (delete p fs) as [fs'|] eqn:E; simpl; [|reflexivity].
  eapply delete_apart; eassumption.
Qed.

Lemma leaves_write_text p s : apart p q = true -> leaves (write_text p s).
Proof.
  intros Ha fs. unfold write_text.
  destruct (lookup p fs) as [[c|es]|]; try reflexivity; now apply leaves_store.
Qed.

Lemma leaves_mkdir p : apart p q = true -> leaves (mkdir_exist_ok p).
Proof.
  intros Ha fs. unfold mkdir_exist_ok.
  destruct (lookup p fs) as [[c|es]|]; try reflexivity; now apply leaves_store.
Qed.

Lemma leaves_rmtree p : apart p q = true -> leaves (rmtree p).
Proof.
  intros Ha fs. unfold rmtree.
  destruct (lookup p fs) as [[c|es]|]; try reflexivity; now apply leaves_unlink.
Qed.

Lemma leaves_copytree_node src src_name p :
  apart p q = true -> leaves (copytree_node src src_name p).
Proof.
  intros Ha fs. unfold copytree_node.
  destruct src as [[c|es]|]; try reflexivity.
  destruct (lookup p fs); [reflexivity|now apply leaves_store].
Qed.

Lemma leaves_copytree src dst : apart dst q = true -> leaves (copytree src dst).
Proof. intros Ha fs. unfold copytree. now apply leaves_copytree_node. Qed.

Lemma leaves_copy2_node src src_name p :
  apart p q = true -> leaves (copy2_node src src_name p).
Proof.
  intro Ha. destruct src; simpl; [now apply leaves_write_text|apply leaves_raise].
Qed.

Lemma leaves_move src dst :
  apart src q = true -> apart dst q = true -> leaves (move src dst).
Proof.
  intros Hs Hd fs. unfold move.
  destruct (lookup src fs) as [n|]; [|reflexivity].
  destruct (lookup dst fs) as [[c|es]|].
  - reflexivity.
  - destruct (lookup (dst ++ [last src ""]) fs); [reflexivity|].
    apply leaves_bind; [now apply leaves_unlink|intros _].
    apply leaves_store. now apply apart_app.
  - apply leaves_bind; [now apply leaves_unlink|intros _].
    now apply leaves_store.
Qed.

Section Steps.
Variable py_repr : value -> string.
Variable global_str : string -> string.
Variable apply_resolution_to_values :
  value -> list MergeConflict.t -> outcome (value * list MergeConflict.t).
Variable conflicted_text : string -> list MergeConflict.t -> outcome string.
Variable ruamel_dump : value -> outcome string.
Variable yaml_safe_load : string -> outcome value.
Variable yaml_dump : value -> outcome string.
Variable element_name : string.
Variable merged_values : value.
Variable values_conflicts : list MergeConflict.t.
Variable converter_merges : list (string * (string * list MergeConflict.t)).
Variable remote : option node.

Local Abbreviation epath := (element_path element_name).
Local Abbreviation bpath := (backup_path element_name).

Lemma leaves_load_name name : leaves (load_name global_str name).
Proof.
  unfold load_name. destruct (mem_str name _);
    [apply leaves_ret|apply leaves_raise].
Qed.

Lemma leaves_dump_to dump v p :
  apart p q = true -> leaves (dump_to dump v p).
Proof.
  intro Ha. unfold dump_to.
  apply leaves_bind; [now apply leaves_write_text|intros _].
  apply leaves_bind; [apply leaves_lift|intros s].
  now apply leaves_write_text.
Qed.

Lemma leaves_write_conflict_header p cs :
  apart p q = true -> leaves (write_conflict_header py_repr global_str p cs).
Proof.
  intro Ha. unfold write_conflict_header.
  destruct (existsb MergeConflict.unresolved cs); [|apply leaves_ret].
  apply leaves_bind; [apply leaves_read_text|intros content].
  apply leaves_bind; [apply leaves_load_name|intros b].
  apply leaves_bind; [apply leaves_load_name|intros t].
  now apply leaves_write_text.
Qed.

Lemma leaves_write_converters dir merges :
  (forall x, In x (map fst merges) -> apart (dir ++ [x]) q = true) ->
  leaves (write_converters conflicted_text dir merges).
Proof.
  induction merges as [|[name [content conflicts]] rest IH]; intro Ha;
    cbn [write_converters].
  - apply leaves_ret.
  - apply leaves_bind.
    + assert (Hn : apart (dir ++ [name]) q = true) by (apply Ha; now left).
      destruct conflicts; [now apply leaves_write_text|].
      apply leaves_bind; [apply leaves_lift|intros s].
      now apply leaves_write_text.
    + intros _. apply IH. intros x Hx. apply Ha. now right.
Qed.

Lemma leaves_copy_new_converters dir entries :
  (forall x, In x (map fst entries) -> apart (dir ++ [x]) q = true) ->
  leaves (copy_new_converters dir entries).
Proof.
  induction entries as [|[name n] rest IH]; intro Ha;
    cbn [copy_new_converters].
  - apply leaves_ret.
  - apply leaves_bind.
    + destruct (is_yaml name); [|apply leaves_ret].
      apply leaves_bind; [apply leaves_exists|intros [|]];
        [apply leaves_ret|].
      apply leaves_copy2_node. apply Ha. now left.
    + intros _. apply IH. intros x Hx. apply Ha. now right.
Qed.

Lemma leaves_update_chart :
  apart (epath ++ ["Chart.yaml"]) q = true ->
  leaves (update_chart yaml_safe_load yaml_dump element_name remote).
Proof.
  intro Ha. unfold update_chart.
  destruct (remote_lookup remote ["Chart.yaml"]) as [rc|]; [|apply leaves_ret].
  apply leaves_bind.
  { destruct rc; [apply leaves_ret|apply leaves_raise]. }
  intros text. apply leaves_bind; [apply leaves_lift|intros chart_data].
  apply leaves_bind; [apply leaves_read_text|intros local_text].
  apply leaves_bind; [apply leaves_lift|intros local_chart_data].
  apply leaves_bind.
  { destruct local_chart_data; try apply leaves_raise. apply leaves_ret. }
  intros name. apply leaves_bind.
  { destruct chart_data; try apply leaves_raise. apply leaves_ret. }
  intros chart. now apply leaves_dump_to.
Qed.

Lemma leaves_replace_subtree name :
  apart (epath ++ [name]) q = true ->
  leaves (replace_subtree element_name remote name).
Proof.
  intro Ha. unfold replace_subtree.
  destruct (remote_lookup remote [name]) as [rd|]; [|apply leaves_ret].
  apply leaves_bind; [apply leaves_exists|intros present].
  apply leaves_bind.
  { destruct present; [now apply leaves_rmtree|apply leaves_ret]. }
  intros _. now apply leaves_copytree_node.
Qed.

Lemma leaves_make_backup :
  apart bpath q = true -> leaves (make_backup element_name).
Proof.
  intro Ha. unfold make_backup.
  apply leaves_bind; [apply leaves_exists|intros present].
  apply leaves_bind.
  { destruct present; [now apply leaves_rmtree|apply leaves_ret]. }
  intros _. now apply leaves_copytree.
Qed.

Lemma leaves_restore_backup e :
  apart epath q = true -> apart bpath q = true ->
  leaves (restore_backup element_name e).
Proof.
  intros He Hb. unfold restore_backup.
  apply leaves_bind; [now apply leaves_rmtree|intros _].
  apply leaves_bind; [now apply leaves_move|intros _].
  apply leaves_raise.
Qed.

Local Abbreviation body :=
  (try_body py_repr global_str apply_resolution_to_values conflicted_text
            ruamel_dump yaml_safe_load yaml_dump element_name merged_values
            values_conflicts converter_merges remote).
Local Abbreviation run :=
  (apply_merged_files py_repr global_str apply_resolution_to_values
     conflicted_text ruamel_dump yaml_safe_load yaml_dump element_name
     merged_values values_conflicts converter_merges remote).

(** Every step of the [try] body works below the element or on the
    backup. *)
Lemma leaves_try_body :
  apart epath q = true -> apart bpath q = true -> leaves body.
Proof.
  intros He Hb. unfold try_body.
  apply leaves_bind.
  { destruct values_conflicts; [apply leaves_ret|apply leaves_lift]. }
  intros mc. apply leaves_bind.
  { apply leaves_dump_to. now apply apart_app. }
  intros _. apply leaves_bind.
  { apply leaves_write_conflict_header. now apply apart_app. }
  intros _. apply leaves_bind.
  { apply leaves_mkdir. now apply apart_app. }
  intros _. apply leaves_bind.
  { apply leaves_write_converters. intros x _. now do 2 apply apart_app. }
  intros _. apply leaves_bind.
  { destruct (remote_lookup remote ["converters"]) as [[c|es]|];
      try apply leaves_ret.
    apply leaves_copy_new_converters. intros x _. now do 2 apply apart_app. }
  intros _. apply leaves_bind.
  { apply leaves_update_chart. now apply apart_app. }
  intros _. apply leaves_bind.
  { apply leaves_replace_subtree. now apply apart_app. }
  intros _. apply leaves_bind.
  { apply leaves_replace_subtree. now apply apart_app. }
  intros _. now apply leaves_rmtree.
Qed.

Lemma leaves_apply_merged_files :
  apart epath q = true -> apart bpath q = true -> leaves run.
Proof.
  intros He Hb. unfold apply_merged_files.
  apply leaves_bind; [now apply leaves_make_backup|intros _].
  apply leaves_try_except; [now apply leaves_try_body|].
  intro e. now apply leaves_restore_backup.
Qed.

End Steps.
End Leaves.
End FrameFacts.

(** X5.  [TemplateUpgrader.apply_merged_files] works only in the element
    directory and at its backup path: whatever the outcome, every other
    entry of the directory that holds the element, and all below it, is
    after the call what it was before. *)
Theorem X5_apply_leaves_other_entries_alone :
  forall py_repr global_str apply_resolution_to_values conflicted_text
         ruamel_dump yaml_safe_load yaml_dump element_name merged_values
         values_conflicts converter_merges remote
         (other : string) (below : FS.path) (fs : FS.node),
    other <> element_name ->
    other <> TemplateUpgrader.backup_name element_name ->
    FS.lookup (other :: below)
      (snd (TemplateUpgrader.apply_merged_files py_repr global_str
              apply_resolution_to_values conflicted_text ruamel_dump
              yaml_safe_load yaml_dump element_name merged_values
              values_conflicts converter_merges remote fs))
    = FS.lookup (other :: below) fs.
Proof.
  intros py_repr global_str arv ct rd ysl yd name mv vc cm remote z q fs
         Hne Hnb.
  apply FrameFacts.leaves_apply_merged_files.
  - unfold TemplateUpgrader.element_path. cbn [Frame.apart].
    destruct (String.eqb_spec name z); [congruence|reflexivity].
  - unfold TemplateUpgrader.backup_path. cbn [Frame.apart].
    destruct (String.eqb_spec (TemplateUpgrader.backup_name name) z);
      [congruence|reflexivity].
Qed.

Lemma X5_apply_leaves_other_entries_alone_witness :
  FS.lookup ["monitoring"; "values.yaml"] (snd (Upgrade.apply Upgrade.tree))
  = FS.lookup ["monitoring"; "values.yaml"] Upgrade.tree.
Proof.
  apply (X5_apply_leaves_other_entries_alone
           Sample.py_repr Sample.global_str Sample.apply_resolution_to_values
           Sample.conflicted_text Sample.ruamel_dump Upgrade.yaml_safe_load
           Upgrade.yaml_dump "logging" (Stated.retries 5) []
           Upgrade.converter_merges Upgrade.remote
           "monitoring" ["values.yaml"] Upgrade.tree).
  - intro H. discriminate H.
  - intro H. discriminate H.
Defined.

(* ================================================================== *)
(** * The steps of a run that completed *)

Module ApplyDone.
Import FS TemplateUpgrader FSFacts Frame FrameFacts.
Local Open Scope io_scope.

Lemma bind_Done A B (m : IO A) (f : A -> IO B) fs b fs' :
  bind m f fs = (Done b, fs') ->
  exists a fs1, m fs = (Done a, fs1) /\ f a fs1 = (Done b, fs').
Proof.
  unfold bind. destruct (m fs) as [[a|e] fs1]; [|discriminate].
  intro H. now exists a, fs1.
Qed.

Lemma write_text_Done p s fs fs' :
  p <> [] -> write_text p s fs = (Done tt, fs') ->
  lookup p fs' = Some (File s).
Proof.
  intros Hp. unfold write_text, store.
  destruct (lookup p fs) as [[c|es]|]; try discriminate;
    destruct (put p (File s) fs) as [fs1|] eqn:E; try discriminate;
    intros [= <-]; eapply ApplyRun.lookup_put_same; eassumption.
Qed.

Lemma dump_to_Done dump v p fs fs' :
  p <> [] -> dump_to dump v p fs = (Done tt, fs') ->
  exists s, dump v = Done s /\ lookup p fs' = Some (File s).
Proof.
  intros Hp H. unfold dump_to in H.
  apply bind_Done in H as (_ & fa & _ & H).
  apply bind_Done in H as (s & fb & Hd & H).
  unfold lift in Hd. injection Hd as Hd _.
  exists s. split; [exact Hd|]. eapply write_text_Done; eassumption.
Qed.

Lemma in_element_nonempty name x : element_path name ++ [x] <> [].
Proof. unfold element_path. discriminate. Qed.

Section Steps.
Variable py_repr : value -> string.
Variable global_str : string -> string.
Variable apply_resolution_to_values :
  value -> list MergeConflict.t -> outcome (value * list MergeConflict.t).
Variable conflicted_text : string -> list MergeConflict.t -> outcome string.
Variable ruamel_dump : value -> outcome string.
Variable yaml_safe_load : string -> outcome value.
Variable yaml_dump : value -> outcome string.
Variable element_name : string.
Variable merged_values : value.
Variable values_conflicts : list MergeConflict.t.
Variable converter_merges : list (string * (string * list MergeConflict.t)).
Variable remote : option node.

Local Abbreviation epath := (element_path element_name).
Local Abbreviation bpath := (backup_path element_name).
Local Abbreviation body :=
  (try_body py_repr global_str apply_resolution_to_values conflicted_text
            ruamel_dump yaml_safe_load yaml_dump element_name merged_values
            values_conflicts converter_merges remote).
Local Abbreviation run :=
  (apply_merged_files py_repr global_str apply_resolution_to_values
     conflicted_text ruamel_dump yaml_safe_load yaml_dump element_name
     merged_values values_conflicts converter_merges remote).

(** The header block never completes: it returns only when it is skipped. *)
Lemma header_Done p cs fs fs' :
  write_conflict_header py_repr global_str p cs fs = (Done tt, fs') ->
  fs' = fs /\ existsb MergeConflict.unresolved cs = false.
Proof.
  unfold write_conflict_header.
  destruct (existsb MergeConflict.unresolved cs).
  - intro H. apply bind_Done in H as (c & f1 & _ & H).
    apply bind_Done in H as (b & f2 & Hb & _).
    unfold load_name in Hb. simpl in Hb. discriminate Hb.
  - intros [= <-]. now split.
Qed.

Lemma restore_backup_raises e fs o fs' :
  restore_backup element_name e fs = (o, fs') -> exists e', o = Raised e'.
Proof.
  unfold restore_backup, bind.
  destruct (rmtree epath fs) as [[[]|e1] f1]; [|intros [= <- _]; eauto].
  destruct (move bpath epath f1) as [[[]|e2] f2]; [|intros [= <- _]; eauto].
  unfold raise. intros [= <- _]. eauto.
Qed.

Lemma run_Done fs fs' :
  run fs = (Done tt, fs') ->
  exists fs1, make_backup element_name fs = (Done tt, fs1) /\
              body fs1 = (Done tt, fs').
Proof.
  unfold apply_merged_files. intro H.
  apply bind_Done in H as ([] & fs1 & Hb & H). exists fs1. split; [exact Hb|].
  unfold try_except in H.
  destruct (try_body _ _ _ _ _ _ _ _ _ _ _ _ fs1) as [[[]|e] f2] eqn:E.
  - exact H.
  - apply restore_backup_raises in H as [e' H]. discriminate H.
Qed.

(** The steps of a [try] body that completed, each with the tree it ran
    on. *)
Lemma body_Done fs1 fs' :
  body fs1 = (Done tt, fs') ->
  exists mc f1 f3 f4 f5 f6 f7 f8,
    match values_conflicts with
    | _ :: _ => apply_resolution_to_values merged_values values_conflicts
    | [] => Done (merged_values, values_conflicts)
    end = Done mc /\
    dump_to ruamel_dump (fst mc) (epath ++ ["values.yaml"]) fs1
    = (Done tt, f1) /\
    existsb MergeConflict.unresolved (snd mc) = false /\
    mkdir_exist_ok (epath ++ ["converters"]) f1 = (Done tt, f3) /\
    write_converters conflicted_text (epath ++ ["converters"])
                     converter_merges f3 = (Done tt, f4) /\
    match remote_lookup remote ["converters"] with
    | Some (Dir entries) =>
        copy_new_converters (epath ++ ["converters"]) entries
    | _ => ret tt
    end f4 = (Done tt, f5) /\
    update_chart yaml_safe_load yaml_dump element_name remote f5
    = (Done tt, f6) /\
    replace_subtree element_name remote "templates" f6 = (Done tt, f7) /\
    replace_subtree element_name remote "examples" f7 = (Done tt, f8) /\
    rmtree bpath f8 = (Done tt, fs').
Proof.
  unfold try_body. intro H.
  apply bind_Done in H as (mc & f0 & Hmc & H).
  apply bind_Done in H as ([] & f1 & Hdump & H).
  apply bind_Done in H as ([] & f2 & Hhead & H).
  apply header_Done in Hhead as [-> Hu].
  apply bind_Done in H as ([] & f3 & Hmk & H).
  apply bind_Done in H as ([] & f4 & Hwc & H).
  apply bind_Done in H as ([] & f5 & Hcp & H).
  apply bind_Done in H as ([] & f6 & Hch & H).
  apply bind_Done in H as ([] & f7 & Ht & H).
  apply bind_Done in H as ([] & f8 & Hx & H).
  exists mc, f1, f3, f4, f5, f6, f7, f8.
  assert (E : match values_conflicts with
              | _ :: _ =>
                  apply_resolution_to_values merged_values values_conflicts
              | [] => Done (merged_values, values_conflicts)
              end = Done mc /\ f0 = fs1).
  { destruct values_conflicts; unfold ret, lift in Hmc;
      split; congruence. }
  destruct E as [E ->]. repeat (split; [assumption|]). exact H.
Qed.

Lemma leaves_copy_step q :
  apart (epath ++ ["converters"]) q = true ->
  leaves q
    (match remote_lookup remote ["converters"] with
     | Some (Dir entries) =>
         copy_new_converters (epath ++ ["converters"]) entries
     | _ => ret tt
     end).
Proof.
  intro Ha. destruct (remote_lookup remote ["converters"]) as [[c|es]|];
    try apply leaves_ret.
  apply leaves_copy_new_converters. intros x _. now apply apart_app.
Qed.

Lemma replace_subtree_Done name fs fs' :
  replace_subtree element_name remote name fs = (Done tt, fs') ->
  lookup (epath ++ [name]) fs'
  = match remote_lookup remote [name] with
    | Some t => Some t
    | None => lookup (epath ++ [name]) fs
    end.
Proof.
  unfold replace_subtree.
  destruct (remote_lookup remote [name]) as [rd|];
    [|intros [= <-]; reflexivity].
  intro H. apply bind_Done in H as (present & f1 & _ & H).
  apply bind_Done in H as ([] & f2 & _ & H).
  unfold copytree_node in H. destruct rd as [c|es]; [discriminate H|].
  destruct (lookup (epath ++ [name]) f2); [discriminate H|].
  unfold store in H.
  destruct (put (epath ++ [name]) (Dir es) f2) as [f3|] eqn:E;
    [|discriminate H].
  injection H as <-. eapply ApplyRun.lookup_put_same; [|exact E].
  unfold element_path. discriminate.
Qed.

Lemma update_chart_Done fs fs' rc :
  remote_lookup remote ["Chart.yaml"] = Some rc ->
  update_chart yaml_safe_load yaml_dump element_name remote fs
  = (Done tt, fs') ->
  exists text local_text d ld s,
    rc = File text /\
    lookup (epath ++ ["Chart.yaml"]) fs = Some (File local_text) /\
    yaml_safe_load text = Done (VDict d) /\
    yaml_safe_load local_text = Done (VDict ld) /\
    yaml_dump
      (VDict (dict_set "name"
                (match dict_get "name" ld with
                 | Some v => v
                 | None => VStr element_name
                 end) d)) = Done s /\
    lookup (epath ++ ["Chart.yaml"]) fs' = Some (File s).
Proof.
  intros Hrc H. unfold update_chart in H. rewrite Hrc in H.
  apply bind_Done in H as (text & f1 & Htext & H).
  apply bind_Done in H as (chart_data & f2 & Hload & H).
  apply bind_Done in H as (local_text & f3 & Hread & H).
  apply bind_Done in H as (local_chart_data & f4 & Hlload & H).
  apply bind_Done in H as (name & f5 & Hname & H).
  apply bind_Done in H as (chart & f6 & Hset & H).
  destruct rc as [c|es]; [|discriminate Htext].
  unfold ret in Htext. injection Htext as -> <-.
  unfold lift in Hload. injection Hload as Hload <-.
  unfold read_text in Hread.
  destruct (lookup (epath ++ ["Chart.yaml"]) fs) as [[lc|les]|] eqn:El;
    try discriminate Hread.
  injection Hread as -> <-.
  unfold lift in Hlload. injection Hlload as Hlload <-.
  destruct local_chart_data as [| | | | | |ld]; try discriminate Hname.
  unfold ret in Hname. injection Hname as <- <-.
  destruct chart_data as [| | | | | |d]; try discriminate Hset.
  unfold ret in Hset. injection Hset as <- <-.
  destruct (dump_to_Done yaml_dump _ _ _ _ (in_element_nonempty _ _) H)
    as (s & Hs & Hl).
  exists text, local_text, d, ld, s. repeat split; assumption.
Qed.

(** Paths that part ways at the last component. *)
Lemma apart_last dir x y :
  x <> y -> apart (dir ++ [x]) (dir ++ [y]) = true.
Proof.
  intro Hne. induction dir as [|a dir IH]; cbn [app apart].
  - destruct (String.eqb_spec x y); [contradiction|reflexivity].
  - now rewrite String.eqb_refl.
Qed.

Lemma lookup_app p :
  forall r fs,
    lookup (p ++ r) fs
    = match lookup p fs with
      | Some n => lookup r n
      | None => None
      end.
Proof.
  induction p as [|x p IH]; intros r fs; [reflexivity|].
  cbn [app lookup]. destruct fs as [c|es]; [reflexivity|].
  destruct (child x es); [apply IH|reflexivity].
Qed.

Lemma preserves_bind P A B (m : IO A) (f : A -> IO B) :
  preserves P m -> (forall a, preserves P (f a)) -> preserves P (bind m f).
Proof.
  intros Hm Hf fs H. unfold bind. specialize (Hm fs H).
  destruct (m fs) as [[a|e] fs1]; simpl in *; [|exact Hm].
  now apply Hf.
Qed.

Lemma leaves_preserves q n A (m : IO A) :
  leaves q m -> preserves (fun fs => lookup q fs = Some n) m.
Proof. intros H fs Hl. now rewrite H. Qed.

(** A converter that is there is not copied over. *)
Lemma copy_new_keeps dir entries x n :
  preserves (fun fs => lookup (dir ++ [x]) fs = Some n)
            (copy_new_converters dir entries).
Proof.
  induction entries as [|[name node] rest IH]; cbn [copy_new_converters].
  - intros fs H. exact H.
  - apply preserves_bind; [|intros _; exact IH].
    destruct (is_yaml name); [|intros fs H; exact H].
    destruct (String.eqb_spec name x) as [->|Hne].
    + intros fs H. unfold bind, exists_. rewrite H. exact H.
    + apply leaves_preserves.
      apply leaves_bind; [apply leaves_exists|intros [|]];
        [apply leaves_ret|].
      apply leaves_copy2_node. now apply apart_last.
Qed.

(** A converter that the remote side has and the element has not is
    copied. *)
Lemma copy_new_copies dir entries x c :
  dir <> [] ->
  is_yaml x = true ->
  child x entries = Some (File c) ->
  forall fs fs',
    lookup (dir ++ [x]) fs = None ->
    copy_new_converters dir entries fs = (Done tt, fs') ->
    lookup (dir ++ [x]) fs' = Some (File c).
Proof.
  intros Hdir Hy. induction entries as [|[name node] rest IH];
    intros Hc fs fs' Hnone H; [discriminate Hc|].
  cbn [copy_new_converters] in H.
  apply bind_Done in H as ([] & f1 & Hstep & H).
  unfold child in Hc. cbn [assoc_get] in Hc.
  destruct (String.eqb_spec x name) as [<-|Hne].
  - injection Hc as ->. rewrite Hy in Hstep.
    unfold bind, exists_ in Hstep. rewrite Hnone in Hstep.
    cbn [copy2_node] in Hstep.
    assert (Hl : lookup (dir ++ [x]) f1 = Some (File c)).
    { eapply write_text_Done; [|exact Hstep]. now destruct dir. }
    pose proof (copy_new_keeps dir rest x (File c) f1 Hl) as Hk.
    now rewrite H in Hk.
  - apply (IH Hc f1 fs'); [|exact H].
    rewrite <- Hnone. eapply leaves_eq; [|exact Hstep].
    destruct (is_yaml name); [|apply leaves_ret].
    apply leaves_bind; [apply leaves_exists|intros [|]];
      [apply leaves_ret|].
    apply leaves_copy2_node. apply apart_last. congruence.
Qed.

Lemma write_converters_Done dir merges :
  dir <> [] ->
  NoDup (map fst merges) ->
  forall fs fs',
    write_converters conflicted_text dir merges fs = (Done tt, fs') ->
    forall x content conflicts,
      In (x, (content, conflicts)) merges ->
      exists text,
        lookup (dir ++ [x]) fs' = Some (File text) /\
        match conflicts with
        | [] => text = content
        | _ :: _ => conflicted_text content conflicts = Done text
        end.
Proof.
  intros Hdir. induction merges as [|[name [c cf]] rest IH];
    intros Hnd fs fs' H x content conflicts Hin; [contradiction|].
  cbn [write_converters] in H.
  apply bind_Done in H as ([] & f1 & Hstep & H).
  cbn [map fst] in Hnd. inversion Hnd as [|? ? Hnotin Hnd']; subst.
  destruct Hin as [E|Hin].
  - injection E as -> -> ->.
    assert (Hw : exists text,
               lookup (dir ++ [x]) f1 = Some (File text) /\
               match conflicts with
               | [] => text = content
               | _ :: _ => conflicted_text content conflicts = Done text
               end).
    { destruct conflicts as [|c0 cs0].
      - exists content. split; [|reflexivity].
        eapply write_text_Done; [|exact Hstep]. now destruct dir.
      - apply bind_Done in Hstep as (text & f0 & Ht & Hstep).
        unfold lift in Ht. injection Ht as Ht <-.
        exists text. split; [|exact Ht].
        eapply write_text_Done; [|exact Hstep]. now destruct dir. }
    destruct Hw as (text & Hl & Ht). exists text. split; [|exact Ht].
    rewrite <- Hl. eapply leaves_eq; [|exact H].
    apply leaves_write_converters. intros y Hy. apply apart_last.
    intros ->. contradiction.
  - now apply (IH Hnd' f1 fs' H x content conflicts).
Qed.

(** [mkdir(exist_ok=True)] of the directory of an entry that is there does
    nothing, and it puts nothing in a directory it makes. *)
Lemma mkdir_parent dir x fs fs' :
  dir <> [] ->
  mkdir_exist_ok dir fs = (Done tt, fs') ->
  lookup (dir ++ [x]) fs' = lookup (dir ++ [x]) fs.
Proof.
  intros Hdir. unfold mkdir_exist_ok.
  destruct (lookup dir fs) as [[c|es]|] eqn:El; try discriminate.
  - now intros [= <-].
  - unfold store. destruct (put dir (Dir []) fs) as [f1|] eqn:E;
      [|discriminate].
    intros [= <-]. rewrite !lookup_app, El.
    now rewrite (ApplyRun.lookup_put_same _ _ _ _ Hdir E).
Qed.

Ltac apart_tac :=
  unfold element_path, backup_path; cbn [app apart];
  rewrite ?backup_eqb, ?String.eqb_refl; reflexivity.

(** From the tree a step returned back to the tree it ran on, for a path
    the step leaves alone. *)
Ltac step_back H :=
  match type of H with
  | ?m ?fs = (_, ?fs') =>
      match goal with
      | |- context [lookup ?q fs'] =>
          let L := fresh "L" in
          assert (L : Frame.leaves q m);
          [|rewrite (leaves_eq q _ m fs _ fs' L H); clear L]
      end
  end.

(** ** What a completed run leaves *)

Lemma values_after fs fs' :
  run fs = (Done tt, fs') ->
  exists mc s,
    match values_conflicts with
    | _ :: _ => apply_resolution_to_values merged_values values_conflicts
    | [] => Done (merged_values, values_conflicts)
    end = Done mc /\
    existsb MergeConflict.unresolved (snd mc) = false /\
    ruamel_dump (fst mc) = Done s /\
    lookup (epath ++ ["values.yaml"]) fs' = Some (File s).
Proof.
  intro H. destruct (run_Done _ _ H) as (fs1 & Hb & Hbody).
  destruct (body_Done _ _ Hbody)
    as (mc & f1 & f3 & f4 & f5 & f6 & f7 & f8 & Hmc & Hdump & Hu & Hmk
        & Hwc & Hcp & Hch & Ht & Hx & Hrm).
  destruct (dump_to_Done _ _ _ _ _ (in_element_nonempty _ _)
                         Hdump) as (s & Hs & Hl).
  exists mc, s. repeat (split; [assumption|]).
  step_back Hrm. { apply leaves_rmtree. apart_tac. }
  step_back Hx. { apply leaves_replace_subtree. apart_tac. }
  step_back Ht. { apply leaves_replace_subtree. apart_tac. }
  step_back Hch. { apply leaves_update_chart. apart_tac. }
  step_back Hcp. { apply leaves_copy_step. apart_tac. }
  step_back Hwc.
  { apply leaves_write_converters. intros x _. apply apart_app. apart_tac. }
  step_back Hmk. { apply leaves_mkdir. apart_tac. }
  exact Hl.
Qed.

Lemma subtree_after name fs fs' :
  name = "templates" \/ name = "examples" ->
  run fs = (Done tt, fs') ->
  lookup (epath ++ [name]) fs'
  = match remote_lookup remote [name] with
    | Some t => Some t
    | None => lookup (epath ++ [name]) fs
    end.
Proof.
  intros Hname H. destruct (run_Done _ _ H) as (fs1 & Hb & Hbody).
  destruct (body_Done _ _ Hbody)
    as (mc & f1 & f3 & f4 & f5 & f6 & f7 & f8 & Hmc & Hdump & Hu & Hmk
        & Hwc & Hcp & Hch & Ht & Hx & Hrm).
  step_back Hrm. { apply leaves_rmtree. apart_tac. }
  assert (Hearlier : lookup (epath ++ [name]) f6 = lookup (epath ++ [name]) fs).
  { step_back Hch. { apply leaves_update_chart. destruct Hname; subst; apart_tac. }
    step_back Hcp. { apply leaves_copy_step. destruct Hname; subst; apart_tac. }
    step_back Hwc.
    { apply leaves_write_converters. intros x _. apply apart_app.
      destruct Hname; subst; apart_tac. }
    step_back Hmk. { apply leaves_mkdir. destruct Hname; subst; apart_tac. }
    step_back Hdump. { apply leaves_dump_to. destruct Hname; subst; apart_tac. }
    step_back Hb. { apply leaves_make_backup. apart_tac. }
    reflexivity. }
  destruct Hname as [-> | ->].
  - step_back Hx. { apply leaves_replace_subtree. apart_tac. }
    rewrite (replace_subtree_Done _ _ _ Ht).
    destruct (remote_lookup remote ["templates"]); [reflexivity|exact Hearlier].
  - rewrite (replace_subtree_Done _ _ _ Hx).
    destruct (remote_lookup remote ["examples"]); [reflexivity|].
    step_back Ht. { apply leaves_replace_subtree. apart_tac. }
    exact Hearlier.
Qed.

Lemma chart_after fs fs' rc :
  run fs = (Done tt, fs') ->
  remote_lookup remote ["Chart.yaml"] = Some rc ->
  exists text local_text d ld s,
    rc = File text /\
    lookup (epath ++ ["Chart.yaml"]) fs = Some (File local_text) /\
    yaml_safe_load text = Done (VDict d) /\
    yaml_safe_load local_text = Done (VDict ld) /\
    yaml_dump
      (VDict (dict_set "name"
                (match dict_get "name" ld with
                 | Some v => v
                 | None => VStr element_name
                 end) d)) = Done s /\
    lookup (epath ++ ["Chart.yaml"]) fs' = Some (File s).
Proof.
  intros H Hrc. destruct (run_Done _ _ H) as (fs1 & Hb & Hbody).
  destruct (body_Done _ _ Hbody)
    as (mc & f1 & f3 & f4 & f5 & f6 & f7 & f8 & Hmc & Hdump & Hu & Hmk
        & Hwc & Hcp & Hch & Ht & Hx & Hrm).
  destruct (update_chart_Done _ _ _ Hrc Hch)
    as (text & local_text & d & ld & s & E & Hl5 & H1 & H2 & H3 & Hl6).
  exists text, local_text, d, ld, s.
  split; [exact E|]. split.
  { rewrite <- Hl5. symmetry.
    step_back Hcp. { apply leaves_copy_step. apart_tac. }
    step_back Hwc.
    { apply leaves_write_converters. intros x _. apply apart_app. apart_tac. }
    step_back Hmk. { apply leaves_mkdir. apart_tac. }
    step_back Hdump. { apply leaves_dump_to. apart_tac. }
    step_back Hb. { apply leaves_make_backup. apart_tac. }
    reflexivity. }
  repeat (split; [assumption|]).
  step_back Hrm. { apply leaves_rmtree. apart_tac. }
  step_back Hx. { apply leaves_replace_subtree. apart_tac. }
  step_back Ht. { apply leaves_replace_subtree. apart_tac. }
  exact Hl6.
Qed.

Local Abbreviation cdir := (epath ++ ["converters"]).

Lemma cdir_nonempty : cdir <> [].
Proof. unfold element_path. discriminate. Qed.

(** From the end of the run back to the tree the converters were copied
    into. *)
Lemma after_converters x f5 f6 f7 f8 fs' :
  update_chart yaml_safe_load yaml_dump element_name remote f5
  = (Done tt, f6) ->
  replace_subtree element_name remote "templates" f6 = (Done tt, f7) ->
  replace_subtree element_name remote "examples" f7 = (Done tt, f8) ->
  rmtree bpath f8 = (Done tt, fs') ->
  lookup (cdir ++ [x]) fs' = lookup (cdir ++ [x]) f5.
Proof.
  intros Hch Ht Hx Hrm.
  step_back Hrm. { apply leaves_rmtree. apart_tac. }
  step_back Hx. { apply leaves_replace_subtree. apart_tac. }
  step_back Ht. { apply leaves_replace_subtree. apart_tac. }
  step_back Hch. { apply leaves_update_chart. apart_tac. }
  reflexivity.
Qed.

(** From the tree the converters were written into back to the start, for
    a converter that is not among the merged ones. *)
Lemma before_converters x fs fs1 (v : value) f1 f3 f4 :
  ~ In x (map fst converter_merges) ->
  make_backup element_name fs = (Done tt, fs1) ->
  dump_to ruamel_dump v (epath ++ ["values.yaml"]) fs1
  = (Done tt, f1) ->
  mkdir_exist_ok cdir f1 = (Done tt, f3) ->
  write_converters conflicted_text cdir converter_merges f3 = (Done tt, f4) ->
  lookup (cdir ++ [x]) f4 = lookup (cdir ++ [x]) fs.
Proof.
  intros Hnot Hb Hdump Hmk Hwc.
  step_back Hwc.
  { apply leaves_write_converters. intros y Hy. apply apart_last.
    intros ->. contradiction. }
  rewrite (mkdir_parent _ x _ _ cdir_nonempty Hmk).
  step_back Hdump. { apply leaves_dump_to. apart_tac. }
  step_back Hb. { apply leaves_make_backup. apart_tac. }
  reflexivity.
Qed.

Lemma copy_step_keeps x n f4 f5 :
  match remote_lookup remote ["converters"] with
  | Some (Dir entries) => copy_new_converters cdir entries
  | _ => ret tt
  end f4 = (Done tt, f5) ->
  lookup (cdir ++ [x]) f4 = Some n ->
  lookup (cdir ++ [x]) f5 = Some n.
Proof.
  intros Hcp H4.
  destruct (remote_lookup remote ["converters"]) as [[c|es]|];
    try (injection Hcp as <-; exact H4).
  pose proof (copy_new_keeps cdir es x n f4 H4) as Hk.
  now rewrite Hcp in Hk.
Qed.

Lemma converter_kept x n fs fs' :
  run fs = (Done tt, fs') ->
  lookup (cdir ++ [x]) fs = Some n ->
  ~ In x (map fst converter_merges) ->
  lookup (cdir ++ [x]) fs' = Some n.
Proof.
  intros H Hl Hnot. destruct (run_Done _ _ H) as (fs1 & Hb & Hbody).
  destruct (body_Done _ _ Hbody)
    as (mc & f1 & f3 & f4 & f5 & f6 & f7 & f8 & Hmc & Hdump & Hu & Hmk
        & Hwc & Hcp & Hch & Ht & Hx & Hrm).
  rewrite (after_converters x _ _ _ _ _ Hch Ht Hx Hrm).
  apply (copy_step_keeps x n f4 f5 Hcp).
  now rewrite (before_converters x _ _ _ _ _ _ Hnot Hb Hdump Hmk Hwc).
Qed.

Lemma converter_written x content conflicts fs fs' :
  run fs = (Done tt, fs') ->
  NoDup (map fst converter_merges) ->
  In (x, (content, conflicts)) converter_merges ->
  exists text,
    lookup (cdir ++ [x]) fs' = Some (File text) /\
    match conflicts with
    | [] => text = content
    | _ :: _ => conflicted_text content conflicts = Done text
    end.
Proof.
  intros H Hnd Hin. destruct (run_Done _ _ H) as (fs1 & Hb & Hbody).
  destruct (body_Done _ _ Hbody)
    as (mc & f1 & f3 & f4 & f5 & f6 & f7 & f8 & Hmc & Hdump & Hu & Hmk
        & Hwc & Hcp & Hch & Ht & Hx & Hrm).
  destruct (write_converters_Done cdir converter_merges
              cdir_nonempty Hnd f3 f4 Hwc x content conflicts Hin)
    as (text & Hl & Htext).
  exists text. split; [|exact Htext].
  rewrite (after_converters x _ _ _ _ _ Hch Ht Hx Hrm).
  exact (copy_step_keeps x _ f4 f5 Hcp Hl).
Qed.

Lemma converter_copied x c entries fs fs' :
  run fs = (Done tt, fs') ->
  remote_lookup remote ["converters"] = Some (Dir entries) ->
  child x entries = Some (File c) ->
  is_yaml x = true ->
  lookup (cdir ++ [x]) fs = None ->
  ~ In x (map fst converter_merges) ->
  lookup (cdir ++ [x]) fs' = Some (File c).
Proof.
  intros H Hr Hc Hy Hl Hnot. destruct (run_Done _ _ H) as (fs1 & Hb & Hbody).
  destruct (body_Done _ _ Hbody)
    as (mc & f1 & f3 & f4 & f5 & f6 & f7 & f8 & Hmc & Hdump & Hu & Hmk
        & Hwc & Hcp & Hch & Ht & Hx & Hrm).
  rewrite (after_converters x _ _ _ _ _ Hch Ht Hx Hrm).
  rewrite Hr in Hcp.
  apply (copy_new_copies cdir entries x c cdir_nonempty Hy Hc f4 f5);
    [|exact Hcp].
  now rewrite (before_converters x _ _ _ _ _ _ Hnot Hb Hdump Hmk Hwc).
Qed.

(** An element that is not a directory: the backup cannot be taken, the
    [try] statement is not reached. *)
Lemma not_a_directory fs :
  (forall es, lookup epath fs <> Some (Dir es)) ->
  exists err fs',
    make_backup element_name fs = (Raised err, fs') /\
    run fs = (Raised err, fs') /\ lookup epath fs' = lookup epath fs.
Proof.
  intro Hnd.
  destruct (make_backup element_name fs) as [[[]|err] fs1] eqn:Hb.
  - destruct (ApplyFacts.make_backup_done _ _ _ Hb) as [el [H0 _]].
    now destruct (Hnd el).
  - exists err, fs1. split; [reflexivity|]. split.
    + unfold apply_merged_files, bind. now rewrite Hb.
    + step_back Hb. { apply leaves_make_backup. apart_tac. }
      reflexivity.
Qed.

End Steps.
End ApplyDone.

(** X6.  When [apply_merged_files] returns, no conflict of the values
    document is left unresolved after the resolutions were applied, and
    [values.yaml] of the element holds exactly what the ruamel dumper
    printed for the (resolved) merged values: no later step of the apply
    stage writes to it. *)
Theorem X6_values_file_after_a_completed_apply :
  forall py_repr global_str apply_resolution_to_values conflicted_text
         ruamel_dump yaml_safe_load yaml_dump element_name merged_values
         values_conflicts converter_merges remote fs fs',
    TemplateUpgrader.apply_merged_files py_repr global_str
      apply_resolution_to_values conflicted_text ruamel_dump yaml_safe_load
      yaml_dump element_name merged_values values_conflicts converter_merges
      remote fs
    = (TemplateUpgrader.Done tt, fs') ->
    exists mc s,
      match values_conflicts with
      | _ :: _ => apply_resolution_to_values merged_values values_conflicts
      | [] => TemplateUpgrader.Done (merged_values, values_conflicts)
      end = TemplateUpgrader.Done mc /\
      existsb MergeConflict.unresolved (snd mc) = false /\
      ruamel_dump (fst mc) = TemplateUpgrader.Done s /\
      FS.lookup [element_name; "values.yaml"] fs' = Some (FS.File s).
Proof.
  intros py_repr global_str arv ct rd ysl yd name mv vc cm remote fs fs' H.
  exact (ApplyDone.values_after py_repr global_str arv ct rd ysl yd name mv
           vc cm remote fs fs' H).
Qed.

Lemma X6_values_file_after_a_completed_apply_witness :
  exists mc s,
    TemplateUpgrader.Done (Stated.retries 5, [])
    = TemplateUpgrader.Done mc /\
    existsb MergeConflict.unresolved (snd mc) = false /\
    Sample.ruamel_dump (fst mc) = TemplateUpgrader.Done s /\
    FS.lookup ["logging"; "values.yaml"] (snd (Upgrade.apply Upgrade.tree))
    = Some (FS.File s).
Proof.
  apply (X6_values_file_after_a_completed_apply
           Sample.py_repr Sample.global_str Sample.apply_resolution_to_values
           Sample.conflicted_text Sample.ruamel_dump Upgrade.yaml_safe_load
           Upgrade.yaml_dump "logging" (Stated.retries 5) []
           Upgrade.converter_merges Upgrade.remote Upgrade.tree
           (snd (Upgrade.apply Upgrade.tree))).
  reflexivity.
Defined.

(** X7.  When [apply_merged_files] returns, [templates/] and [examples/]
    of the element are each the directory of that name in the downloaded
    version, entry for entry, whenever the downloaded version has one:
    nothing of the local directory is kept.  A directory the downloaded
    version does not have is left as it was. *)
Theorem X7_templates_and_examples_are_replaced :
  forall py_repr global_str apply_resolution_to_values conflicted_text
         ruamel_dump yaml_safe_load yaml_dump element_name merged_values
         values_conflicts converter_merges remote fs fs',
    TemplateUpgrader.apply_merged_files py_repr global_str
      apply_resolution_to_values conflicted_text ruamel_dump yaml_safe_load
      yaml_dump element_name merged_values values_conflicts converter_merges
      remote fs
    = (TemplateUpgrader.Done tt, fs') ->
    FS.lookup [element_name; "templates"] fs'
    = match TemplateUpgrader.remote_lookup remote ["templates"] with
      | Some t => Some t
      | None => FS.lookup [element_name; "templates"] fs
      end
    /\
    FS.lookup [element_name; "examples"] fs'
    = match TemplateUpgrader.remote_lookup remote ["examples"] with
      | Some t => Some t
      | None => FS.lookup [element_name; "examples"] fs
      end.
Proof.
  intros py_repr global_str arv ct rd ysl yd name mv vc cm remote fs fs' H.
  split.
  - exact (ApplyDone.subtree_after py_repr global_str arv ct rd ysl yd name
             mv vc cm remote "templates" fs fs' (or_introl eq_refl) H).
  - exact (ApplyDone.subtree_after py_repr global_str arv ct rd ysl yd name
             mv vc cm remote "examples" fs fs' (or_intror eq_refl) H).
Qed.

Lemma X7_templates_and_examples_are_replaced_witness :
  FS.lookup ["logging"; "templates"] (snd (Upgrade.apply Upgrade.tree))
  = Some (FS.Dir [("policy.yaml", FS.File "upstream")])
  /\
  FS.lookup ["logging"; "examples"] (snd (Upgrade.apply Upgrade.tree))
  = FS.lookup ["logging"; "examples"] Upgrade.tree.
Proof.
  apply (X7_templates_and_examples_are_replaced
           Sample.py_repr Sample.global_str Sample.apply_resolution_to_values
           Sample.conflicted_text Sample.ruamel_dump Upgrade.yaml_safe_load
           Upgrade.yaml_dump "logging" (Stated.retries 5) []
           Upgrade.converter_merges Upgrade.remote Upgrade.tree
           (snd (Upgrade.apply Upgrade.tree))).
  reflexivity.
Defined.

(** X8.  When [apply_merged_files] returns and the downloaded version has
    a [Chart.yaml], the element had a [Chart.yaml] file too, both loaded as
    mappings, and the element's [Chart.yaml] now holds the dump of the
    downloaded chart with its [name] set to the [name] of the local chart
    (to the name of the element directory when the local chart has
    none). *)
Theorem X8_chart_is_the_remote_one_under_the_local_name :
  forall py_repr global_str apply_resolution_to_values conflicted_text
         ruamel_dump yaml_safe_load yaml_dump element_name merged_values
         values_conflicts converter_merges remote fs fs' remote_chart,
    TemplateUpgrader.apply_merged_files py_repr global_str
      apply_resolution_to_values conflicted_text ruamel_dump yaml_safe_load
      yaml_dump element_name merged_values values_conflicts converter_merges
      remote fs
    = (TemplateUpgrader.Done tt, fs') ->
    TemplateUpgrader.remote_lookup remote ["Chart.yaml"] = Some remote_chart ->
    exists text local_text d ld s,
      remote_chart = FS.File text /\
      FS.lookup [element_name; "Chart.yaml"] fs = Some (FS.File local_text) /\
      yaml_safe_load text = TemplateUpgrader.Done (VDict d) /\
      yaml_safe_load local_text = TemplateUpgrader.Done (VDict ld) /\
      yaml_dump
        (VDict (dict_set "name"
                  (match dict_get "name" ld with
                   | Some v => v
                   | None => VStr element_name
                   end) d)) = TemplateUpgrader.Done s /\
      FS.lookup [element_name; "Chart.yaml"] fs' = Some (FS.File s).
Proof.
  intros py_repr global_str arv ct rd ysl yd name mv vc cm remote fs fs' rc
         H Hrc.
  exact (ApplyDone.chart_after py_repr global_str arv ct rd ysl yd name mv
           vc cm remote fs fs' rc H Hrc).
Qed.

Lemma X8_chart_is_the_remote_one_under_the_local_name_witness :
  exists text local_text d ld s,
    FS.File "upstream" = FS.File text /\
    FS.lookup ["logging"; "Chart.yaml"] Upgrade.tree
    = Some (FS.File local_text) /\
    Upgrade.yaml_safe_load text = TemplateUpgrader.Done (VDict d) /\
    Upgrade.yaml_safe_load local_text = TemplateUpgrader.Done (VDict ld) /\
    Upgrade.yaml_dump
      (VDict (dict_set "name"
                (match dict_get "name" ld with
                 | Some v => v
                 | None => VStr "logging"
                 end) d)) = TemplateUpgrader.Done s /\
    FS.lookup ["logging"; "Chart.yaml"] (snd (Upgrade.apply Upgrade.tree))
    = Some (FS.File s).
Proof.
  apply (X8_chart_is_the_remote_one_under_the_local_name
           Sample.py_repr Sample.global_str Sample.apply_resolution_to_values
           Sample.conflicted_text Sample.ruamel_dump Upgrade.yaml_safe_load
           Upgrade.yaml_dump "logging" (Stated.retries 5) []
           Upgrade.converter_merges Upgrade.remote Upgrade.tree
           (snd (Upgrade.apply Upgrade.tree)) (FS.File "upstream")).
  - reflexivity.
  - reflexivity.
Defined.

(** X9.  A file of the element's [converters/] directory that is not among
    the merged converters is, when [apply_merged_files] returns, what it
    was: it is not written, and a remote converter of the same name is not
    copied over it. *)
Theorem X9_local_converter_is_not_overwritten :
  forall py_repr global_str apply_resolution_to_values conflicted_text
         ruamel_dump yaml_safe_load yaml_dump element_name merged_values
         values_conflicts converter_merges remote
         (converter_name : string) (found : FS.node) fs fs',
    TemplateUpgrader.apply_merged_files py_repr global_str
      apply_resolution_to_values conflicted_text ruamel_dump yaml_safe_load
      yaml_dump element_name merged_values values_conflicts converter_merges
      remote fs
    = (TemplateUpgrader.Done tt, fs') ->
    FS.lookup [element_name; "converters"; converter_name] fs = Some found ->
    ~ In converter_name (map fst converter_merges) ->
    FS.lookup [element_name; "converters"; converter_name] fs' = Some found.
Proof.
  intros py_repr global_str arv ct rd ysl yd name mv vc cm remote x n fs fs'
         H Hl Hnot.
  exact (ApplyDone.converter_kept py_repr global_str arv ct rd ysl yd name mv
           vc cm remote x n fs fs' H Hl Hnot).
Qed.

Lemma X9_local_converter_is_not_overwritten_witness :
  FS.lookup ["logging"; "converters"; "mine.yaml"]
            (snd (Upgrade.apply Upgrade.tree))
  = Some (FS.File "custom: true").
Proof.
  apply (X9_local_converter_is_not_overwritten
           Sample.py_repr Sample.global_str Sample.apply_resolution_to_values
           Sample.conflicted_text Sample.ruamel_dump Upgrade.yaml_safe_load
           Upgrade.yaml_dump "logging" (Stated.retries 5) []
           Upgrade.converter_merges Upgrade.remote
           "mine.yaml" (FS.File "custom: true") Upgrade.tree
           (snd (Upgrade.apply Upgrade.tree))).
  - reflexivity.
  - reflexivity.
  - intros [H|[]]. discriminate H.
Defined.

(** X10.  When [apply_merged_files] returns, each merged converter (the
    names are the keys of a dictionary, so no name repeats) is a file of
    the element's [converters/] directory: with its merged content when it
    has no conflicts, and with the text of the conflict-marker generator
    when it has. *)
Theorem X10_merged_converters_are_written :
  forall py_repr global_str apply_resolution_to_values conflicted_text
         ruamel_dump yaml_safe_load yaml_dump element_name merged_values
         values_conflicts converter_merges remote
         (converter_name content : string) (conflicts : list MergeConflict.t)
         fs fs',
    TemplateUpgrader.apply_merged_files py_repr global_str
      apply_resolution_to_values conflicted_text ruamel_dump yaml_safe_load
      yaml_dump element_name merged_values values_conflicts converter_merges
      remote fs
    = (TemplateUpgrader.Done tt, fs') ->
    NoDup (map fst converter_merges) ->
    In (converter_name, (content, conflicts)) converter_merges ->
    exists text,
      FS.lookup [element_name; "converters"; converter_name] fs'
      = Some (FS.File text) /\
      match conflicts with
      | [] => text = content
      | _ :: _ => conflicted_text content conflicts = TemplateUpgrader.Done text
      end.
Proof.
  intros py_repr global_str arv ct rd ysl yd name mv vc cm remote x content
         conflicts fs fs' H Hnd Hin.
  exact (ApplyDone.converter_written py_repr global_str arv ct rd ysl yd name
           mv vc cm remote x content conflicts fs fs' H Hnd Hin).
Qed.

Lemma X10_merged_converters_are_written_witness :
  exists text,
    FS.lookup ["logging"; "converters"; "audit.yaml"]
              (snd (Upgrade.apply Upgrade.tree))
    = Some (FS.File text) /\
    text = "lvl: {{ .level }}".
Proof.
  apply (X10_merged_converters_are_written
           Sample.py_repr Sample.global_str Sample.apply_resolution_to_values
           Sample.conflicted_text Sample.ruamel_dump Upgrade.yaml_safe_load
           Upgrade.yaml_dump "logging" (Stated.retries 5) []
           Upgrade.converter_merges Upgrade.remote
           "audit.yaml" "lvl: {{ .level }}" [] Upgrade.tree
           (snd (Upgrade.apply Upgrade.tree))).
  - reflexivity.
  - constructor; [intros []|constructor].
  - left. reflexivity.
Defined.

(** X11.  When [apply_merged_files] returns, a [*.yaml] file of the
    downloaded [converters/] directory that the element did not have, and
    that is not among the merged converters, is in the element's
    [converters/] directory with the remote content. *)
Theorem X11_new_remote_converters_are_copied :
  forall py_repr global_str apply_resolution_to_values conflicted_text
         ruamel_dump yaml_safe_load yaml_dump element_name merged_values
         values_conflicts converter_merges remote
         (converter_name content : string) (entries : FS.dir) fs fs',
    TemplateUpgrader.apply_merged_files py_repr global_str
      apply_resolution_to_values conflicted_text ruamel_dump yaml_safe_load
      yaml_dump element_name merged_values values_conflicts converter_merges
      remote fs
    = (TemplateUpgrader.Done tt, fs') ->
    TemplateUpgrader.remote_lookup remote ["converters"]
    = Some (FS.Dir entries) ->
    FS.child converter_name entries = Some (FS.File content) ->
    TemplateUpgrader.is_yaml converter_name = true ->
    FS.lookup [element_name; "converters"; converter_name] fs = None ->
    ~ In converter_name (map fst converter_merges) ->
    FS.lookup [element_name; "converters"; converter_name] fs'
    = Some (FS.File content).
Proof.
  intros py_repr global_str arv ct rd ysl yd name mv vc cm remote x c entries
         fs fs' H Hr Hc Hy Hl Hnot.
  exact (ApplyDone.converter_copied py_repr global_str arv ct rd ysl yd name
           mv vc cm remote x c entries fs fs' H Hr Hc Hy Hl Hnot).
Qed.

Lemma X11_new_remote_converters_are_copied_witness :
  FS.lookup ["logging"; "converters"; "extra.yaml"]
            (snd (Upgrade.apply Upgrade.tree))
  = Some (FS.File "new: true").
Proof.
  apply (X11_new_remote_converters_are_copied
           Sample.py_repr Sample.global_str Sample.apply_resolution_to_values
           Sample.conflicted_text Sample.ruamel_dump Upgrade.yaml_safe_load
           Upgrade.yaml_dump "logging" (Stated.retries 5) []
           Upgrade.converter_merges Upgrade.remote
           "extra.yaml" "new: true"
           [("audit.yaml", FS.File "lvl: {{ .level }}");
            ("mine.yaml", FS.File "upstream: true");
            ("extra.yaml", FS.File "new: true");
            ("notes.txt", FS.File "not a converter")]
           Upgrade.tree (snd (Upgrade.apply Upgrade.tree))).
  - reflexivity.
  - reflexivity.
  - reflexivity.
  - reflexivity.
  - reflexivity.
  - intros [H|[]]. discriminate H.
Defined.

(** X12.  When the element path is not a directory (nothing is there, or
    a file is), [apply_merged_files] raises while taking the backup: the
    [try] statement is not reached, and what is at the element path is left
    as it was. *)
Theorem X12_apply_needs_an_element_directory :
  forall py_repr global_str apply_resolution_to_values conflicted_text
         ruamel_dump yaml_safe_load yaml_dump element_name merged_values
         values_conflicts converter_merges remote fs,
    (forall es, FS.lookup [element_name] fs <> Some (FS.Dir es)) ->
    exists err fs',
      TemplateUpgrader.make_backup element_name fs
      = (TemplateUpgrader.Raised err, fs') /\
      TemplateUpgrader.apply_merged_files py_repr global_str
        apply_resolution_to_values conflicted_text ruamel_dump yaml_safe_load
        yaml_dump element_name merged_values values_conflicts
        converter_merges remote fs
      = (TemplateUpgrader.Raised err, fs') /\
      FS.lookup [element_name] fs' = FS.lookup [element_name] fs.
Proof.
  intros py_repr global_str arv ct rd ysl yd name mv vc cm remote fs Hnd.
  exact (ApplyDone.not_a_directory py_repr global_str arv ct rd ysl yd name
           mv vc cm remote fs Hnd).
Qed.

Lemma X12_apply_needs_an_element_directory_witness :
  exists err fs',
    TemplateUpgrader.make_backup "logging"
      (FS.Dir [("logging", FS.File "not a directory")])
    = (TemplateUpgrader.Raised err, fs') /\
    Upgrade.apply (FS.Dir [("logging", FS.File "not a directory")])
    = (TemplateUpgrader.Raised err, fs') /\
    FS.lookup ["logging"] fs'
    = FS.lookup ["logging"] (FS.Dir [("logging", FS.File "not a directory")]).
Proof.
  apply (X12_apply_needs_an_element_directory
           Sample.py_repr Sample.global_str Sample.apply_resolution_to_values
           Sample.conflicted_text Sample.ruamel_dump Upgrade.yaml_safe_load
           Upgrade.yaml_dump "logging" (Stated.retries 5) []
           Upgrade.converter_merges Upgrade.remote
           (FS.Dir [("logging", FS.File "not a directory")])).
  intros es H. discriminate H.
Defined.

(* ================================================================== *)
(** * A rule for the conflicts that [_deep_merge] reports *)

Module MergeRule.
Import MergeM PreservingYAMLMerger Loops.

Lemma bind_Ok A B (m : M A) (f : A -> M B) cs b cs' :
  bind m f cs = Ok (b, cs') ->
  exists a cs1, m cs = Ok (a, cs1) /\ f a cs1 = Ok (b, cs').
Proof.
  unfold bind. destruct (m cs) as [[a cs1]| |]; try discriminate.
  intro H. now exists a, cs1.
Qed.

Lemma lift_Ok A (r : result A) cs a cs1 :
  lift r cs = Ok (a, cs1) -> r = Ok a /\ cs1 = cs.
Proof.
  unfold lift. destruct r; try discriminate. intros [= -> ->]. now split.
Qed.

Lemma py_or_idem a b : py_or (py_or a b) b = py_or a b.
Proof. unfold py_or. destruct (truthy a) eqn:E; [now rewrite E|]. now destruct (truthy b). Qed.

Lemma by_name_Ok items names :
  Dyn.by_name items [] = Ok names -> names = by_name_pure items [].
Proof.
  rewrite NamedFacts.by_name_spec. destruct (names_hashable items);
    [now intros [= <-]|discriminate].
Qed.

Section Rule.
Variable py_repr : value -> string.
Variable cm : bool.

(** What is known of the three documents at a node, and how the list of
    conflicts may change. *)
Variable I : value -> value -> value -> Prop.
Variable R : list MergeConflict.t -> list MergeConflict.t -> Prop.

Hypothesis R_refl : forall cs, R cs cs.
Hypothesis R_trans : forall a b c, R a b -> R b c -> R a c.

(** A key of both mappings: the recursive call. *)
Hypothesis I_key :
  forall B l r k lv rv bv,
    I B (VDict l) (VDict r) ->
    dict_get k l = Some lv -> dict_get k r = Some rv ->
    (if truthy (py_or B (VDict []))
     then Dyn.get (py_or B (VDict [])) k else Ok VNone) = Ok bv ->
    I bv lv rv.

(** A key of the local mapping only that the base has: the conflict. *)
Hypothesis I_deleted :
  forall B l r k lv bv path cs,
    I B (VDict l) (VDict r) ->
    dict_get k l = Some lv -> dict_get k r = None ->
    Dyn.contains k (py_or B (VDict [])) = Ok true ->
    Dyn.getitem (py_or B (VDict [])) k = Ok bv ->
    R cs (cs ++ [MergeConflict.__init__ path bv lv VNone]).

(** A local item whose name a remote item has: the recursive call. *)
Hypothesis I_item :
  forall B l r base_items item ritem,
    I B (VList l) (VList r) ->
    Dyn.iter (py_or B (VList [])) = Ok base_items ->
    In item l ->
    Dyn.names_get (Dyn.item_name item) (by_name_pure r []) = Some ritem ->
    I (match Dyn.names_get (Dyn.item_name item)
                           (by_name_pure base_items []) with
       | Some b => b
       | None => VDict []
       end) item ritem.

(** Two positional lists that both differ from the base: the conflict. *)
Hypothesis I_positional :
  forall B l r path cs,
    I B (VList l) (VList r) ->
    py_ne (VList l) (py_or B (VList [])) = true ->
    py_ne (VList r) (py_or B (VList [])) = true ->
    R cs (cs ++ [MergeConflict.__init__ path (py_or B (VList []))
                                        (VList l) (VList r)]).

(** Two other values that both differ from the base: the conflict. *)
Hypothesis I_scalar :
  forall B L Rv path cs,
    I B L Rv -> py_eq B L = false -> py_eq B Rv = false ->
    R cs (cs ++ [MergeConflict.__init__ path B L Rv]).

Section Loops.
Variable rec : value -> value -> value -> string -> M value.
Hypothesis Hrec :
  forall b l r p cs v cs',
    I b l r -> rec b l r p cs = Ok (v, cs') -> R cs cs'.

Lemma rule_merge_keys B l r path :
  I B (VDict l) (VDict r) ->
  forall ks m cs m' cs',
    merge_keys rec (py_or B (VDict [])) l r path ks m cs = Ok (m', cs') ->
    R cs cs'.
Proof.
  intros HI. induction ks as [|key rest IH]; intros m cs m' cs' H.
  - cbn in H. injection H as _ <-. apply R_refl.
  - cbn [merge_keys] in H.
    destruct (dict_get key l) as [lv|] eqn:El,
             (dict_get key r) as [rv|] eqn:Er.
    + apply bind_Ok in H as (bv & cs0 & Hbv & H).
      apply bind_Ok in H as (v & cs1 & Hv & H).
      assert (E : (if truthy (py_or B (VDict []))
                   then Dyn.get (py_or B (VDict [])) key else Ok VNone)
                  = Ok bv /\ cs0 = cs).
      { destruct (truthy (py_or B (VDict []))).
        - now apply lift_Ok in Hbv.
        - unfold ret in Hbv. injection Hbv as <- <-. now split. }
      destruct E as [E ->].
      apply (R_trans _ cs1).
      * apply (Hrec _ _ _ _ _ _ _ (I_key _ _ _ _ _ _ _ HI El Er E) Hv).
      * apply (IH _ _ _ _ H).
    + apply bind_Ok in H as (in_base & cs0 & Hc & H).
      apply lift_Ok in Hc as [Hc ->].
      apply bind_Ok in H as ([] & cs1 & Hstep & H).
      apply (R_trans _ cs1); [|apply (IH _ _ _ _ H)].
      destruct in_base.
      * apply bind_Ok in Hstep as (bv & cs2 & Hg & Hstep).
        apply lift_Ok in Hg as [Hg ->].
        unfold append_conflict in Hstep. injection Hstep as <-.
        apply (I_deleted _ _ _ _ _ _ _ _ HI El Er Hc Hg).
      * unfold ret in Hstep. injection Hstep as <-. apply R_refl.
    + apply (IH _ _ _ _ H).
    + discriminate H.
Qed.

Lemma rule_merge_local_items B l r base_items path :
  I B (VList l) (VList r) ->
  Dyn.iter (py_or B (VList [])) = Ok base_items ->
  forall local,
    incl local l ->
    forall merged seen cs ms cs',
      merge_local_items py_repr rec (by_name_pure base_items [])
                        (by_name_pure r []) path local merged seen cs
      = Ok (ms, cs') ->
      R cs cs'.
Proof.
  intros HI Hit. induction local as [|item rest IH];
    intros Hincl merged seen cs ms cs' H.
  - cbn in H. injection H as _ <-. apply R_refl.
  - assert (Hrest : incl rest l) by (intros x Hx; apply Hincl; now right).
    assert (Hitem : In item l) by (apply Hincl; now left).
    cbn [merge_local_items] in H.
    destruct (is_dict item); [|apply (IH Hrest _ _ _ _ _ H)].
    destruct (truthy (Dyn.item_name item)); [|apply (IH Hrest _ _ _ _ _ H)].
    destruct (Dyn.names_get (Dyn.item_name item) (by_name_pure r []))
      as [ritem|] eqn:En; [|apply (IH Hrest _ _ _ _ _ H)].
    apply bind_Ok in H as (v & cs1 & Hv & H).
    apply (R_trans _ cs1).
    + apply (Hrec _ _ _ _ _ _ _ (I_item _ _ _ _ _ _ HI Hit Hitem En) Hv).
    + apply (IH Hrest _ _ _ _ _ H).
Qed.

Lemma rule_merge_lists B l r path cs M cs' :
  I B (VList l) (VList r) ->
  _merge_lists py_repr rec (py_or B (VList [])) l r path cs = Ok (M, cs') ->
  R cs cs'.
Proof.
  intros HI H. unfold _merge_lists in H.
  destruct (_is_named_list l || _is_named_list r).
  - unfold _merge_named_lists in H. rewrite py_or_idem in H.
    apply bind_Ok in H as (base_items & c0 & Hit & H).
    apply lift_Ok in Hit as [Hit ->].
    apply bind_Ok in H as (bbn & c0 & Hb & H).
    apply lift_Ok in Hb as [Hb ->]. apply by_name_Ok in Hb. subst bbn.
    apply bind_Ok in H as (lbn & c0 & Hl & H).
    apply lift_Ok in Hl as [_ ->].
    apply bind_Ok in H as (rbn & c0 & Hr & H).
    apply lift_Ok in Hr as [Hr ->]. apply by_name_Ok in Hr. subst rbn.
    apply bind_Ok in H as (ms & c1 & Hms & H).
    unfold ret in H. injection H as _ <-.
    apply (rule_merge_local_items B l r base_items path HI Hit l
             (incl_refl l) _ _ _ _ _ Hms).
  - destruct (py_ne (VList l) (py_or B (VList []))) eqn:E1;
      destruct (py_ne (VList r) (py_or B (VList []))) eqn:E2;
      destruct (py_ne (VList l) (VList r)); cbn [andb] in H;
      try (unfold ret in H; injection H as _ <-; apply R_refl).
    unfold bind, append_conflict, ret in H. injection H as _ <-.
    now apply I_positional.
Qed.

End Loops.

Lemma rule_deep_merge fuel :
  forall B L Rv path cs M cs',
    I B L Rv ->
    _deep_merge py_repr cm fuel B L Rv path cs = Ok (M, cs') ->
    R cs cs'.
Proof.
  induction fuel as [|fuel IH]; intros B L Rv path cs M cs' HI H;
    [discriminate H|].
  cbn [_deep_merge] in H.
  destruct (py_eq L Rv) eqn:Eq.
  { unfold ret in H. injection H as _ <-. apply R_refl. }
  destruct (is_dict L && is_dict Rv) eqn:Ed.
  { destruct L as [| | | | | |l]; try discriminate Ed.
    destruct Rv as [| | | | | |r]; try discriminate Ed.
    unfold _merge_dicts in H. cbn [Dyn.entries] in H.
    apply bind_Ok in H as (m & cs1 & Hm & H).
    unfold ret in H. injection H as _ <-.
    apply (rule_merge_keys (_deep_merge py_repr cm fuel) IH B l r path HI
             _ _ _ _ _ Hm). }
  destruct (is_list L && is_list Rv) eqn:El.
  { destruct L as [| | | | |l|]; try discriminate El.
    destruct Rv as [| | | | |r|]; try discriminate El.
    cbn [Dyn.items] in H.
    apply (rule_merge_lists (_deep_merge py_repr cm fuel) IH B l r path
             _ _ _ HI H). }
  unfold py_ne in H. rewrite Eq in H. cbn [negb] in H.
  destruct (py_eq B L) eqn:E1.
  { unfold ret in H. injection H as _ <-. apply R_refl. }
  destruct (py_eq B Rv) eqn:E2.
  { unfold ret in H. injection H as _ <-. apply R_refl. }
  unfold bind, append_conflict, ret in H. injection H as _ <-.
  now apply I_scalar.
Qed.

End Rule.

(** ** What a dictionary of names holds *)

Lemma names_get_set n k v d x :
  Dyn.names_get n (Dyn.names_set k v d) = Some x ->
  x = v \/ Dyn.names_get n d = Some x.
Proof.
  unfold Dyn.names_get, Dyn.names_set.
  induction d as [|[k' v'] d IH]; cbn [assoc_set assoc_get].
  - destruct (py_eq n k); [intros [= <-]; now left|discriminate].
  - destruct (py_eq k k'); cbn [assoc_get].
    + destruct (py_eq n k'); [intros [= <-]; now left|now right].
    + destruct (py_eq n k'); [now right|exact IH].
Qed.

Lemma names_get_by_name items :
  forall acc n x,
    Dyn.names_get n (by_name_pure items acc) = Some x ->
    In x items \/ Dyn.names_get n acc = Some x.
Proof.
  induction items as [|item rest IH]; intros acc n x H; [now right|].
  cbn [by_name_pure] in H. destruct (is_dict item).
  - apply IH in H as [H|H]; [left; now right|].
    apply names_get_set in H as [->|H]; [left; now left|now right].
  - apply IH in H as [H|H]; [left; now right|now right].
Qed.

Lemma items_eq_refl_In xs x :
  items_eq xs xs = true -> In x xs -> py_eq x x = true.
Proof.
  induction xs as [|y xs IH]; [intros _ []|].
  cbn [items_eq]. intros H [->|Hin]; apply andb_prop in H as [H1 H2];
    [exact H1|now apply IH].
Qed.

End MergeRule.

(** X13.  A remote document that is the base document never yields a
    conflict: when [PreservingYAMLMerger.merge] is given the same document
    as base and as remote (one that equals itself, so without a NaN) and
    returns, the list of conflicts it returns is empty, whatever the local
    document is. *)
Theorem X13_unchanged_remote_reports_no_conflict :
  forall (py_repr : value -> string) (local_is_CommentedMap : bool)
         (B L M : value) (conflicts : list MergeConflict.t),
    py_eq B B = true ->
    PreservingYAMLMerger.merge py_repr local_is_CommentedMap B L B
    = Ok (M, conflicts) ->
    conflicts = [].
Proof.
  intros py_repr cm B L M conflicts Hrefl H.
  unfold PreservingYAMLMerger.merge in H.
  refine (MergeRule.rule_deep_merge py_repr cm
            (fun b _ r => b = r /\ py_eq r r = true)
            (fun cs cs' => cs' = cs)
            _ _ _ _ _ _ _ _ B L B "" [] M conflicts (conj eq_refl Hrefl) H).
  - reflexivity.
  - intros a b c -> ->. reflexivity.
  - (* a key of both mappings *)
    intros B0 l r k lv rv bv [-> Hr] _ Er Hbv.
    rewrite NoopFacts.py_or_dict in Hbv.
    destruct r as [|e r']; [discriminate Er|].
    cbn [truthy Dyn.get] in Hbv. rewrite Er in Hbv. injection Hbv as <-.
    split; [reflexivity|]. exact (NoopFacts.py_eq_refl_get _ _ _ Hr Er).
  - (* a key that the remote mapping has not is not in the base *)
    intros B0 l r k lv bv path cs [-> _] _ Er Hc _.
    rewrite NoopFacts.py_or_dict in Hc. cbn [Dyn.contains] in Hc.
    injection Hc as Hc. unfold dict_mem, assoc_mem in Hc.
    unfold dict_get in Er. rewrite Er in Hc. discriminate Hc.
  - (* a named item: the base item is the remote item *)
    intros B0 l r base_items item ritem [-> Hr] Hit _ En.
    rewrite NoopFacts.py_or_list in Hit. cbn [Dyn.iter] in Hit.
    injection Hit as <-. rewrite En. split; [reflexivity|].
    apply MergeRule.names_get_by_name in En as [Hin|En]; [|discriminate En].
    rewrite py_eq_list in Hr. exact (MergeRule.items_eq_refl_In _ _ Hr Hin).
  - (* positional lists: the remote list is the base *)
    intros B0 l r path cs [-> Hr] _ H2.
    rewrite NoopFacts.py_or_list in H2. unfold py_ne in H2.
    rewrite Hr in H2. discriminate H2.
  - (* other values: the remote value is the base *)
    intros B0 L0 Rv path cs [-> Hr] _ H2. rewrite Hr in H2. discriminate H2.
Qed.

Lemma X13_unchanged_remote_reports_no_conflict_witness :
  PreservingYAMLMerger.merge (fun _ => "") true
    (VDict [("retries", VInt 3); ("tags", VList [VStr "a"])])
    (VDict [("retries", VInt 5); ("tags", VList [VStr "mine"])])
    (VDict [("retries", VInt 3); ("tags", VList [VStr "a"])])
  = Ok (VDict [("retries", VInt 5); ("tags", VList [VStr "mine"])], [])
  /\ @nil MergeConflict.t = [].
Proof.
  split; [reflexivity|].
  apply (X13_unchanged_remote_reports_no_conflict
           (fun _ => "") true
           (VDict [("retries", VInt 3); ("tags", VList [VStr "a"])])
           (VDict [("retries", VInt 5); ("tags", VList [VStr "mine"])])
           (VDict [("retries", VInt 5); ("tags", VList [VStr "mine"])])
           []).
  - reflexivity.
  - reflexivity.
Defined.

(* ================================================================== *)
(** * The conflicts of a merge: what is reported, what can be resolved *)

Module ConflictFacts.
Import MergeM PreservingYAMLMerger Loops MergeRule.

(** Conflicts are only ever appended. *)
Lemma deep_merge_appends py_repr cm fuel B L Rv path cs M cs' :
  _deep_merge py_repr cm fuel B L Rv path cs = Ok (M, cs') ->
  exists new, cs' = cs ++ new.
Proof.
  refine (rule_deep_merge py_repr cm (fun _ _ _ => True)
            (fun cs cs' => exists new, cs' = cs ++ new)
            _ _ _ _ _ _ _ fuel B L Rv path cs M cs' I).
  - intro c. exists []. now rewrite app_nil_r.
  - intros a b c [n1 ->] [n2 ->]. exists (n1 ++ n2). now rewrite app_assoc.
  - trivial.
  - intros. now eexists.
  - trivial.
  - intros. now eexists.
  - intros. now eexists.
Qed.

Section Keys.
Variable rec : value -> value -> value -> string -> M value.
Variables (base : value) (l r : dict) (path : string).

(** A key that the loop has gone through has the value the loop gave it. *)
Lemma merge_keys_assigned ks :
  forall m cs m' cs',
    merge_keys rec base l r path ks m cs = Ok (m', cs') ->
    forall k v,
      dict_get k m' = Some v ->
      (In k ks -> Loops.assigned rec l r path k v) /\
      (~ In k ks -> dict_get k m = Some v).
Proof.
  induction ks as [|key rest IH]; intros m cs m' cs' H k v Hg.
  - cbn in H. injection H as <- _. split; [intros []|now intros _].
  - apply OrderFacts.merge_keys_cons in H as (v0 & cs1 & H & Ha).
    destruct (IH _ _ _ _ H k v Hg) as [Hin Hout].
    rewrite OrderFacts.dict_get_set in Hout.
    destruct (in_dec string_dec k rest) as [Hr|Hr].
    + split; [intros _; now apply Hin|]. intros Hn. exfalso. apply Hn. now right.
    + specialize (Hout Hr).
      destruct (String.eqb_spec k key) as [->|Hne].
      * injection Hout as <-. split; [intros _; exact Ha|].
        intros Hn. exfalso. apply Hn. now left.
      * split; [|intros _; exact Hout].
        intros [E|Hin']; [congruence|contradiction].
Qed.
End Keys.

Section Reports.
Variable rec : value -> value -> value -> string -> M value.
Hypothesis rec_appends :
  forall b lv rv p cs v cs',
    rec b lv rv p cs = Ok (v, cs') -> exists new, cs' = cs ++ new.

Lemma merge_keys_appends B l r path ks m cs m' cs' :
  merge_keys rec (py_or B (VDict [])) l r path ks m cs = Ok (m', cs') ->
  exists new, cs' = cs ++ new.
Proof.
  refine (rule_merge_keys (fun _ _ _ => True)
            (fun cs cs' => exists new, cs' = cs ++ new)
            _ _ _ _ rec _ B l r path I ks m cs m' cs').
  - intro c. exists []. now rewrite app_nil_r.
  - intros a b c [n1 ->] [n2 ->]. exists (n1 ++ n2). now rewrite app_assoc.
  - trivial.
  - intros. now eexists.
  - intros b0 l0 r0 p cs0 v cs0' _. apply rec_appends.
Qed.

(** The loop reports a key that only the local mapping has and that the
    base has. *)
Lemma merge_keys_reports b l r path k lv bv :
  dict_get k l = Some lv -> dict_get k r = None -> dict_get k b = Some bv ->
  forall ks,
    In k ks ->
    forall m cs m' cs',
      merge_keys rec (py_or (VDict b) (VDict [])) l r path ks m cs
      = Ok (m', cs') ->
      In (MergeConflict.__init__ (key_path path k) bv lv VNone) cs'.
Proof.
  intros El Er Eb. induction ks as [|key rest IH]; intros Hin m cs m' cs' H;
    [destruct Hin|].
  destruct (String.eqb_spec key k) as [->|Hne].
  - cbn [merge_keys] in H. rewrite El, Er in H.
    rewrite NoopFacts.py_or_dict in H.
    apply bind_Ok in H as (in_base & cs0 & Hc & H).
    apply lift_Ok in Hc as [Hc ->]. cbn [Dyn.contains] in Hc.
    injection Hc as Hc. unfold dict_mem, assoc_mem in Hc.
    unfold dict_get in Eb. rewrite Eb in Hc. subst in_base.
    apply bind_Ok in H as ([] & cs1 & Hstep & H).
    apply bind_Ok in Hstep as (bv' & cs2 & Hg & Hstep).
    apply lift_Ok in Hg as [Hg ->]. cbn [Dyn.getitem] in Hg.
    unfold dict_get in Hg. rewrite Eb in Hg. injection Hg as <-.
    unfold append_conflict in Hstep. injection Hstep as <-.
    rewrite <- (NoopFacts.py_or_dict b) in H.
    apply merge_keys_appends in H as [new ->].
    apply in_or_app. left. apply in_or_app. right. now left.
  - destruct Hin as [E|Hin]; [congruence|].
    apply OrderFacts.merge_keys_cons in H as (v0 & cs1 & H & _).
    now apply (IH Hin _ _ _ _ H).
Qed.
End Reports.

(** Two mappings are unequal when one has a key that the other has not. *)
Lemma py_eq_dict_missing l r k lv :
  dict_get k l = Some lv -> dict_get k r = None ->
  py_eq (VDict l) (VDict r) = false.
Proof.
  intros El Er. rewrite py_eq_dict.
  destruct (entries_eq r l) eqn:E; [|apply andb_false_r].
  exfalso. rewrite entries_eq_spec in E.
  destruct (E k lv (dict_get_In _ _ _ El)) as (v' & Hv & _). congruence.
Qed.

Lemma deleted_key_kept_and_reported py_repr cm fuel path b l r cs M cs' k bv lv :
  NoDup (keys l) -> NoDup (keys r) ->
  dict_get k b = Some bv -> dict_get k l = Some lv -> dict_get k r = None ->
  _deep_merge py_repr cm fuel (VDict b) (VDict l) (VDict r) path cs
  = Ok (M, cs') ->
  (exists m, M = VDict m /\ dict_get k m = Some lv) /\
  In (MergeConflict.__init__ (key_path path k) bv lv VNone) cs'.
Proof.
  intros Hl Hr Eb El Er H. destruct fuel as [|fuel]; [discriminate H|].
  cbn [_deep_merge] in H. rewrite (py_eq_dict_missing l r k lv El Er) in H.
  cbn [is_dict andb Dyn.entries] in H. unfold _merge_dicts in H.
  apply bind_Ok in H as (m & cs1 & Hm & H).
  unfold ret in H. injection H as <- <-.
  assert (Hin : In k (all_keys l r)).
  { rewrite (OrderFacts.all_keys_merged_order l r Hr).
    apply in_or_app. left. apply dict_get_keys. congruence. }
  split.
  - exists m. split; [reflexivity|].
    pose proof (OrderFacts.merge_keys_inv _ _ _ _ _ _ _ _ _ _ Hm) as [Hk _].
    rewrite (OrderFacts.merged_keys cm l r Hl Hr) in Hk.
    assert (Hkm : In k (keys m)).
    { rewrite Hk. apply in_or_app. left. apply dict_get_keys. congruence. }
    destruct (In_keys_get m k Hkm) as [v Hg]. rewrite Hg. f_equal.
    destruct (merge_keys_assigned _ _ _ _ _ _ _ _ _ _ Hm k v Hg) as [Ha _].
    specialize (Ha Hin). unfold Loops.assigned in Ha.
    now rewrite El, Er in Ha.
  - apply (merge_keys_reports (_deep_merge py_repr cm fuel)
             (deep_merge_appends py_repr cm fuel)
             b l r path k lv bv El Er Eb _ Hin _ _ _ _ Hm).
Qed.

(** ** Only a deletion can be resolved without a person *)

(** A conflict that is flagged as auto-resolvable has no remote value. *)
Local Abbreviation deletion_if_auto :=
  (fun c : MergeConflict.t =>
     MergeConflict.auto_resolvable c = true ->
     MergeConflict.remote_value c = VNone).

Lemma wf_py_or a b : wf a = true -> wf b = true -> wf (py_or a b) = true.
Proof. intros Ha Hb. unfold py_or. now destruct (truthy a). Qed.



End ConflictFacts.

(** X14.  A key that the local mapping has kept and the remote mapping has
    deleted: wherever [_deep_merge] merges two mappings (without repeated
    keys) and returns, a key of the local mapping that the base mapping has
    and the remote mapping has not is in the merged mapping with its local
    value, and the conflict (path of the key, base value, local value,
    [None]) is among the conflicts reported. *)
Theorem X14_remote_deletion_is_kept_and_reported :
  forall (py_repr : value -> string) (local_is_CommentedMap : bool)
         (fuel : nat) (path : string) (base local remote : dict)
         (conflicts : list MergeConflict.t) (M : value)
         (conflicts' : list MergeConflict.t)
         (key : string) (base_value local_value : value),
    NoDup (keys local) -> NoDup (keys remote) ->
    dict_get key base = Some base_value ->
    dict_get key local = Some local_value ->
    dict_get key remote = None ->
    PreservingYAMLMerger._deep_merge py_repr local_is_CommentedMap fuel
      (VDict base) (VDict local) (VDict remote) path conflicts
    = Ok (M, conflicts') ->
    (exists merged, M = VDict merged /\
                    dict_get key merged = Some local_value) /\
    In (MergeConflict.__init__ (PreservingYAMLMerger.key_path path key)
                               base_value local_value VNone)
       conflicts'.
Proof.
  intros py_repr cm fuel path b l r cs M cs' k bv lv Hl Hr Eb El Er H.
  exact (ConflictFacts.deleted_key_kept_and_reported py_repr cm fuel path
           b l r cs M cs' k bv lv Hl Hr Eb El Er H).
Qed.

Lemma X14_remote_deletion_is_kept_and_reported_witness :
  (exists merged,
      VDict [("replicas", VInt 2); ("debug", VBool true)] = VDict merged /\
      dict_get "debug" merged = Some (VBool true)) /\
  In (MergeConflict.__init__ "debug" (VBool false) (VBool true) VNone)
     [MergeConflict.__init__ "debug" (VBool false) (VBool true) VNone].
Proof.
  apply (X14_remote_deletion_is_kept_and_reported
           (fun _ => "") true 2 ""
           [("replicas", VInt 1); ("debug", VBool false)]
           [("replicas", VInt 1); ("debug", VBool true)]
           [("replicas", VInt 2)]
           []
           (VDict [("replicas", VInt 2); ("debug", VBool true)])
           [MergeConflict.__init__ "debug" (VBool false) (VBool true) VNone]
           "debug" (VBool false) (VBool true)).
  - repeat constructor; simpl; intuition discriminate.
  - repeat constructor; simpl; intuition discriminate.
  - reflexivity.
  - reflexivity.
  - reflexivity.
  - reflexivity.
Defined.



(* ================================================================== *)
(** * A remote document that is the base *)

Module RemoteNoop.
Import MergeM PreservingYAMLMerger Loops OrderFacts TreeFacts NoopFacts.

Section Loop.
Variable rec : value -> value -> value -> string -> M value.
Variables (b l : dict) (path : string).

(** Every key the loop meets is a key of the local mapping; where the base
    has the key too, the recursive call returns a value equal to the local
    one and reports nothing. *)
Lemma merge_keys_keep ks :
  (forall k, In k ks ->
     exists lv,
       dict_get k l = Some lv /\
       match dict_get k b with
       | Some bv =>
           forall p cs,
           exists mv, rec bv lv bv p cs = Ok (mv, cs) /\ py_eq mv lv = true
       | None => py_eq lv lv = true
       end) ->
  forall m cs,
  exists m',
    merge_keys rec (VDict b) l b path ks m cs = Ok (m', cs) /\
    keys m' = fold_left add_key ks (keys m) /\
    forall k v,
      dict_get k m' = Some v ->
      (In k ks -> exists lv, dict_get k l = Some lv /\ py_eq v lv = true) /\
      (~ In k ks -> dict_get k m = Some v).
Proof.
  induction ks as [|key rest IH]; intros Hgood m cs.
  - exists m. split; [reflexivity|]. split; [reflexivity|].
    intros k v Hg. split; [intros []|now intros _].
  - destruct (Hgood key (or_introl eq_refl)) as [lv [Hl Hb]].
    assert (Hrest : forall k, In k rest ->
              exists lv,
                dict_get k l = Some lv /\
                match dict_get k b with
                | Some bv =>
                    forall p cs,
                    exists mv, rec bv lv bv p cs = Ok (mv, cs)
                               /\ py_eq mv lv = true
                | None => py_eq lv lv = true
                end)
      by (intros k Hin; apply Hgood; now right).
    assert (Hstep : exists v0,
               merge_keys rec (VDict b) l b path (key :: rest) m cs
               = merge_keys rec (VDict b) l b path rest (dict_set key v0 m) cs
               /\ py_eq v0 lv = true).
    { cbn [merge_keys]. rewrite Hl.
      destruct (dict_get key b) as [bv|] eqn:Eb.
      - destruct (Hb (key_path path key) cs) as [mv [Hrec He]].
        exists mv. split; [|exact He].
        assert (Ht : truthy (VDict b) = true)
          by (destruct b; [discriminate Eb|reflexivity]).
        rewrite Ht. unfold bind, lift, Dyn.get. rewrite Eb, Hrec. reflexivity.
      - exists lv. split; [|exact Hb].
        unfold bind, lift, Dyn.contains, dict_mem, assoc_mem, ret.
        unfold dict_get in Eb. now rewrite Eb. }
    destruct Hstep as [v0 [Hstep He0]]. rewrite Hstep.
    destruct (IH Hrest (dict_set key v0 m) cs) as [m' [Hm [Hk Hv]]].
    exists m'. split; [exact Hm|]. split.
    + rewrite Hk, keys_dict_set. reflexivity.
    + intros k v Hg. destruct (Hv k v Hg) as [Hin Hout].
      destruct (in_dec string_dec k rest) as [Hi|Hni].
      * split; [intros _; now apply Hin|]. intro Hn. exfalso. apply Hn. now right.
      * specialize (Hout Hni). rewrite dict_get_set in Hout.
        destruct (String.eqb_spec k key) as [->|Hne].
        -- inversion Hout; subst. split; [|intro Hn; exfalso; apply Hn; now left].
           intros _. now exists lv.
        -- split; [intros [E|Hi]; [congruence|contradiction]|now intros _].
Qed.

End Loop.

(** With every key of [r] among the keys of [l], the merged order is the
    local order. *)
Lemma merged_order_covered l r :
  incl r l -> Stated.merged_order l r = l.
Proof.
  intro Hincl. unfold Stated.merged_order.
  rewrite filter_none; [apply app_nil_r|].
  intros k Hin. apply negb_false_iff, mem_str_In. now apply Hincl.
Qed.

Lemma deep_merge_keep py_repr cm fuel :
  forall B L path cs,
    height L < fuel ->
    wf B = true -> wf L = true ->
    py_eq B B = true -> py_eq L L = true ->
    Stated.remote_keeps B L = true ->
    exists M,
      _deep_merge py_repr cm fuel B L B path cs = Ok (M, cs) /\
      py_eq M L = true.
Proof.
  induction fuel as [|fuel IH]; intros B L path cs Hh HB HL HBB HLL Hk;
    [inversion Hh|].
  cbn [_deep_merge].
  destruct (py_eq L B) eqn:ELB; [exists L; now split|].
  assert (EBL : py_eq B L = false).
  { destruct (py_eq B L) eqn:E; [|reflexivity].
    apply (py_eq_sym _ _ HB HL) in E. congruence. }
  destruct (is_dict L && is_dict B) eqn:Ed.
  - destruct L as [| | | | | |l]; try discriminate Ed.
    destruct B as [| | | | | |b]; try discriminate Ed.
    cbn [Dyn.entries]. rewrite py_or_dict.
    pose proof HB as HB'. pose proof HL as HL'.
    apply wf_dict in HB'. apply wf_dict in HL'.
    destruct HB' as [Hndb _], HL' as [Hndl _].
    pose proof (remote_keeps_dict b l Hk EBL) as Hkeep.
    assert (Hincl : incl (keys b) (keys l)).
    { intros k Hin. apply In_keys in Hin. destruct Hin as [v Hg].
      destruct (Hkeep k v (dict_get_In _ _ _ Hg)) as [lv [Hl _]].
      apply In_keys. eauto. }
    assert (Hall : all_keys l b = keys l).
    { rewrite (all_keys_merged_order l b Hndb).
      now apply merged_order_covered. }
    assert (Hgood : forall k, In k (all_keys l b) ->
              exists lv,
                dict_get k l = Some lv /\
                match dict_get k b with
                | Some bv =>
                    forall p cs,
                    exists mv,
                      _deep_merge py_repr cm fuel bv lv bv p cs = Ok (mv, cs)
                      /\ py_eq mv lv = true
                | None => py_eq lv lv = true
                end).
    { intros k Hin. rewrite Hall in Hin. apply In_keys in Hin.
      destruct Hin as [lv Hl]. exists lv. split; [exact Hl|].
      destruct (dict_get k b) as [bv|] eqn:Eb.
      - intros p cs0.
        destruct (Hkeep k bv (dict_get_In _ _ _ Eb)) as [lv' [Hl' Hkv]].
        assert (lv' = lv) by congruence. subst lv'.
        apply IH.
        + pose proof (height_get l k lv Hl). lia.
        + exact (wf_get b k bv HB Eb).
        + exact (wf_get l k lv HL Hl).
        + exact (py_eq_refl_get b k bv HBB Eb).
        + exact (py_eq_refl_get l k lv HLL Hl).
        + exact Hkv.
      - exact (py_eq_refl_get l k lv HLL Hl). }
    destruct (merge_keys_keep (_deep_merge py_repr cm fuel) b l path
                (all_keys l b) Hgood (placeholders cm l) cs)
      as [m [Hm [Hkeys Hvals]]].
    exists (VDict m). unfold _merge_dicts, bind. rewrite Hm.
    split; [reflexivity|].
    rewrite (merged_keys cm l b Hndl Hndb) in Hkeys.
    rewrite (merged_order_covered _ _ Hincl) in Hkeys.
    rewrite py_eq_dict, andb_true_iff, Nat.eqb_eq, entries_eq_spec. split.
    + now rewrite <- (length_keys m), <- (length_keys l), Hkeys.
    + intros k v Hin.
      assert (Hg : dict_get k m = Some v).
      { apply In_dict_get; [|exact Hin]. now rewrite Hkeys. }
      apply (Hvals k v Hg). rewrite Hall, <- Hkeys. apply In_keys. eauto.
  - destruct (is_list L && is_list B) eqn:El.
    + destruct L as [| | | | |l|]; try discriminate El.
      destruct B as [| | | | |b|]; try discriminate El.
      cbn [Dyn.items]. rewrite py_or_list.
      cbn [Stated.remote_keeps] in Hk. rewrite EBL in Hk. cbn [orb] in Hk.
      apply negb_true_iff in Hk. rewrite orb_comm in Hk.
      unfold _merge_lists. rewrite Hk. unfold py_ne. rewrite HBB, ELB.
      cbn [negb andb]. exists (VList l). now split.
    + unfold py_ne. rewrite ELB, EBL, HBB. cbn [negb]. exists L. now split.
Qed.

End RemoteNoop.

(** X16.  No-op remote: for well-formed documents that equal themselves,
    when the remote document is the base and the local document has kept
    every key of the base (at each pair of unequal mappings reached key by
    key; a pair of unequal sequences so reached being positional),
    [PreservingYAMLMerger.merge] returns a document equal to the local one
    and no conflict. *)
Theorem X16_unchanged_remote_returns_the_local_document :
  forall (py_repr : value -> string) (local_is_CommentedMap : bool)
         (B L : value),
    wf B = true -> wf L = true ->
    py_eq B B = true -> py_eq L L = true ->
    Stated.remote_keeps B L = true ->
    exists M,
      PreservingYAMLMerger.merge py_repr local_is_CommentedMap B L B
      = Ok (M, []) /\
      py_eq M L = true.
Proof.
  intros py_repr cm B L HB HL HBB HLL Hk.
  apply RemoteNoop.deep_merge_keep; try assumption.
  apply Nat.lt_succ_diag_r.
Qed.

Lemma X16_unchanged_remote_returns_the_local_document_witness :
  exists M,
    PreservingYAMLMerger.merge (fun _ => "") true
      (VDict [("a", VInt 1); ("tags", VList [VStr "x"])])
      (VDict [("b", VInt 2); ("tags", VList [VStr "y"]); ("a", VInt 3)])
      (VDict [("a", VInt 1); ("tags", VList [VStr "x"])])
    = Ok (M, []) /\
    py_eq M (VDict [("b", VInt 2); ("tags", VList [VStr "y"]); ("a", VInt 3)])
    = true.
Proof.
  apply (X16_unchanged_remote_returns_the_local_document
           (fun _ => "") true
           (VDict [("a", VInt 1); ("tags", VList [VStr "x"])])
           (VDict [("b", VInt 2); ("tags", VList [VStr "y"]); ("a", VInt 3)]));
    reflexivity.
Defined.

(* ================================================================== *)
(** * Lists of named items: the order of the merged list *)

Module NamedOrderFacts.
Import MergeM PreservingYAMLMerger Loops MergeRule NamedOrder.

Lemma seen_mem_add n name seen :
  Dyn.seen_mem n (Dyn.seen_add name seen)
  = Dyn.seen_mem n seen || py_eq n name.
Proof.
  unfold Dyn.seen_add. destruct (Dyn.seen_mem name seen) eqn:E.
  - destruct (py_eq n name) eqn:En; [|now rewrite orb_false_r].
    rewrite orb_true_r. unfold Dyn.seen_mem in *.
    apply existsb_exists in E as (s & Hin & Hs).
    apply existsb_exists. exists s. split; [exact Hin|].
    exact (py_eq_trans _ _ _ En Hs).
  - unfold Dyn.seen_mem. rewrite existsb_app. cbn [existsb].
    now rewrite orb_false_r.
Qed.

Section Loop.
Variable py_repr : value -> string.
Variable rec : value -> value -> value -> string -> M value.
Variables (base_by_name remote_by_name : Dyn.names) (path : string).

Lemma merge_local_items_order local :
  forall merged seen cs xs' seen' cs',
    merge_local_items py_repr rec base_by_name remote_by_name path
                      local merged seen cs
    = Ok ((xs', seen'), cs') ->
    exists xs,
      xs' = merged ++ xs /\
      Forall2 (entry_of py_repr rec remote_by_name path)
              (filter kept local) xs /\
      forall n,
        Dyn.seen_mem n seen'
        = Dyn.seen_mem n seen
          || existsb (fun item => kept item && py_eq n (Dyn.item_name item))
                     local.
Proof.
  induction local as [|item rest IH]; intros merged seen cs xs' seen' cs' H.
  - cbn in H. injection H as <- <- _. exists []. split; [now rewrite app_nil_r|].
    split; [constructor|]. intro n. cbn. now rewrite orb_false_r.
  - cbn [merge_local_items] in H. cbn [filter existsb].
    destruct (is_dict item) eqn:Ed.
    2:{ assert (Ek : kept item = false) by (unfold kept; now rewrite Ed).
        rewrite Ek. cbn [andb orb].
        apply IH in H as (xs & -> & HF & Hs). exists xs.
        split; [reflexivity|]. split; [exact HF|exact Hs]. }
    destruct (truthy (Dyn.item_name item)) eqn:Et.
    2:{ assert (Ek : kept item = false) by (unfold kept; now rewrite Ed, Et).
        rewrite Ek. cbn [andb orb].
        apply IH in H as (xs & -> & HF & Hs). exists xs.
        split; [reflexivity|]. split; [exact HF|exact Hs]. }
    assert (Ek : kept item = true) by (unfold kept; now rewrite Ed, Et).
    rewrite Ek. cbn [andb].
    destruct (Dyn.names_get (Dyn.item_name item) remote_by_name)
      as [ritem|] eqn:En.
    + apply bind_Ok in H as (mi & cs1 & Hrec & H).
      apply IH in H as (xs & -> & HF & Hs). exists (mi :: xs).
      split; [now rewrite <- app_assoc|]. split.
      * constructor; [|exact HF]. unfold entry_of. rewrite En. eauto.
      * intro n. now rewrite Hs, seen_mem_add, orb_assoc.
    + apply IH in H as (xs & -> & HF & Hs). exists (item :: xs).
      split; [now rewrite <- app_assoc|]. split.
      * constructor; [|exact HF]. unfold entry_of. now rewrite En.
      * intro n. now rewrite Hs, seen_mem_add, orb_assoc.
Qed.

End Loop.

Lemma merge_named_lists_order py_repr rec base local remote path cs M cs' :
  _merge_named_lists py_repr rec base local remote path cs = Ok (M, cs') ->
  exists xs,
    M = VList (xs ++ additions local (by_name_pure remote [])) /\
    Forall2 (entry_of py_repr rec (by_name_pure remote []) path)
            (filter kept local) xs.
Proof.
  intro H. unfold _merge_named_lists in H.
  apply bind_Ok in H as (base_items & c0 & _ & H).
  apply bind_Ok in H as (bbn & c1 & _ & H).
  apply bind_Ok in H as (lbn & c2 & _ & H).
  apply bind_Ok in H as (rbn & c3 & Hr & H).
  apply lift_Ok in Hr as [Hr _]. apply by_name_Ok in Hr. subst rbn.
  apply bind_Ok in H as ([xs' seen'] & c4 & Hms & H).
  unfold ret in H. injection H as <- _.
  apply merge_local_items_order in Hms as (xs & -> & HF & Hs).
  exists xs. split; [|exact HF]. cbn [fst snd app]. do 2 f_equal.
  unfold remote_only, additions. f_equal. apply filter_ext.
  intro ni. now rewrite Hs.
Qed.

End NamedOrderFacts.

(** X17.  The order of a merged list of named items: when
    [_merge_named_lists] returns, the merged list is, first, one entry for
    each local item that is a mapping with a truthy [name], in local order
    (the item itself when no remote item has its name, and else the result
    of the recursive merge of the item with the remote item of that name),
    and then the remote items whose name no such local item has, in the
    order in which the names first occur in the remote list. *)
Theorem X17_named_list_order :
  forall (py_repr : value -> string)
         (rec : value -> value -> value -> string -> MergeM.M value)
         (base : value) (local remote : list value) (path : string)
         (conflicts : list MergeConflict.t) (M : value)
         (conflicts' : list MergeConflict.t),
    PreservingYAMLMerger._merge_named_lists py_repr rec base local remote
                                            path conflicts
    = Ok (M, conflicts') ->
    exists entries,
      M = VList (entries
                 ++ NamedOrder.additions local
                                         (Loops.by_name_pure remote [])) /\
      Forall2 (NamedOrder.entry_of py_repr rec
                                   (Loops.by_name_pure remote []) path)
              (filter NamedOrder.kept local) entries.
Proof.
  intros py_repr rec base local remote path cs M cs' H.
  exact (NamedOrderFacts.merge_named_lists_order py_repr rec base local
           remote path cs M cs' H).
Qed.

Lemma X17_named_list_order_witness :
  exists entries,
    VList [VDict [("name", VStr "b"); ("level", VStr "high")];
           VDict [("name", VStr "a")];
           VDict [("name", VStr "c")]]
    = VList (entries
             ++ NamedOrder.additions
                  [VDict [("name", VStr "b"); ("level", VStr "high")];
                   VDict [("name", VStr "a")]]
                  (Loops.by_name_pure
                     [VDict [("name", VStr "c")];
                      VDict [("name", VStr "b"); ("level", VStr "low")]]
                     [])) /\
    Forall2 (NamedOrder.entry_of
               (fun _ => "")
               (PreservingYAMLMerger._deep_merge (fun _ => "") true 2)
               (Loops.by_name_pure
                  [VDict [("name", VStr "c")];
                   VDict [("name", VStr "b"); ("level", VStr "low")]]
                  [])
               "policies")
            (filter NamedOrder.kept
                    [VDict [("name", VStr "b"); ("level", VStr "high")];
                     VDict [("name", VStr "a")]])
            entries.
Proof.
  apply (X17_named_list_order
           (fun _ => "")
           (PreservingYAMLMerger._deep_merge (fun _ => "") true 2)
           (VList [VDict [("name", VStr "b"); ("level", VStr "low")]])
           [VDict [("name", VStr "b"); ("level", VStr "high")];
            VDict [("name", VStr "a")]]
           [VDict [("name", VStr "c")];
            VDict [("name", VStr "b"); ("level", VStr "low")]]
           "policies" []
           (VList [VDict [("name", VStr "b"); ("level", VStr "high")];
                   VDict [("name", VStr "a")];
                   VDict [("name", VStr "c")]])
           []).
  reflexivity.
Defined.

(* ================================================================== *)
(** * A base that is not a mapping where both sides are *)

Module BaseTypeFacts.
Import MergeM PreservingYAMLMerger Loops.

(** The first local key is the first key of the loop. *)
Lemma add_keys_head ks :
  forall k0 acc,
    exists tail, fold_left add_key ks (k0 :: acc) = k0 :: tail.
Proof.
  induction ks as [|k ks IH]; intros k0 acc; [now exists acc|].
  cbn [fold_left]. unfold add_key at 2.
  destruct (mem_str k (k0 :: acc)); [apply IH|].
  rewrite <- app_comm_cons. apply IH.
Qed.

Lemma all_keys_head k0 v0 l r :
  exists tail, all_keys ((k0, v0) :: l) r = k0 :: tail.
Proof. unfold all_keys. apply (add_keys_head (keys r) k0 (keys l)). Qed.

End BaseTypeFacts.

(** X19.  A base of another type: when the local and the remote value are
    unequal mappings that share the first local key, and the base value at
    that node is truthy and not a mapping (a non-empty string or list, a
    non-zero number), [_deep_merge] raises [AttributeError]: [base.get] is
    called on a value that has no such method. *)
Theorem X19_base_of_another_type_raises :
  forall (py_repr : value -> string) (local_is_CommentedMap : bool)
         (fuel : nat) (B : value) (key : string) (local_value : value)
         (local_rest remote : dict) (remote_value : value) (path : string)
         (conflicts : list MergeConflict.t),
    truthy B = true ->
    is_dict B = false ->
    dict_get key remote = Some remote_value ->
    py_eq (VDict ((key, local_value) :: local_rest)) (VDict remote) = false ->
    PreservingYAMLMerger._deep_merge py_repr local_is_CommentedMap (S fuel) B
      (VDict ((key, local_value) :: local_rest)) (VDict remote) path conflicts
    = Raise AttributeError.
Proof.
  intros py_repr cm fuel B k lv l r rv path cs Ht Hd Er Ene.
  assert (Hor : py_or B (VDict []) = B) by (unfold py_or; now rewrite Ht).
  cbn [PreservingYAMLMerger._deep_merge]. rewrite Ene, Hor.
  cbn [is_dict andb Dyn.entries].
  unfold PreservingYAMLMerger._merge_dicts, MergeM.bind.
  destruct (BaseTypeFacts.all_keys_head k lv l r) as [tail ->].
  cbn [PreservingYAMLMerger.merge_keys].
  assert (El : dict_get k ((k, lv) :: l) = Some lv).
  { unfold dict_get. cbn [assoc_get]. now rewrite String.eqb_refl. }
  rewrite El, Er, Ht. unfold MergeM.bind, MergeM.lift.
  destruct B; try discriminate Hd; reflexivity.
Qed.

Lemma X19_base_of_another_type_raises_witness :
  PreservingYAMLMerger._deep_merge (fun _ => "") true 1 (VStr "nginx")
    (VDict [("repository", VStr "nginx"); ("tag", VStr "1.25")])
    (VDict [("repository", VStr "nginx"); ("tag", VStr "1.27")]) "image" []
  = Raise AttributeError.
Proof.
  apply (X19_base_of_another_type_raises
           (fun _ => "") true 0 (VStr "nginx") "repository" (VStr "nginx")
           [("tag", VStr "1.25")]
           [("repository", VStr "nginx"); ("tag", VStr "1.27")]
           (VStr "nginx") "image" []); reflexivity.
Defined.

(* ================================================================== *)
(** * [YAMLMerger]: a key that the local mapping has deleted *)

Module PlainFacts.
Import MergeM YAMLMerger MergeRule.

Lemma appends_refl (cs : list MergeConflict.t) : exists new, cs = cs ++ new.
Proof. exists []. now rewrite app_nil_r. Qed.

Lemma appends_trans (a b c : list MergeConflict.t) :
  (exists new, b = a ++ new) -> (exists new, c = b ++ new) ->
  exists new, c = a ++ new.
Proof. intros [n1 ->] [n2 ->]. exists (n1 ++ n2). now rewrite app_assoc. Qed.

Lemma three_way_appends b l r p cs v cs' :
  three_way b l r p cs = Ok (v, cs') -> exists new, cs' = cs ++ new.
Proof.
  unfold three_way.
  destruct (py_eq b l); [intros [= _ <-]; apply appends_refl|].
  destruct (py_eq b r); [intros [= _ <-]; apply appends_refl|].
  unfold bind, append_conflict, ret. intros [= _ <-]. now eexists.
Qed.

Section Loops.
Variable py_repr : value -> string.
Variable rec : value -> value -> value -> string -> M value.
Hypothesis rec_appends :
  forall b lv rv p cs v cs',
    rec b lv rv p cs = Ok (v, cs') -> exists new, cs' = cs ++ new.

(** One turn of the loop: the merged mapping is left as it is or changed
    at the key of the turn. *)
Lemma plain_merge_keys_cons base l r path key rest m cs m' cs' :
  merge_keys rec base l r path (key :: rest) m cs = Ok (m', cs') ->
  exists m1 cs1,
    merge_keys rec base l r path rest m1 cs1 = Ok (m', cs') /\
    (m1 = m \/ exists v, m1 = dict_set key v m) /\
    exists new, cs1 = cs ++ new.
Proof.
  cbn [merge_keys]. intro H.
  destruct (dict_get key l) as [lv|], (dict_get key r) as [rv|].
  - apply bind_Ok in H as (bv & c0 & Hb & H). apply lift_Ok in Hb as [_ ->].
    apply bind_Ok in H as (v & c1 & Hv & H).
    exists (dict_set key v m), c1. split; [exact H|]. split; [right; eauto|].
    exact (rec_appends _ _ _ _ _ _ _ Hv).
  - apply bind_Ok in H as (in_base & c0 & Hc & H).
    apply lift_Ok in Hc as [_ ->].
    apply bind_Ok in H as ([] & c1 & Hstep & H).
    exists (dict_set key lv m), c1. split; [exact H|]. split; [right; eauto|].
    destruct in_base.
    + apply bind_Ok in Hstep as (bv & c2 & Hg & Hstep).
      apply lift_Ok in Hg as [_ ->].
      unfold append_conflict in Hstep. injection Hstep as <-. now eexists.
    + unfold ret in Hstep. injection Hstep as <-. apply appends_refl.
  - apply bind_Ok in H as (in_base & c0 & Hc & H).
    apply lift_Ok in Hc as [_ ->].
    destruct in_base.
    + apply bind_Ok in H as (bv & c2 & Hg & H).
      apply lift_Ok in Hg as [_ ->].
      apply bind_Ok in H as ([] & c3 & Hstep & H).
      unfold append_conflict in Hstep. injection Hstep as <-.
      exists m. eexists. split; [exact H|]. split; [now left|now eexists].
    + exists (dict_set key rv m), cs. split; [exact H|].
      split; [right; eauto|apply appends_refl].
  - discriminate H.
Qed.

Lemma plain_merge_keys_appends base l r path ks :
  forall m cs m' cs',
    merge_keys rec base l r path ks m cs = Ok (m', cs') ->
    exists new, cs' = cs ++ new.
Proof.
  induction ks as [|key rest IH]; intros m cs m' cs' H.
  - cbn in H. injection H as _ <-. apply appends_refl.
  - apply plain_merge_keys_cons in H as (m1 & cs1 & H & _ & Hnew).
    exact (appends_trans _ _ _ Hnew (IH _ _ _ _ H)).
Qed.

Lemma plain_merge_names_appends bbn lbn rbn path names :
  forall merged cs merged' cs',
    merge_names py_repr rec bbn lbn rbn path names merged cs
    = Ok (merged', cs') ->
    exists new, cs' = cs ++ new.
Proof.
  induction names as [|name rest IH]; intros merged cs merged' cs' H.
  - cbn in H. injection H as _ <-. apply appends_refl.
  - cbn [merge_names] in H. cbv zeta in H.
    match type of H with
    | (if ?c then _ else _) _ = _ => destruct c
    end.
    + apply bind_Ok in H as (v & c1 & Hv & H).
      exact (appends_trans _ _ _ (rec_appends _ _ _ _ _ _ _ Hv)
                           (IH _ _ _ _ H)).
    + match type of H with
      | (if ?c then _ else _) _ = _ => destruct c
      end; exact (IH _ _ _ _ H).
Qed.

Lemma plain_merge_lists_appends sn base l r path cs M cs' :
  _merge_lists py_repr sn rec base l r path cs = Ok (M, cs') ->
  exists new, cs' = cs ++ new.
Proof.
  unfold _merge_lists. destruct (_is_named_list l || _is_named_list r).
  - unfold _merge_named_lists. intro H.
    apply bind_Ok in H as (base_items & c0 & Hit & H).
    apply lift_Ok in Hit as [_ ->].
    apply bind_Ok in H as (bbn & c0 & Hb & H). apply lift_Ok in Hb as [_ ->].
    apply bind_Ok in H as (lbn & c0 & Hl & H). apply lift_Ok in Hl as [_ ->].
    apply bind_Ok in H as (rbn & c0 & Hr & H). apply lift_Ok in Hr as [_ ->].
    apply bind_Ok in H as (ms & c1 & Hms & H).
    unfold ret in H. injection H as _ <-.
    exact (plain_merge_names_appends _ _ _ _ _ _ _ _ _ Hms).
  - destruct (py_ne (VList l) base && py_ne (VList r) base
              && py_ne (VList l) (VList r)).
    + unfold bind, append_conflict, ret. intros [= _ <-]. now eexists.
    + destruct (py_ne (VList l) base); unfold ret; intros [= _ <-];
        apply appends_refl.
Qed.

(** A key that only the remote mapping has and that the base has: the loop
    never puts it in the merged mapping, and reports it. *)
Lemma plain_merge_keys_drops b l r path k bv rv :
  dict_get k l = None -> dict_get k r = Some rv -> dict_get k b = Some bv ->
  forall ks m cs m' cs',
    merge_keys rec (VDict b) l r path ks m cs = Ok (m', cs') ->
    (dict_get k m = None -> dict_get k m' = None) /\
    (In k ks ->
     In (MergeConflict.__init__ (key_path path k) bv VNone rv) cs').
Proof.
  intros El Er Eb. induction ks as [|key rest IH]; intros m cs m' cs' H.
  - cbn in H. injection H as <- _. split; [trivial|intros []].
  - destruct (String.eqb_spec key k) as [->|Hne].
    + cbn [merge_keys] in H. rewrite El, Er in H.
      apply bind_Ok in H as (in_base & c0 & Hc & H).
      apply lift_Ok in Hc as [Hc ->]. cbn [Dyn.contains] in Hc.
      injection Hc as Hc. unfold dict_mem, assoc_mem in Hc.
      unfold dict_get in Eb. rewrite Eb in Hc. subst in_base.
      apply bind_Ok in H as (bv' & c2 & Hg & H).
      apply lift_Ok in Hg as [Hg ->]. cbn [Dyn.getitem] in Hg.
      unfold dict_get in Hg. rewrite Eb in Hg. injection Hg as <-.
      apply bind_Ok in H as ([] & c3 & Hstep & H).
      unfold append_conflict in Hstep. injection Hstep as <-.
      destruct (IH _ _ _ _ H) as [Hnone _]. split; [exact Hnone|].
      intros _. apply plain_merge_keys_appends in H as [new ->].
      apply in_or_app. left. apply in_or_app. right. now left.
    + apply plain_merge_keys_cons in H as (m1 & cs1 & H & Hm1 & _).
      destruct (IH _ _ _ _ H) as [Hnone Hrep]. split.
      * intro Hm. apply Hnone. destruct Hm1 as [->|[v ->]]; [exact Hm|].
        rewrite OrderFacts.dict_get_set.
        destruct (String.eqb_spec k key); [congruence|exact Hm].
      * intros [E|Hin]; [congruence|now apply Hrep].
Qed.

End Loops.

Lemma plain_deep_merge_appends py_repr si sn fuel :
  forall B L R path cs M cs',
    _deep_merge py_repr si sn fuel B L R path cs = Ok (M, cs') ->
    exists new, cs' = cs ++ new.
Proof.
  induction fuel as [|fuel IH]; intros B L R path cs M cs' H;
    [discriminate H|].
  cbn [_deep_merge] in H.
  destruct (py_eq L R); [injection H as _ <-; apply appends_refl|].
  destruct (negb (pytype_eqb (type L) (type R)));
    [exact (three_way_appends _ _ _ _ _ _ _ H)|].
  destruct (is_dict L && is_dict R).
  { unfold _merge_dicts in H. apply bind_Ok in H as (m & c1 & Hm & H).
    unfold ret in H. injection H as _ <-.
    exact (plain_merge_keys_appends _ IH _ _ _ _ _ _ _ _ _ Hm). }
  destruct (is_list L && is_list R);
    [exact (plain_merge_lists_appends py_repr _ IH _ _ _ _ _ _ _ _ H)|].
  destruct (py_ne L R); [exact (three_way_appends _ _ _ _ _ _ _ H)|].
  injection H as _ <-. apply appends_refl.
Qed.

Lemma In_add_keys ks :
  forall acc x,
    In x acc \/ In x ks -> In x (fold_left Loops.add_key ks acc).
Proof.
  induction ks as [|k ks IH]; intros acc x [H|H]; try (now cbn); try destruct H.
  - cbn [fold_left]. apply IH. left. unfold Loops.add_key.
    destruct (mem_str k acc); [exact H|apply in_or_app; now left].
  - subst. cbn [fold_left]. apply IH. left. unfold Loops.add_key.
    destruct (mem_str x acc) eqn:E; [now apply mem_str_In|].
    apply in_or_app. right. now left.
  - cbn [fold_left]. apply IH. now right.
Qed.

Lemma locally_deleted_key_dropped py_repr si sn fuel path b l r cs M cs' k bv rv :
  (forall ks x, In x ks -> In x (si ks)) ->
  NoDup (keys l) ->
  dict_get k b = Some bv -> dict_get k l = None -> dict_get k r = Some rv ->
  _deep_merge py_repr si sn fuel (VDict b) (VDict l) (VDict r) path cs
  = Ok (M, cs') ->
  (exists m, M = VDict m /\ dict_get k m = None) /\
  In (MergeConflict.__init__ (key_path path k) bv VNone rv) cs'.
Proof.
  intros Hsi Hnd Eb El Er H. destruct fuel as [|fuel]; [discriminate H|].
  cbn [_deep_merge] in H.
  assert (Ene : py_eq (VDict l) (VDict r) = false).
  { destruct (py_eq (VDict l) (VDict r)) eqn:E; [|reflexivity].
    exfalso. pose proof (py_eq_dict_keys l r k Hnd E) as [_ Hk].
    assert (Hin : In k (keys l)) by (apply Hk, dict_get_keys; congruence).
    apply dict_get_keys in Hin. contradiction. }
  rewrite Ene in H. cbn [type pytype_eqb negb is_dict andb Dyn.entries] in H.
  rewrite NoopFacts.py_or_dict in H. unfold _merge_dicts in H.
  apply bind_Ok in H as (m & c1 & Hm & H).
  unfold ret in H. injection H as <- <-.
  destruct (plain_merge_keys_drops (_deep_merge py_repr si sn fuel)
              (plain_deep_merge_appends py_repr si sn fuel)
              b l r path k bv rv El Er Eb _ _ _ _ _ Hm) as [Hnone Hrep].
  split.
  - exists m. split; [reflexivity|]. now apply Hnone.
  - apply Hrep. unfold all_keys. apply Hsi. apply In_add_keys. right.
    apply in_or_app. right. apply dict_get_keys. congruence.
Qed.

End PlainFacts.

(** X20.  [YAMLMerger], a key that the local mapping has deleted: wherever
    its [_deep_merge] merges two mappings and returns (the iteration of the
    set of keys yielding every key), a key of the remote mapping that the
    base mapping has and the local mapping has not is left out of the
    merged mapping, and the conflict (path of the key, base value, [None],
    remote value) is among the conflicts reported. *)
Theorem X20_plain_merger_drops_a_locally_deleted_key :
  forall (py_repr : value -> string)
         (set_iter_keys : list string -> list string)
         (set_iter_names : list value -> list value)
         (fuel : nat) (path : string) (base local remote : dict)
         (conflicts : list MergeConflict.t) (M : value)
         (conflicts' : list MergeConflict.t)
         (key : string) (base_value remote_value : value),
    (forall ks x, In x ks -> In x (set_iter_keys ks)) ->
    NoDup (keys local) ->
    dict_get key base = Some base_value ->
    dict_get key local = None ->
    dict_get key remote = Some remote_value ->
    YAMLMerger._deep_merge py_repr set_iter_keys set_iter_names fuel
      (VDict base) (VDict local) (VDict remote) path conflicts
    = Ok (M, conflicts') ->
    (exists merged, M = VDict merged /\ dict_get key merged = None) /\
    In (MergeConflict.__init__ (YAMLMerger.key_path path key)
                               base_value VNone remote_value)
       conflicts'.
Proof.
  intros py_repr si sn fuel path b l r cs M cs' k bv rv Hsi Hnd Eb El Er H.
  exact (PlainFacts.locally_deleted_key_dropped py_repr si sn fuel path
           b l r cs M cs' k bv rv Hsi Hnd Eb El Er H).
Qed.

Lemma X20_plain_merger_drops_a_locally_deleted_key_witness :
  (exists merged,
      VDict [("replicas", VInt 2)] = VDict merged /\
      dict_get "debug" merged = None) /\
  In (MergeConflict.__init__ "debug" (VBool false) VNone (VBool true))
     [MergeConflict.__init__ "debug" (VBool false) VNone (VBool true)].
Proof.
  apply (X20_plain_merger_drops_a_locally_deleted_key
           (fun _ => "") (fun ks => ks) (fun names => names) 2 ""
           [("replicas", VInt 1); ("debug", VBool false)]
           [("replicas", VInt 2)]
           [("replicas", VInt 2); ("debug", VBool true)]
           []
           (VDict [("replicas", VInt 2)])
           [MergeConflict.__init__ "debug" (VBool false) VNone (VBool true)]
           "debug" (VBool false) (VBool true)).
  - intros ks x Hin. exact Hin.
  - repeat constructor; simpl; intuition discriminate.
  - reflexivity.
  - reflexivity.
  - reflexivity.
  - reflexivity.
Defined.

(* ================================================================== *)
(** * Merging when the local document is the base: named lists *)

Module NamedIndex.
Import MergeM PreservingYAMLMerger Loops MergeRule NamedOrder.

Lemma py_eq_str_l s v : py_eq (VStr s) v = true -> v = VStr s.
Proof.
  destruct v; try discriminate. cbn [py_eq]. intro H.
  apply String.eqb_eq in H. now subst.
Qed.

Lemma py_eq_str_r v s : py_eq v (VStr s) = true -> v = VStr s.
Proof.
  destruct v; try discriminate. cbn [py_eq]. intro H.
  apply String.eqb_eq in H. now subst.
Qed.

Lemma py_eq_str_refl s : py_eq (VStr s) (VStr s) = true.
Proof. cbn [py_eq]. apply String.eqb_refl. Qed.

(** Looking a string up after an assignment. *)
Lemma names_get_set_str n k v acc :
  Dyn.names_get (VStr n) (Dyn.names_set k v acc)
  = if py_eq (VStr n) k then Some v else Dyn.names_get (VStr n) acc.
Proof.
  unfold Dyn.names_get, Dyn.names_set.
  induction acc as [|[k' v'] acc IH]; cbn [assoc_set assoc_get].
  - reflexivity.
  - destruct (py_eq k k') eqn:Ekk; cbn [assoc_get].
    + destruct (py_eq (VStr n) k') eqn:En.
      * apply py_eq_str_l in En. subst k'.
        apply py_eq_str_r in Ekk. subst k. now rewrite py_eq_str_refl.
      * destruct (py_eq (VStr n) k) eqn:Enk; [|reflexivity].
        apply py_eq_str_l in Enk. subst k. congruence.
    + destruct (py_eq (VStr n) k') eqn:En.
      * apply py_eq_str_l in En. subst k'.
        destruct (py_eq (VStr n) k) eqn:Enk; [|reflexivity].
        apply py_eq_str_l in Enk. subst k.
        rewrite py_eq_str_refl in Ekk. discriminate.
      * exact IH.
Qed.

(** The dictionary by name holds, under a string, the last mapping of that
    name. *)
Lemma names_get_by_name_str n items :
  forall acc,
    Dyn.names_get (VStr n) (by_name_pure items acc)
    = match Stated.item_named n items with
      | Some y => Some y
      | None => Dyn.names_get (VStr n) acc
      end.
Proof.
  induction items as [|x items IH]; intro acc; [reflexivity|].
  cbn [by_name_pure Stated.item_named].
  destruct (is_dict x) eqn:Ed; cbn [andb].
  - rewrite IH. destruct (Stated.item_named n items); [reflexivity|].
    rewrite names_get_set_str.
    now destruct (py_eq (VStr n) (Dyn.item_name x)).
  - rewrite IH. now destruct (Stated.item_named n items).
Qed.

Lemma names_get_index n items :
  Dyn.names_get (VStr n) (by_name_pure items []) = Stated.item_named n items.
Proof.
  rewrite names_get_by_name_str. now destruct (Stated.item_named n items).
Qed.

Lemma item_named_In n xs y :
  Stated.item_named n xs = Some y ->
  In y xs /\ is_dict y = true /\ Dyn.item_name y = VStr n.
Proof.
  induction xs as [|x xs IH]; [discriminate|].
  cbn [Stated.item_named].
  destruct (Stated.item_named n xs) as [z|].
  - intros [= <-]. destruct (IH eq_refl) as (Hin & Hd & Hn).
    split; [now right|now split].
  - destruct (is_dict x) eqn:Ed; cbn [andb]; [|discriminate].
    destruct (py_eq (VStr n) (Dyn.item_name x)) eqn:En; [|discriminate].
    intros [= <-]. apply py_eq_str_l in En.
    split; [now left|now split].
Qed.

Lemma item_named_None n xs :
  Stated.item_named n xs = None ->
  forall y, In y xs -> is_dict y = true -> Dyn.item_name y <> VStr n.
Proof.
  induction xs as [|x xs IH]; [intros _ y []|].
  cbn [Stated.item_named].
  destruct (Stated.item_named n xs) as [z|]; [discriminate|].
  intros H y [->|Hin] Hd Hn.
  - rewrite Hd, Hn, py_eq_str_refl in H. discriminate.
  - exact (IH eq_refl y Hin Hd Hn).
Qed.

Lemma item_named_exists n xs x :
  In x xs -> is_dict x = true -> Dyn.item_name x = VStr n ->
  exists y, Stated.item_named n xs = Some y.
Proof.
  intros Hin Hd Hn. destruct (Stated.item_named n xs) as [y|] eqn:E;
    [now exists y|].
  exfalso. exact (item_named_None n xs E x Hin Hd Hn).
Qed.

Lemma NoDup_map_eq A B (f : A -> B) (l : list A) a b :
  NoDup (map f l) -> In a l -> In b l -> f a = f b -> a = b.
Proof.
  induction l as [|x l IH]; [intros _ []|].
  cbn [map]. intro H. inversion H as [|? ? Hnin Hnd]; subst.
  intros [->|Ha] [->|Hb] E; auto.
  - exfalso. apply Hnin. rewrite E. now apply in_map.
  - exfalso. apply Hnin. rewrite <- E. now apply in_map.
Qed.

(** In a sequence whose names do not repeat, each item is the one that the
    sequence holds under its name. *)
Lemma item_named_unique n xs x :
  NoDup (map Dyn.item_name xs) ->
  In x xs -> is_dict x = true -> Dyn.item_name x = VStr n ->
  Stated.item_named n xs = Some x.
Proof.
  intros Hnd Hin Hd Hn.
  destruct (item_named_exists n xs x Hin Hd Hn) as [y Hy].
  rewrite Hy. f_equal.
  destruct (item_named_In n xs y Hy) as (Hiny & _ & Hny).
  apply (NoDup_map_eq _ _ Dyn.item_name xs y x Hnd Hiny Hin). congruence.
Qed.

Lemma Forall2_impl_In A B (P Q : A -> B -> Prop) xs ys :
  (forall x y, In x xs -> In y ys -> P x y -> Q x y) ->
  Forall2 P xs ys -> Forall2 Q xs ys.
Proof.
  intros H HF. induction HF as [|x y xs ys Hp HF IH]; constructor.
  - apply H; [now left|now left|exact Hp].
  - apply IH. intros x' y' Hx Hy. apply H; now right.
Qed.

Lemma Forall2_In_l A B (P : A -> B -> Prop) xs ys x :
  Forall2 P xs ys -> In x xs -> exists y, In y ys /\ P x y.
Proof.
  intro HF. induction HF as [|x0 y0 xs ys Hp HF IH]; [intros []|].
  intros [->|Hin].
  - exists y0. split; [now left|exact Hp].
  - destruct (IH Hin) as (y & Hy & Hpy). exists y. split; [now right|exact Hpy].
Qed.

Lemma Forall2_In_r A B (P : A -> B -> Prop) xs ys y :
  Forall2 P xs ys -> In y ys -> exists x, In x xs /\ P x y.
Proof.
  intro HF. induction HF as [|x0 y0 xs ys Hp HF IH]; [intros []|].
  intros [->|Hin].
  - exists x0. split; [now left|exact Hp].
  - destruct (IH Hin) as (x & Hx & Hpx). exists x. split; [now right|exact Hpx].
Qed.

Lemma filter_none_In A (f : A -> bool) l :
  (forall x, In x l -> f x = false) -> filter f l = [].
Proof.
  induction l as [|x l IH]; intro H; cbn [filter]; [reflexivity|].
  rewrite (H x (or_introl eq_refl)). apply IH. intros y Hy. apply H. now right.
Qed.

Lemma filter_all_In A (f : A -> bool) l :
  (forall x, In x l -> f x = true) -> filter f l = l.
Proof.
  induction l as [|x l IH]; intro H; cbn [filter]; [reflexivity|].
  rewrite (H x (or_introl eq_refl)). f_equal. apply IH.
  intros y Hy. apply H. now right.
Qed.

Lemma items_eq_app xs ys : forall xs' ys',
  items_eq xs xs' = true -> items_eq ys ys' = true ->
  items_eq (xs ++ ys) (xs' ++ ys') = true.
Proof.
  induction xs as [|x xs IH]; intros [|x' xs'] ys' H1 H2;
    try discriminate H1; [exact H2|].
  cbn [items_eq app] in *. apply andb_prop in H1 as [Hx Hxs].
  rewrite Hx. cbn [andb]. now apply IH.
Qed.

Lemma items_eq_app_refl xs ys :
  items_eq (xs ++ ys) (xs ++ ys) = true -> items_eq ys ys = true.
Proof.
  induction xs as [|x xs IH]; [now intro|].
  cbn [items_eq app]. intro H. apply andb_prop in H as [_ H]. now apply IH.
Qed.

End NamedIndex.

Module LocalIsBaseFacts.
Import MergeM PreservingYAMLMerger Loops OrderFacts TreeFacts MergeRule
       NamedOrder NamedIndex LocalIsBase.

Lemma str_name_spec item s :
  str_name item = Some s <->
  is_dict item = true /\ Dyn.item_name item = VStr s.
Proof.
  unfold str_name, Dyn.item_name.
  destruct item as [| | | | | |d]; cbn [is_dict Dyn.entries];
    try (split; [discriminate|intros [H _]; discriminate H]).
  destruct (dict_get "name" d) as [[| | | |t| |]|];
    try (split; [discriminate|intros [_ H]; discriminate H]).
  split; [intros [= ->]; now split|intros [_ [= ->]]; reflexivity].
Qed.

Lemma str_names_spec items : forall l,
  str_names items = Some l ->
  map Dyn.item_name items = map VStr l /\
  (forall y, In y items -> is_dict y = true) /\
  names_hashable items = true.
Proof.
  induction items as [|x items IH]; intros l H.
  - injection H as <-. repeat split. intros y [].
  - cbn [str_names] in H.
    destruct (str_name x) as [s|] eqn:Es; [|discriminate].
    destruct (str_names items) as [l'|]; [|discriminate].
    injection H as <-. apply str_name_spec in Es as [Hd Hn].
    destruct (IH l' eq_refl) as (Hm & Hds & Hh).
    split; [cbn [map]; now rewrite Hn, Hm|]. split.
    + intros y [<-|Hin]; [exact Hd|now apply Hds].
    + unfold names_hashable in *. cbn [forallb]. rewrite Hd, Hn, Hh.
      reflexivity.
Qed.

Lemma NoDup_map_VStr l : NoDup l -> NoDup (map VStr l).
Proof.
  intro H. induction H as [|s l Hnin Hnd IH]; cbn [map]; constructor;
    [|exact IH].
  intro Hin. apply in_map_iff in Hin as (t & [= ->] & Ht). contradiction.
Qed.

Lemma distinct_names_spec r :
  distinct_names r = true ->
  NoDup (map Dyn.item_name r) /\
  (forall y, In y r -> is_dict y = true /\
                       exists s, Dyn.item_name y = VStr s) /\
  names_hashable r = true.
Proof.
  unfold distinct_names. destruct (str_names r) as [l|] eqn:E; [|discriminate].
  intro Hnd. apply nodup_str_NoDup in Hnd.
  destruct (str_names_spec r l E) as (Hm & Hd & Hh).
  split; [rewrite Hm; now apply NoDup_map_VStr|]. split; [|exact Hh].
  intros y Hin. split; [now apply Hd|].
  apply (in_map Dyn.item_name) in Hin. rewrite Hm in Hin.
  apply in_map_iff in Hin as (s & Hs & _). now exists s.
Qed.

Lemma names_set_fresh k v acc :
  (forall k' v', In (k', v') acc -> py_eq k k' = false) ->
  Dyn.names_set k v acc = acc ++ [(k, v)].
Proof.
  unfold Dyn.names_set. induction acc as [|[k' v'] acc IH]; intro H;
    cbn [assoc_set app]; [reflexivity|].
  rewrite (H k' v' (or_introl eq_refl)). f_equal. apply IH.
  intros k0 v0 Hin. apply (H k0 v0). now right.
Qed.

(** The dictionary by name of a sequence whose names are distinct strings
    holds the items in their order. *)
Lemma by_name_pure_distinct r : forall acc,
  (forall y, In y r -> is_dict y = true) ->
  NoDup (map Dyn.item_name r) ->
  (forall y k' v', In y r -> In (k', v') acc ->
                   py_eq (Dyn.item_name y) k' = false) ->
  (forall y z, In y r -> In z r ->
               py_eq (Dyn.item_name y) (Dyn.item_name z) = true ->
               Dyn.item_name y = Dyn.item_name z) ->
  by_name_pure r acc = acc ++ map (fun y => (Dyn.item_name y, y)) r.
Proof.
  induction r as [|y r IH]; intros acc Hd Hnd Hfresh Heq.
  - cbn. now rewrite app_nil_r.
  - cbn [by_name_pure map]. rewrite (Hd y (or_introl eq_refl)).
    inversion Hnd as [|? ? Hnin Hnd']; subst.
    rewrite names_set_fresh
      by (intros k' v' Hin; apply (Hfresh y k' v'); [now left|exact Hin]).
    rewrite IH; [now rewrite <- app_assoc| | | |].
    + intros z Hz. apply Hd. now right.
    + exact Hnd'.
    + intros z k' v' Hz Hin. apply in_app_or in Hin as [Hin|[[= <- <-]|[]]].
      * apply (Hfresh z k' v'); [now right|exact Hin].
      * destruct (py_eq (Dyn.item_name z) (Dyn.item_name y)) eqn:E;
          [|reflexivity].
        exfalso. apply Hnin.
        rewrite <- (Heq z y (or_intror Hz) (or_introl eq_refl) E).
        now apply in_map.
    + intros z1 z2 H1 H2. apply Heq; now right.
Qed.

Lemma remote_only_map r seen :
  remote_only (map (fun y => (Dyn.item_name y, y)) r) seen
  = filter (fun y => negb (Dyn.seen_mem (Dyn.item_name y) seen)) r.
Proof.
  unfold remote_only. induction r as [|y r IH]; [reflexivity|].
  cbn [map filter fst]. destruct (Dyn.seen_mem (Dyn.item_name y) seen);
    cbn [negb map snd]; [exact IH|now rewrite IH].
Qed.

Lemma aligned_Forall2 keep b : forall r,
  aligned keep b r = true ->
  exists ys1 ys2,
    r = ys1 ++ ys2 /\
    Forall2 (fun x y => py_eq (Dyn.item_name x) (Dyn.item_name y) = true /\
                        keep x y = true)
            (filter kept b) ys1.
Proof.
  induction b as [|x b IH]; intros r H.
  - exists [], r. split; [reflexivity|constructor].
  - cbn [aligned] in H. cbn [filter]. unfold kept at 1.
    destruct (is_dict x && truthy (Dyn.item_name x)).
    + destruct r as [|y r]; [discriminate|].
      apply andb_prop in H as [H Hr]. apply andb_prop in H as [Hn Hk].
      destruct (IH r Hr) as (ys1 & ys2 & -> & HF).
      exists (y :: ys1), ys2. split; [reflexivity|].
      constructor; [now split|exact HF].
    + exact (IH r H).
Qed.

Lemma retains_dict b r :
  remote_retains (VDict b) (VDict r) = true ->
  py_eq (VDict b) (VDict r) = false ->
  forall k v, In (k, v) b ->
              exists rv, dict_get k r = Some rv /\ remote_retains v rv = true.
Proof.
  cbn [remote_retains]. intros H He. rewrite He in H. cbn [orb] in H.
  clear He. revert H.
  induction b as [|[k0 v0] b IH]; intros H k v Hin; [destruct Hin|].
  apply andb_true_iff in H. destruct H as [H0 H1].
  destruct Hin as [E|Hin]; [|now apply IH].
  inversion E; subst.
  destruct (dict_get k r) as [rv|]; [|discriminate]. now exists rv.
Qed.

Lemma retains_list b r :
  remote_retains (VList b) (VList r) = true ->
  py_eq (VList b) (VList r) = false ->
  if _is_named_list b || _is_named_list r
  then names_hashable b = true /\ distinct_names r = true /\
       aligned remote_retains b r = true
  else True.
Proof.
  cbn [remote_retains]. intros H He. rewrite He in H. cbn [orb] in H.
  destruct (_is_named_list b || _is_named_list r); [|exact I].
  apply andb_prop in H as [H Ha]. apply andb_prop in H as [Hh Hd].
  split; [exact Hh|]. split; [exact Hd|].
  clear Hh Hd He. revert r Ha.
  induction b as [|x b IH]; intros r Ha; [reflexivity|].
  cbn [aligned]. destruct (is_dict x && truthy (Dyn.item_name x)).
  - destruct r as [|y r]; [discriminate|].
    apply andb_prop in Ha as [Hxy Ha]. rewrite Hxy. cbn [andb].
    now apply IH.
  - now apply IH.
Qed.

Lemma same_names (P : value -> value -> Prop) xs ys :
  Forall2 P xs ys ->
  (forall x y, P x y -> py_eq (Dyn.item_name x) (Dyn.item_name y) = true) ->
  (forall y, In y ys -> is_dict y = true /\
                        exists s, Dyn.item_name y = VStr s) ->
  map Dyn.item_name xs = map Dyn.item_name ys.
Proof.
  intros HF HP. induction HF as [|x y xs ys Hp HF IH]; intro Hs;
    [reflexivity|].
  cbn [map]. f_equal.
  - destruct (Hs y (or_introl eq_refl)) as (_ & s & Hy).
    specialize (HP x y Hp). rewrite Hy in HP |- *. now apply py_eq_str_r.
  - apply IH. intros z Hz. apply Hs. now right.
Qed.

Section Loop.
Variable py_repr : value -> string.
Variable rec : value -> value -> value -> string -> M value.
Variables (base_by_name remote_by_name : Dyn.names) (path : string).

(** A local item and its remote namesake, as the loop finds them. *)
Local Abbreviation found :=
  (fun x y : value =>
     Dyn.names_get (Dyn.item_name x) remote_by_name = Some y /\
     Dyn.names_get (Dyn.item_name x) base_by_name = Some x /\
     forall p cs, exists m, rec x x y p cs = Ok (m, cs) /\ py_eq m y = true).

Lemma merge_local_items_noop b :
  forall ys1 merged seen cs,
    Forall2 found (filter kept b) ys1 ->
    exists ms seen',
      merge_local_items py_repr rec base_by_name remote_by_name path
                        b merged seen cs
      = Ok ((merged ++ ms, seen'), cs) /\
      items_eq ms ys1 = true /\
      forall n,
        Dyn.seen_mem n seen'
        = Dyn.seen_mem n seen
          || existsb (fun item => kept item && py_eq n (Dyn.item_name item)) b.
Proof.
  induction b as [|x b IH]; intros ys1 merged seen cs HF.
  - cbn [filter] in HF. inversion HF; subst. exists [], seen.
    cbn [merge_local_items]. unfold ret. rewrite app_nil_r.
    split; [reflexivity|]. split; [reflexivity|].
    intro n. cbn [existsb]. now rewrite orb_false_r.
  - cbn [merge_local_items filter existsb] in *. unfold kept at 1 in HF.
    unfold kept at 1.
    destruct (is_dict x) eqn:Ed; cbn [andb] in *.
    2:{ destruct (IH ys1 merged seen cs HF) as (ms & seen' & H & He & Hs).
        exists ms, seen'. split; [exact H|]. split; [exact He|exact Hs]. }
    destruct (truthy (Dyn.item_name x)) eqn:Et.
    2:{ destruct (IH ys1 merged seen cs HF) as (ms & seen' & H & He & Hs).
        exists ms, seen'. split; [exact H|]. split; [exact He|exact Hs]. }
    inversion HF as [|? y ? ys1' (Hr & Hb & Hrec) HF']; subst.
    rewrite Hr, Hb.
    destruct (Hrec (path ++ "[name=" ++ py_str py_repr (Dyn.item_name x) ++ "]")%string cs)
      as (m & Hm & Hem).
    unfold bind at 1. rewrite Hm.
    destruct (IH ys1' (merged ++ [m]) (Dyn.seen_add (Dyn.item_name x) seen)
                 cs HF') as (ms & seen' & H & He & Hs).
    exists (m :: ms), seen'. rewrite H. split; [now rewrite <- app_assoc|].
    split; [cbn [items_eq]; now rewrite Hem, He|].
    intro n. now rewrite Hs, NamedOrderFacts.seen_mem_add, orb_assoc.
Qed.

End Loop.

(** The remote sequence keeps the named items of the local one, which is
    the base: the merged sequence is the remote one. *)
Lemma merge_named_lists_noop py_repr rec b r path cs :
  names_hashable b = true -> distinct_names r = true ->
  items_eq r r = true ->
  (exists ys1 ys2,
      r = ys1 ++ ys2 /\
      Forall2 (fun x y =>
                 py_eq (Dyn.item_name x) (Dyn.item_name y) = true /\
                 forall p cs, exists m,
                     rec x x y p cs = Ok (m, cs) /\ py_eq m y = true)
              (filter kept b) ys1) ->
  exists M,
    _merge_named_lists py_repr rec (VList b) b r path cs = Ok (M, cs) /\
    py_eq M (VList r) = true.
Proof.
  intros Hhb Hdr Hrr (ys1 & ys2 & -> & HF).
  destruct (distinct_names_spec _ Hdr) as (Hnd & Hitems & Hhr).
  set (r := ys1 ++ ys2) in *.
  assert (Hstr : forall y z, In y r -> In z r ->
                   py_eq (Dyn.item_name y) (Dyn.item_name z) = true ->
                   Dyn.item_name y = Dyn.item_name z).
  { intros y z Hy Hz E. destruct (Hitems y Hy) as (_ & s & Hs).
    rewrite Hs in E |- *. apply py_eq_str_l in E. now rewrite E. }
  assert (Hnd1 : NoDup (map Dyn.item_name ys1)).
  { unfold r in Hnd. rewrite map_app in Hnd.
    exact (NoDup_app_remove_r _ _ Hnd). }
  (* the names of the local items that are kept *)
  assert (Hnames : map Dyn.item_name (filter kept b) = map Dyn.item_name ys1).
  { apply (same_names _ _ _ HF); [now intros x y [Hn _]|].
    intros y Hy. apply (Hitems y). apply in_or_app. now left. }
  assert (Hkept : forall x, In x (filter kept b) ->
                            In x b /\ is_dict x = true /\
                            truthy (Dyn.item_name x) = true).
  { intros x Hx. apply filter_In in Hx as [Hx Hk]. unfold kept in Hk.
    apply andb_prop in Hk. tauto. }
  assert (Hfound :
            Forall2 (fun x y =>
                       Dyn.names_get (Dyn.item_name x) (by_name_pure r [])
                       = Some y /\
                       Dyn.names_get (Dyn.item_name x) (by_name_pure b [])
                       = Some x /\
                       forall p cs, exists m,
                           rec x x y p cs = Ok (m, cs) /\ py_eq m y = true)
                    (filter kept b) ys1).
  { apply (Forall2_impl_In _ _ _ _ _ _) with (2 := HF).
    intros x y Hx Hy (Hn & Hrec).
    assert (Hyr : In y r) by (apply in_or_app; now left).
    destruct (Hitems y Hyr) as (Hdy & s & Hs).
    rewrite Hs in Hn. apply py_eq_str_r in Hn.
    destruct (Hkept x Hx) as (Hxb & Hdx & Htx).
    rewrite Hn, !names_get_index. split; [|split; [|exact Hrec]].
    - now apply item_named_unique.
    - destruct (item_named_exists s b x Hxb Hdx Hn) as [z Hz].
      rewrite Hz. f_equal.
      destruct (item_named_In s b z Hz) as (Hzb & Hdz & Hnz).
      apply (NoDup_map_eq _ _ Dyn.item_name (filter kept b) z x);
        [now rewrite Hnames| |exact Hx|congruence].
      apply filter_In. split; [exact Hzb|].
      unfold kept. rewrite Hdz, Hnz, <- Hn, Htx. reflexivity. }
  unfold _merge_named_lists.
  rewrite NoopFacts.py_or_list. cbn [Dyn.iter].
  unfold bind at 1, lift at 1. cbn beta iota.
  rewrite !NamedFacts.by_name_spec, Hhb, Hhr.
  destruct (merge_local_items_noop py_repr rec (by_name_pure b [])
              (by_name_pure r []) path b ys1 [] [] cs Hfound)
    as (ms & seen' & Hms & Hems & Hseen).
  unfold bind, lift. cbn beta iota. rewrite Hms. unfold ret. cbn [fst snd app].
  eexists. split; [reflexivity|].
  rewrite py_eq_list.
  rewrite (by_name_pure_distinct r []);
    [|intros y Hy; now apply Hitems|exact Hnd|intros ? ? ? _ []|exact Hstr].
  cbn [app]. rewrite remote_only_map. subst r. rewrite filter_app.
  rewrite filter_none_In, filter_all_In.
  - cbn [app]. apply items_eq_app; [exact Hems|].
    exact (items_eq_app_refl ys1 ys2 Hrr).
  - (* an item that was added has a name that no local item has *)
    intros y Hy. apply negb_true_iff. rewrite Hseen. cbn [Dyn.seen_mem existsb orb].
    destruct (existsb _ b) eqn:E; [|reflexivity]. exfalso.
    apply existsb_exists in E as (x & Hxb & Hx).
    apply andb_prop in Hx as [Hk Hn].
    assert (Hxk : In x (filter kept b)) by (apply filter_In; now split).
    assert (Hyr : In y (ys1 ++ ys2)) by (apply in_or_app; now right).
    destruct (Hitems y Hyr) as (_ & s & Hs).
    rewrite Hs in Hn. apply py_eq_str_l in Hn.
    apply (in_map Dyn.item_name) in Hxk. rewrite Hnames, Hn, <- Hs in Hxk.
    rewrite map_app in Hnd.
    apply (in_map Dyn.item_name) in Hy.
    clear - Hnd Hxk Hy. induction (map Dyn.item_name ys1) as [|a l IH];
      [destruct Hxk|].
    cbn [app] in Hnd. inversion Hnd as [|? ? Hnin Hnd']; subst.
    destruct Hxk as [->|Hin]; [|now apply IH].
    apply Hnin. apply in_or_app. now right.
  - (* an item that was kept has the name of its local namesake *)
    intros y Hy. apply negb_false_iff. rewrite Hseen. cbn [Dyn.seen_mem existsb orb].
    destruct (Forall2_In_r _ _ _ _ _ _ HF Hy) as (x & Hx & Hn & _).
    apply existsb_exists. exists x. destruct (Hkept x Hx) as (Hxb & Hdx & Htx).
    split; [exact Hxb|]. unfold kept. rewrite Hdx, Htx. cbn [andb].
    assert (Hyr : In y (ys1 ++ ys2)) by (apply in_or_app; now left).
    destruct (Hitems y Hyr) as (_ & s & Hs).
    rewrite Hs in Hn |- *. apply py_eq_str_r in Hn. rewrite Hn.
    apply py_eq_str_refl.
Qed.

End LocalIsBaseFacts.

Module NoopLocal.
Import MergeM PreservingYAMLMerger Loops OrderFacts TreeFacts MergeRule
       NamedOrder NamedIndex LocalIsBase LocalIsBaseFacts NoopFacts.

Lemma deep_merge_noop_retained py_repr cm fuel :
  forall B R path cs,
    height B < fuel ->
    wf B = true -> wf R = true ->
    py_eq B B = true -> py_eq R R = true ->
    remote_retains B R = true ->
    exists M,
      _deep_merge py_repr cm fuel B B R path cs = Ok (M, cs) /\
      py_eq M R = true.
Proof.
  induction fuel as [|fuel IH]; intros B R path cs Hh HB HR HBB HRR Hk;
    [inversion Hh|].
  cbn [_deep_merge].
  destruct (py_eq B R) eqn:EBR; [exists B; now split|].
  destruct (is_dict B && is_dict R) eqn:Ed.
  - destruct B as [| | | | | |b]; try discriminate Ed.
    destruct R as [| | | | | |r]; try discriminate Ed.
    cbn [Dyn.entries]. rewrite py_or_dict.
    pose proof HB as HB'. pose proof HR as HR'.
    apply wf_dict in HB'. apply wf_dict in HR'.
    destruct HB' as [Hndb _], HR' as [Hndr _].
    pose proof (retains_dict b r Hk EBR) as Hkeep.
    assert (Hincl : incl (keys b) (keys r)).
    { intros k Hin. apply In_keys in Hin. destruct Hin as [v Hg].
      destruct (Hkeep k v (dict_get_In _ _ _ Hg)) as [rv [Hr _]].
      apply In_keys. eauto. }
    assert (Hgood : forall k, In k (all_keys b r) ->
                              good_key (_deep_merge py_repr cm fuel) b r k).
    { intros k Hin. rewrite (all_keys_merged_order b r Hndr) in Hin.
      unfold Stated.merged_order in Hin. apply in_app_or in Hin.
      assert (Hr : In k (keys r)).
      { destruct Hin as [Hin|Hin]; [now apply Hincl|].
        apply filter_In in Hin. tauto. }
      apply In_keys in Hr. destruct Hr as [rv Hr].
      exists rv. split; [exact Hr|].
      destruct (dict_get k b) as [v|] eqn:El.
      - intros path0 cs0.
        destruct (Hkeep k v (dict_get_In _ _ _ El)) as [rv' [Hr' Hkv]].
        assert (rv' = rv) by congruence. subst rv'.
        apply IH.
        + pose proof (height_get b k v El). lia.
        + exact (wf_get b k v HB El).
        + exact (wf_get r k rv HR Hr).
        + exact (py_eq_refl_get b k v HBB El).
        + exact (py_eq_refl_get r k rv HRR Hr).
        + exact Hkv.
      - exact (py_eq_refl_get r k rv HRR Hr). }
    destruct (merge_keys_noop (_deep_merge py_repr cm fuel) b r path
                (all_keys b r) Hgood (placeholders cm b) cs)
      as [m [Hm [Hkeys Hvals]]].
    exists (VDict m). unfold _merge_dicts, bind. rewrite Hm.
    split; [reflexivity|].
    rewrite (merged_keys cm b r Hndb Hndr) in Hkeys.
    rewrite py_eq_dict, andb_true_iff, Nat.eqb_eq, entries_eq_spec. split.
    + rewrite <- (length_keys m), <- (length_keys r), Hkeys.
      now apply merged_order_length.
    + intros k v Hin.
      assert (Hg : dict_get k m = Some v).
      { apply In_dict_get; [|exact Hin]. rewrite Hkeys.
        now apply merged_order_NoDup. }
      apply (Hvals k v Hg).
      rewrite (all_keys_merged_order b r Hndr), <- Hkeys.
      apply In_keys. eauto.
  - destruct (is_list B && is_list R) eqn:El.
    + destruct B as [| | | | |b|]; try discriminate El.
      destruct R as [| | | | |r|]; try discriminate El.
      cbn [Dyn.items]. rewrite py_or_list.
      pose proof (retains_list b r Hk EBR) as Hl.
      unfold _merge_lists.
      destruct (_is_named_list b || _is_named_list r).
      * destruct Hl as (Hhb & Hdr & Ha).
        apply merge_named_lists_noop;
          [exact Hhb|exact Hdr|now rewrite <- py_eq_list|].
        destruct (aligned_Forall2 remote_retains b r Ha)
          as (ys1 & ys2 & -> & HF).
        exists ys1, ys2. split; [reflexivity|].
        apply (Forall2_impl_In _ _ _ _ _ _) with (2 := HF).
        intros x y Hx Hy (Hn & Hxy). split; [exact Hn|].
        apply filter_In in Hx as [Hx _].
        assert (Hyr : In y (ys1 ++ ys2)) by (apply in_or_app; now left).
        intros p cs0. apply IH.
        -- pose proof (height_item b x Hx). lia.
        -- exact (wf_list_item b x HB Hx).
        -- exact (wf_list_item _ y HR Hyr).
        -- rewrite py_eq_list in HBB. exact (items_eq_refl_In b x HBB Hx).
        -- rewrite py_eq_list in HRR. exact (items_eq_refl_In _ y HRR Hyr).
        -- exact Hxy.
      * unfold py_ne. rewrite HBB. cbn [negb andb].
        exists (VList r). now split.
    + unfold py_ne. rewrite EBR, HBB. cbn [negb]. exists R. now split.
Qed.

(** The conflict that a deletion on the remote side gives, when the local
    value is the base value. *)
Lemma deletion_conflict path bv :
  py_eq bv bv = true ->
  MergeConflict.__init__ path bv bv VNone
  = MergeConflict.mk path bv bv VNone
      (Some (if py_eq bv VNone then "keep_local" else "take_remote")) true.
Proof.
  intro H. unfold MergeConflict.__init__, MergeConflict._check_auto_resolvable.
  cbn [MergeConflict.base_value MergeConflict.remote_value
       MergeConflict.local_value].
  destruct (py_eq bv VNone); [reflexivity|]. rewrite H. reflexivity.
Qed.

End NoopLocal.

(** C4, as stated, fails on scenario S5: the remote mapping has deleted a
    key that base and local both have; the merged mapping keeps the key and
    a conflict is reported. *)
Lemma C4_remote_deletion_counterexample :
  ~ Stated.noop_local (PreservingYAMLMerger.merge (fun _ => "") true)
      Stated.flag (VDict []).
Proof.
  intros [M [H _]]. vm_compute in H. discriminate H.
Qed.

(** C4 (amended).  Let B and R be well-formed (no mapping repeats a key)
    and each equal to itself (no NaN).

    (1) If R retains what B has ([LocalIsBase.remote_retains]), then
    merge(B, B, R) returns a tree equal to R and no conflict.  R retains
    what B has when the two are equal, or are unequal mappings and every
    key of B is a key of R whose value retains that of B, or are unequal
    sequences of which neither is a named list, or are unequal sequences
    of which one is a named list and: no mapping in the sequence of B has
    an unhashable name, the items of the sequence of R are mappings under
    pairwise distinct string names, and that sequence begins with one item
    for each item of B that is a mapping with a truthy name, in the same
    order and under the same name, which retains it (further items of R
    are additions); or are any other pair of unequal values.

    (2) If B and R are mappings and R has deleted a key k of B, then
    merge(B, B, R) is not (a tree equal to R, no conflict): whenever it
    returns, the merged mapping has k with the value B[k] and the conflict
    (k, B[k], B[k], None) is reported, auto-resolvable, with the
    resolution keep_local when B[k] is None and take_remote otherwise.

    (3) Scenario S5 evaluates to ({flag: true}, [that conflict]). *)
Theorem C4_noop_local_when_remote_keeps_keys :
  forall (py_repr : value -> string) (local_is_CommentedMap : bool)
         (B R : value),
    wf B = true -> wf R = true ->
    py_eq B B = true -> py_eq R R = true ->
    (LocalIsBase.remote_retains B R = true ->
     Stated.noop_local
       (PreservingYAMLMerger.merge py_repr local_is_CommentedMap) B R)
    /\
    (forall (b r : dict) (k : string) (v : value),
        B = VDict b -> R = VDict r ->
        dict_get k b = Some v -> dict_get k r = None ->
        ~ Stated.noop_local
            (PreservingYAMLMerger.merge py_repr local_is_CommentedMap) B R
        /\
        forall (M : value) (conflicts : list MergeConflict.t),
          PreservingYAMLMerger.merge py_repr local_is_CommentedMap B B R
          = Ok (M, conflicts) ->
          (exists m, M = VDict m /\ dict_get k m = Some v) /\
          In (MergeConflict.mk k v v VNone
                (Some (if py_eq v VNone then "keep_local" else "take_remote"))
                true)
             conflicts)
    /\
    PreservingYAMLMerger.merge py_repr local_is_CommentedMap
      Stated.flag Stated.flag (VDict [])
    = Ok (Stated.flag,
          [MergeConflict.mk "flag" (VBool true) (VBool true) VNone
                            (Some "take_remote") true]).
Proof.
  intros py_repr cm B R HB HR HBB HRR. split; [|split].
  - intro Hk. unfold Stated.noop_local, PreservingYAMLMerger.merge.
    apply NoopLocal.deep_merge_noop_retained; auto.
  - intros b r k v -> -> Eb Er.
    assert (Hret : forall M conflicts,
               PreservingYAMLMerger.merge py_repr cm (VDict b) (VDict b)
                                          (VDict r)
               = Ok (M, conflicts) ->
               (exists m, M = VDict m /\ dict_get k m = Some v) /\
               In (MergeConflict.mk k v v VNone
                     (Some (if py_eq v VNone
                            then "keep_local" else "take_remote"))
                     true)
                  conflicts).
    { intros M cs H. unfold PreservingYAMLMerger.merge in H.
      rewrite <- (NoopLocal.deletion_conflict k v
                    (NoopFacts.py_eq_refl_get b k v HBB Eb)).
      exact (ConflictFacts.deleted_key_kept_and_reported py_repr cm _ ""
               b b r [] M cs k v v
               (wf_dict_NoDup b HB) (wf_dict_NoDup r HR) Eb Eb Er H). }
    split; [|exact Hret].
    intros (M & H & _). destruct (Hret M [] H) as [_ []].
  - destruct cm; reflexivity.
Qed.

Lemma C4_noop_local_when_remote_keeps_keys_witness :
  Stated.noop_local (PreservingYAMLMerger.merge (fun _ => "") true)
    LocalIsBase.base_doc LocalIsBase.remote_doc.
Proof.
  apply (proj1 (C4_noop_local_when_remote_keeps_keys (fun _ => "") true
                  LocalIsBase.base_doc LocalIsBase.remote_doc
                  eq_refl eq_refl eq_refl eq_refl)).
  reflexivity.
Defined.

(* ================================================================== *)
(** * The values files: the base taken from the element itself *)

Module ValuesFacts.
Import FS TemplateUpgrader.

Lemma load_file ruamel_load p fs text doc :
  lookup p fs = Some (File text) ->
  ruamel_load text = Done doc ->
  load_yaml_preserving ruamel_load p fs = (Done (py_or doc (VDict [])), fs).
Proof.
  intros Hl Hd. unfold load_yaml_preserving, bind, exists_, read_text, lift.
  rewrite Hl. cbv beta iota. rewrite Hl. cbv beta iota. now rewrite Hd.
Qed.

Lemma py_eq_py_or doc :
  py_eq doc doc = true ->
  py_eq (py_or doc (VDict [])) (py_or doc (VDict [])) = true.
Proof. intro H. unfold py_or. now destruct (truthy doc). Qed.

End ValuesFacts.

(** X18.  The base taken from the element itself ([upgrade] passes the
    element path as base path when the base version cannot be downloaded):
    when the local and the remote file load as well-formed documents, each
    equal to itself (no NaN), and the remote document retains what the
    local one has ([LocalIsBase.remote_retains]: at unequal mappings every
    local key is a remote key, recursively; at unequal sequences of which
    one is a named list, no mapping in the local sequence has an
    unhashable name, the remote items are mappings under pairwise distinct
    string names and begin with the namesakes of the local mappings of
    truthy name, in the same order, recursively), [merge_values_files]
    with the local file as base file returns a document equal to the
    remote document and no conflict: the local values are given up for
    the remote ones wherever the two differ.  A document that is falsy is
    taken as an empty mapping.  The tree is only read. *)
Theorem X18_values_merged_against_the_element_itself :
  forall (py_repr : value -> string)
         (ruamel_load : string -> TemplateUpgrader.outcome value)
         (local_path remote_path : FS.path) (fs : FS.node)
         (local_text remote_text : string) (local_doc remote_doc : value),
    FS.lookup local_path fs = Some (FS.File local_text) ->
    FS.lookup remote_path fs = Some (FS.File remote_text) ->
    ruamel_load local_text = TemplateUpgrader.Done local_doc ->
    ruamel_load remote_text = TemplateUpgrader.Done remote_doc ->
    wf local_doc = true -> wf remote_doc = true ->
    py_eq local_doc local_doc = true -> py_eq remote_doc remote_doc = true ->
    LocalIsBase.remote_retains (py_or local_doc (VDict []))
                               (py_or remote_doc (VDict [])) = true ->
    exists M,
      TemplateUpgrader.merge_values_files py_repr ruamel_load
        local_path local_path remote_path fs
      = (TemplateUpgrader.Done (M, []), fs) /\
      py_eq M (py_or remote_doc (VDict [])) = true.
Proof.
  intros py_repr load lp rp fs lt rt ld rd Hl Hr Hld Hrd Hwl Hwr Hel Her Hk.
  destruct (NoopLocal.deep_merge_noop_retained py_repr true
              (S (height (py_or ld (VDict []))))
              (py_or ld (VDict [])) (py_or rd (VDict [])) "" []
              (Nat.lt_succ_diag_r _)
              (ConflictFacts.wf_py_or ld (VDict []) Hwl eq_refl)
              (ConflictFacts.wf_py_or rd (VDict []) Hwr eq_refl)
              (ValuesFacts.py_eq_py_or _ Hel)
              (ValuesFacts.py_eq_py_or _ Her) Hk) as (M & HM & He).
  exists M. split; [|exact He].
  unfold TemplateUpgrader.merge_values_files, TemplateUpgrader.bind.
  rewrite (ValuesFacts.load_file load lp fs lt ld Hl Hld). cbv beta iota.
  rewrite (ValuesFacts.load_file load lp fs lt ld Hl Hld). cbv beta iota.
  rewrite (ValuesFacts.load_file load rp fs rt rd Hr Hrd). cbv beta iota.
  unfold PreservingYAMLMerger.merge. rewrite HM. reflexivity.
Qed.

Lemma X18_values_merged_against_the_element_itself_witness :
  exists M,
    TemplateUpgrader.merge_values_files (fun _ => "")
      (fun text =>
         TemplateUpgrader.Done
           (if String.eqb text "retries: 5"
            then Stated.retries 5 else Stated.retries 10))
      ["logging"; "values.yaml"] ["logging"; "values.yaml"]
      ["download"; "values.yaml"]
      (FS.Dir [("logging", FS.Dir [("values.yaml", FS.File "retries: 5")]);
               ("download", FS.Dir [("values.yaml", FS.File "retries: 10")])])
    = (TemplateUpgrader.Done (M, []),
       FS.Dir [("logging", FS.Dir [("values.yaml", FS.File "retries: 5")]);
               ("download",
                FS.Dir [("values.yaml", FS.File "retries: 10")])]) /\
    py_eq M (py_or (Stated.retries 10) (VDict [])) = true.
Proof.
  apply (X18_values_merged_against_the_element_itself
           (fun _ => "")
           (fun text =>
              TemplateUpgrader.Done
                (if String.eqb text "retries: 5"
                 then Stated.retries 5 else Stated.retries 10))
           ["logging"; "values.yaml"] ["download"; "values.yaml"]
           (FS.Dir [("logging",
                     FS.Dir [("values.yaml", FS.File "retries: 5")]);
                    ("download",
                     FS.Dir [("values.yaml", FS.File "retries: 10")])])
           "retries: 5" "retries: 10"
           (Stated.retries 5) (Stated.retries 10)); reflexivity.
Defined.


(* ================================================================== *)
(** * Key order of merged mappings, at every path *)

Module PathFacts.
Import MergeM PreservingYAMLMerger Loops OrderFacts TreeFacts MergeRule
       NamedOrder NamedIndex.






(** ** Equal trees have equal mappings at the same paths *)






(** ** The dictionary by name *)








(** ** Selecting by name in a merged list *)





End PathFacts.

Module OrderProof.
Import MergeM PreservingYAMLMerger Loops OrderFacts TreeFacts MergeRule
       NamedOrder NamedIndex PathFacts.







End OrderProof.



